(** * BGN to EUR Excel tables verifier

    A shallow embedding of [excel_tables_verifier.py]: the cell parser
    [parse_decimal], the rounding helper [normalize], the header lookup
    [get_column_index], the comparator [verify_row] and the processing
    loop of [main] with what it shows of its progress and result,
    together with the part of Python's [decimal] module they run on
    (default context: 28 digits, ROUND_HALF_EVEN, traps on
    InvalidOperation, DivisionByZero and Overflow). The amounts are also
    compared with their exact rounding in whole numbers. *)

From Stdlib Require Import ZArith NArith List String Ascii Bool Lia.
From Stdlib Require Import DecimalString.
From Stdlib Require DecimalN DecimalPos.
From Stdlib Require Import Sorted.
Import ListNotations.

(** ** Exceptions

    The exceptions the modelled code can meet: the trapped signals of the
    decimal context, the ValueError of a cell index below 1 and the
    TypeError of arithmetic on None. A computation returns or raises. *)

Inductive exn : Type :=
| InvalidOperation
| DivisionByZero
| Overflow
| ValueError
| TypeError.

Inductive result (A : Type) : Type :=
| Ok (a : A)
| Raise (e : exn).

Arguments Ok {A} a.
Arguments Raise {A} e.

Definition bind {A B : Type} (m : result A) (k : A -> result B) : result B :=
  match m with
  | Ok a => k a
  | Raise e => Raise e
  end.

Notation "x <- m ;; k" := (bind m (fun x => k))
  (at level 61, m at next level, right associativity).

(** ** Python's decimal arithmetic under the default context *)

Module Dec.

Definition prec : Z := 28.
Definition Emax : Z := 999999.
Definition Emin : Z := -999999.
Definition Etiny : Z := Emin - prec + 1.
Definition Etop : Z := Emax - prec + 1.

(** A Decimal is a sign, a coefficient (a digit string without leading
    zeros, here the number it denotes) and an exponent, or one of the
    special values. A NaN carries a payload, the empty string being 0. *)
Inductive decimal : Type :=
| Finite (sign : bool) (coeff : N) (exp : Z)
| Infinity (sign : bool)
| NaN (sign : bool) (payload : N)
| sNaN (sign : bool) (payload : N).

Inductive rounding_mode : Type :=
| ROUND_HALF_UP
| ROUND_HALF_EVEN.

(** [10 ** k], and 1 for a negative [k] (as ['0' * k] is empty then). *)
Definition pow10 (k : Z) : N := (10 ^ Z.to_N k)%N.

(** [len(str(n))]: the number of decimal digits of [n]. *)
Fixpoint ndigits_aux (fuel : nat) (n : N) : Z :=
  match fuel with
  | O => 1
  | S fuel' => if (n <? 10)%N then 1 else (1 + ndigits_aux fuel' (n / 10)%N)%Z
  end.

Definition ndigits (n : N) : Z := ndigits_aux (N.to_nat (N.size n)) n.

(** [self.adjusted()] of a finite number. *)
Definition adjusted (coeff : N) (exp : Z) : Z := (exp + ndigits coeff - 1)%Z.

(** Length of a NaN payload string. *)
Definition payload_len (p : N) : Z := if (p =? 0)%N then 0%Z else ndigits p.

(** [_fix_nan]: a payload longer than the precision keeps its last
    [prec] digits. *)
Definition fix_nan (d : decimal) : decimal :=
  match d with
  | NaN s p => if (prec <? payload_len p)%Z then NaN s (p mod pow10 prec)%N else d
  | sNaN s p => if (prec <? payload_len p)%Z then sNaN s (p mod pow10 prec)%N else d
  | _ => d
  end.

(** [_check_nans]: a signaling NaN raises, a quiet NaN is the answer. *)
Definition check_nans (self other : decimal) : result (option decimal) :=
  match self, other with
  | sNaN _ _, _ => Raise InvalidOperation
  | _, sNaN _ _ => Raise InvalidOperation
  | NaN _ _, _ => Ok (Some (fix_nan self))
  | _, NaN _ _ => Ok (Some (fix_nan other))
  | _, _ => Ok None
  end.

(** Views of the digit string [self._int] of a coefficient [c], cut after
    its first [i] digits. *)
Definition digit_at (c : N) (i : Z) : N :=
  ((c / pow10 (ndigits c - i - 1)) mod 10)%N.

Definition all_zeros (c : N) (i : Z) : bool :=
  (c mod pow10 (ndigits c - i) =? 0)%N.

Definition exact_half (c : N) (i : Z) : bool :=
  (c mod pow10 (ndigits c - i) =? 5 * pow10 (ndigits c - i - 1))%N.

Definition prefix (c : N) (i : Z) : N := (c / pow10 (ndigits c - i))%N.

(** The rounding functions answer 1 (round away), 0 (exact) or -1. *)
Definition round_half_up (c : N) (i : Z) : Z :=
  if (5 <=? digit_at c i)%N then 1%Z
  else if all_zeros c i then 0%Z
  else (-1)%Z.

Definition round_half_even (c : N) (i : Z) : Z :=
  if exact_half c i && ((i =? 0)%Z || N.even (digit_at c (i - 1)))
  then (-1)%Z
  else round_half_up c i.

Definition pick_rounding_function (r : rounding_mode) : N -> Z -> Z :=
  match r with
  | ROUND_HALF_UP => round_half_up
  | ROUND_HALF_EVEN => round_half_even
  end.

(** [_rescale]: bring a number to the exponent [exp], padding with zeros
    or rounding digits away. *)
Definition rescale (d : decimal) (exp : Z) (rounding : rounding_mode) : decimal :=
  match d with
  | Finite s c e =>
      if (c =? 0)%N then Finite s 0 exp
      else if (exp <=? e)%Z then Finite s (c * pow10 (e - exp))%N exp
      else
        let digits := (ndigits c + e - exp)%Z in
        let '(c1, digits1) := if (digits <? 0)%Z then (1%N, 0%Z) else (c, digits) in
        let changed := pick_rounding_function rounding c1 digits1 in
        let coeff := prefix c1 digits1 in
        Finite s (if (changed =? 1)%Z then coeff + 1 else coeff)%N exp
  | _ => d
  end.

(** [_fix]: round a result to the context (precision 28, half even, clamp
    0). Overflow is trapped, the other signals only set flags. *)
Definition dec_fix (d : decimal) : result decimal :=
  match d with
  | NaN _ _ | sNaN _ _ => Ok (fix_nan d)
  | Infinity _ => Ok d
  | Finite s c e =>
      if (c =? 0)%N then Ok (Finite s 0 (Z.min (Z.max e Etiny) Emax))
      else
        let exp_min := (ndigits c + e - prec)%Z in
        if (Etop <? exp_min)%Z then Raise Overflow
        else
          let exp_min := if (exp_min <? Etiny)%Z then Etiny else exp_min in
          if (e <? exp_min)%Z then
            let digits := (ndigits c + e - exp_min)%Z in
            let '(c1, digits1) := if (digits <? 0)%Z then (1%N, 0%Z) else (c, digits) in
            let changed := round_half_even c1 digits1 in
            let coeff := prefix c1 digits1 in
            let '(coeff, exp_min) :=
              if (0 <? changed)%Z then
                let coeff := (coeff + 1)%N in
                if (prec <? ndigits coeff)%Z
                then ((coeff / 10)%N, (exp_min + 1)%Z)
                else (coeff, exp_min)
              else (coeff, exp_min) in
            if (Etop <? exp_min)%Z then Raise Overflow
            else Ok (Finite s coeff exp_min)
          else Ok d
  end.

(** [quantize(exp, rounding)]. *)
Definition quantize (self exp : decimal) (rounding : rounding_mode) : result decimal :=
  nans <- check_nans self exp ;;
  match nans with
  | Some ans => Ok ans
  | None =>
      match self, exp with
      | Infinity _, Infinity _ => Ok self
      | Finite s c e, Finite _ _ ee =>
          if negb ((Etiny <=? ee)%Z && (ee <=? Emax)%Z) then Raise InvalidOperation
          else if (c =? 0)%N then dec_fix (Finite s 0 ee)
          else
            let self_adjusted := adjusted c e in
            if (Emax <? self_adjusted)%Z then Raise InvalidOperation
            else if (prec <? self_adjusted - ee + 1)%Z then Raise InvalidOperation
            else
              match rescale self ee rounding with
              | Finite _ c' e' as ans =>
                  if (Emax <? adjusted c' e')%Z then Raise InvalidOperation
                  else if (prec <? ndigits c')%Z then Raise InvalidOperation
                  else dec_fix ans
              | ans => Ok ans
              end
      | _, _ => Raise InvalidOperation
      end
  end.

(** The loop of an exact division: drop trailing zeros while the exponent
    is below the ideal one. It runs at most [ideal_exp - exp] times. *)
Fixpoint strip_zeros (fuel : nat) (coeff : N) (exp ideal_exp : Z) : N * Z :=
  match fuel with
  | O => (coeff, exp)
  | S fuel' =>
      if (exp <? ideal_exp)%Z && (coeff mod 10 =? 0)%N
      then strip_zeros fuel' (coeff / 10)%N (exp + 1)%Z ideal_exp
      else (coeff, exp)
  end.

(** [self / other]. *)
Definition truediv (self other : decimal) : result decimal :=
  nans <- check_nans self other ;;
  match nans with
  | Some ans => Ok ans
  | None =>
      match self, other with
      | Infinity _, Infinity _ => Raise InvalidOperation
      | Infinity s1, Finite s2 _ _ => Ok (Infinity (xorb s1 s2))
      | Finite s1 _ _, Infinity s2 => Ok (Finite (xorb s1 s2) 0 Etiny)
      | Finite s1 c1 e1, Finite s2 c2 e2 =>
          let sign := xorb s1 s2 in
          if (c2 =? 0)%N then
            if (c1 =? 0)%N then Raise InvalidOperation else Raise DivisionByZero
          else if (c1 =? 0)%N then dec_fix (Finite sign 0 (e1 - e2))
          else
            let shift := (ndigits c2 - ndigits c1 + prec + 1)%Z in
            let exp := (e1 - e2 - shift)%Z in
            let '(coeff, remainder) :=
              if (0 <=? shift)%Z
              then N.div_eucl (c1 * pow10 shift) c2
              else N.div_eucl c1 (c2 * pow10 (- shift)) in
            if negb (remainder =? 0)%N then
              dec_fix (Finite sign (if (coeff mod 5 =? 0)%N then coeff + 1 else coeff)%N exp)
            else
              let ideal_exp := (e1 - e2)%Z in
              let '(coeff, exp) :=
                strip_zeros (Z.to_nat (ideal_exp - exp)) coeff exp ideal_exp in
              dec_fix (Finite sign coeff exp)
      | _, _ => Raise InvalidOperation
      end
  end.

(** [_normalize] of two work representations (coefficient, exponent). *)
Definition normalize_ops (op1 op2 : N * Z) (precision : Z) : (N * Z) * (N * Z) :=
  let '(i1, e1) := op1 in
  let '(i2, e2) := op2 in
  if (e1 <? e2)%Z then
    let exp := (e2 + Z.min (-1) (ndigits i2 - precision - 2))%Z in
    let '(oi, oe) := if (ndigits i1 + e1 - 1 <? exp)%Z then (1%N, exp) else (i1, e1) in
    ((oi, oe), ((i2 * pow10 (e2 - oe))%N, oe))
  else
    let exp := (e1 + Z.min (-1) (ndigits i1 - precision - 2))%Z in
    let '(oi, oe) := if (ndigits i2 + e2 - 1 <? exp)%Z then (1%N, exp) else (i2, e2) in
    (((i1 * pow10 (e1 - oe))%N, oe), (oi, oe)).

(** [self + other]. The rounding is not ROUND_FLOOR, so an exact zero
    sum of opposite numbers is positive. *)
Definition add (self other : decimal) : result decimal :=
  nans <- check_nans self other ;;
  match nans with
  | Some ans => Ok ans
  | None =>
      match self, other with
      | Infinity s1, Infinity s2 =>
          if negb (Bool.eqb s1 s2) then Raise InvalidOperation else Ok self
      | Infinity _, _ => Ok self
      | _, Infinity _ => Ok other
      | Finite s1 c1 e1, Finite s2 c2 e2 =>
          let exp := Z.min e1 e2 in
          if (c1 =? 0)%N && (c2 =? 0)%N then dec_fix (Finite (s1 && s2) 0 exp)
          else if (c1 =? 0)%N then
            dec_fix (rescale other (Z.max exp (e2 - prec - 1)) ROUND_HALF_EVEN)
          else if (c2 =? 0)%N then
            dec_fix (rescale self (Z.max exp (e1 - prec - 1)) ROUND_HALF_EVEN)
          else
            let '((i1, ex), (i2, _)) := normalize_ops (c1, e1) (c2, e2) prec in
            if negb (Bool.eqb s1 s2) then
              if (i1 =? i2)%N then dec_fix (Finite false 0 exp)
              else if (i1 <? i2)%N then dec_fix (Finite s2 (i2 - i1)%N ex)
              else dec_fix (Finite s1 (i1 - i2)%N ex)
            else dec_fix (Finite s1 (i1 + i2)%N ex)
      | _, _ => Raise InvalidOperation
      end
  end.

Definition copy_negate (d : decimal) : decimal :=
  match d with
  | Finite s c e => Finite (negb s) c e
  | Infinity s => Infinity (negb s)
  | NaN s p => NaN (negb s) p
  | sNaN s p => sNaN (negb s) p
  end.

(** [self - other]. *)
Definition sub (self other : decimal) : result decimal :=
  nans <- check_nans self other ;;
  match nans with
  | Some ans => Ok ans
  | None => add self (copy_negate other)
  end.

Definition isinfinity (d : decimal) : Z :=
  match d with
  | Infinity false => 1
  | Infinity true => -1
  | _ => 0
  end.

(** [(-1) ** sign]. *)
Definition sgn (s : bool) : Z := if s then (-1)%Z else 1%Z.

(** [_cmp]: compare two decimals that are not NaN; -1, 0 or 1. *)
Definition cmp (self other : decimal) : Z :=
  match self, other with
  | Finite s1 c1 e1, Finite s2 c2 e2 =>
      if (c1 =? 0)%N then (if (c2 =? 0)%N then 0 else - sgn s2)%Z
      else if (c2 =? 0)%N then sgn s1
      else if s1 && negb s2 then (-1)%Z
      else if negb s1 && s2 then 1%Z
      else
        let self_adjusted := adjusted c1 e1 in
        let other_adjusted := adjusted c2 e2 in
        if (self_adjusted =? other_adjusted)%Z then
          let self_padded := (c1 * pow10 (e1 - e2))%N in
          let other_padded := (c2 * pow10 (e2 - e1))%N in
          if (self_padded =? other_padded)%N then 0%Z
          else if (self_padded <? other_padded)%N then (- sgn s1)%Z
          else sgn s1
        else if (other_adjusted <? self_adjusted)%Z then sgn s1
        else (- sgn s1)%Z
  | _, _ =>
      let self_inf := isinfinity self in
      let other_inf := isinfinity other in
      if (self_inf =? other_inf)%Z then 0%Z
      else if (self_inf <? other_inf)%Z then (-1)%Z
      else 1%Z
  end.

(** [self == other] and [self != other]: False and True on a quiet NaN,
    InvalidOperation on a signaling one. *)
Definition dec_eq (self other : decimal) : result bool :=
  nans <- check_nans self other ;;
  match nans with
  | Some _ => Ok false
  | None => Ok (cmp self other =? 0)%Z
  end.

Definition dec_ne (self other : decimal) : result bool :=
  b <- dec_eq self other ;; Ok (negb b).

(** *** Strings: [Decimal(str)] and [str(Decimal)]

    Characters are code points below 256. *)

Definition is_digit (a : ascii) : bool :=
  let n := nat_of_ascii a in (48 <=? n)%nat && (n <=? 57)%nat.

(** [str.isspace] on one character. *)
Definition is_space (a : ascii) : bool :=
  let n := nat_of_ascii a in
  ((9 <=? n)%nat && (n <=? 13)%nat) || ((28 <=? n)%nat && (n <=? 32)%nat)
  || (n =? 133)%nat || (n =? 160)%nat.

Fixpoint lstrip (l : list ascii) : list ascii :=
  match l with
  | a :: t => if is_space a then lstrip t else l
  | [] => []
  end.

Definition strip (l : list ascii) : list ascii := rev (lstrip (rev (lstrip l))).

Definition lower (a : ascii) : ascii :=
  let n := nat_of_ascii a in
  if (65 <=? n)%nat && (n <=? 90)%nat then ascii_of_nat (n + 32) else a.

(** The longest prefix of digits, and what follows it. *)
Fixpoint span_digits (l : list ascii) : list ascii * list ascii :=
  match l with
  | a :: t =>
      if is_digit a then let '(ds, r) := span_digits t in (a :: ds, r)
      else ([], l)
  | [] => ([], [])
  end.

(** [int(ds)] of a digit string, 0 for the empty one. *)
Definition int_of_digits (ds : list ascii) : N :=
  fold_left (fun acc d => (acc * 10 + (N_of_ascii d - 48))%N) ds 0%N.

(** The exponent group [(E[-+]?\d+)?] followed by the end of the string. *)
Definition parse_exponent (l : list ascii) : option Z :=
  match l with
  | [] => Some 0%Z
  | e :: t =>
      if Ascii.eqb (lower e) "e" then
        let '(neg, t') :=
          match t with
          | "-"%char :: u => (true, u)
          | "+"%char :: u => (false, u)
          | _ => (false, t)
          end in
        let '(ds, r) := span_digits t' in
        match ds, r with
        | _ :: _, [] =>
            Some (if neg then - Z.of_N (int_of_digits ds) else Z.of_N (int_of_digits ds))%Z
        | _, _ => None
        end
      else None
  end.

(** The finite alternative of the parser: at least one digit in
    [int.frac], then an optional exponent. *)
Definition parse_finite (l : list ascii) : option (N * Z) :=
  let '(intpart, r1) := span_digits l in
  let '(fracpart, r2) :=
    match r1 with
    | "."%char :: t => span_digits t
    | _ => ([], r1)
    end in
  let lookahead :=
    match intpart, r1 with
    | _ :: _, _ => true
    | [], "."%char :: d :: _ => is_digit d
    | _, _ => false
    end in
  if lookahead then
    match parse_exponent r2 with
    | Some exp =>
        Some (int_of_digits (intpart ++ fracpart)%list, (exp - Z.of_nat (List.length fracpart))%Z)
    | None => None
    end
  else None.

(** The other alternatives, case-insensitive: [Inf(inity)?] and
    [s?NaN\d*]. *)
Definition parse_special (sign : bool) (l : list ascii) : option decimal :=
  let low := string_of_list_ascii (map lower l) in
  if (low =? "inf")%string || (low =? "infinity")%string then Some (Infinity sign)
  else
    let '(signal, r) :=
      match map lower l with
      | "s"%char :: t => (true, t)
      | low' => (false, low')
      end in
    match r with
    | "n"%char :: "a"%char :: "n"%char :: diag =>
        let '(ds, rest) := span_digits diag in
        match rest with
        | [] => Some (if signal then sNaN sign (int_of_digits ds)
                      else NaN sign (int_of_digits ds))
        | _ => None
        end
    | _ => None
    end.

(** An exact construction has limits of its own, far beyond those of the
    context (the C implementation of the module, 64-bit): the exponent
    is at least [MIN_ETINY] and the adjusted exponent at most
    [MAX_EMAX]. *)
Definition MAX_EMAX : Z := 999999999999999999.
Definition MIN_ETINY : Z := -1999999999999999997.

Definition exact_fits (coeff : N) (exp : Z) : bool :=
  (MIN_ETINY <=? exp)%Z && (adjusted coeff exp <=? MAX_EMAX)%Z.

(** [Decimal(value)] for a string: exact, or InvalidOperation when the
    text is not a number (the ConversionSyntax condition) or the number
    is beyond the limits. *)
Definition of_string (value : string) : result decimal :=
  let l := filter (fun a => negb (Ascii.eqb a "_")) (strip (list_ascii_of_string value)) in
  let '(sign, body) :=
    match l with
    | "-"%char :: t => (true, t)
    | "+"%char :: t => (false, t)
    | _ => (false, l)
    end in
  match parse_finite body with
  | Some (coeff, exp) =>
      if exact_fits coeff exp then Ok (Finite sign coeff exp)
      else Raise InvalidOperation
  | None =>
      match parse_special sign body with
      | Some d => Ok d
      | None => Raise InvalidOperation
      end
  end.

Definition digits_str (c : N) : string := NilZero.string_of_uint (N.to_uint c).

Fixpoint zeros (n : nat) : string :=
  match n with
  | O => EmptyString
  | S n' => String "0" (zeros n')
  end.

Definition sign_str (s : bool) : string := if s then "-"%string else EmptyString.

Definition payload_str (p : N) : string :=
  if (p =? 0)%N then EmptyString else digits_str p.

(** ["%+d" % z]. *)
Definition format_plus_d (z : Z) : string :=
  if (0 <=? z)%Z then ("+" ++ digits_str (Z.to_N z))%string
  else ("-" ++ digits_str (Z.to_N (- z)))%string.

(** [str(self)], scientific notation. *)
Definition to_str (d : decimal) : string :=
  match d with
  | Infinity s => (sign_str s ++ "Infinity")%string
  | NaN s p => (sign_str s ++ "NaN" ++ payload_str p)%string
  | sNaN s p => (sign_str s ++ "sNaN" ++ payload_str p)%string
  | Finite s c e =>
      let int := digits_str c in
      let len := Z.of_nat (String.length int) in
      let leftdigits := (e + len)%Z in
      let dotplace := if (e <=? 0)%Z && (-6 <? leftdigits)%Z then leftdigits else 1%Z in
      let '(intpart, fracpart) :=
        if (dotplace <=? 0)%Z then
          ("0"%string, ("." ++ zeros (Z.to_nat (- dotplace)) ++ int)%string)
        else if (len <=? dotplace)%Z then
          ((int ++ zeros (Z.to_nat (dotplace - len)))%string, EmptyString)
        else
          (substring 0 (Z.to_nat dotplace) int,
           ("." ++ substring (Z.to_nat dotplace) (Z.to_nat (len - dotplace)) int)%string) in
      let exp :=
        if (leftdigits =? dotplace)%Z then EmptyString
        else ("E" ++ format_plus_d (leftdigits - dotplace))%string in
      (sign_str s ++ intpart ++ fracpart ++ exp)%string
  end.

End Dec.

(** ** The program *)

Import Dec.

(** *** Constants *)

Definition BGN_TO_EUR_DIVISOR : decimal := Finite false 195583 (-5).
Definition TWO_PLACES : decimal := Finite false 1 (-2).

(** *** Cell values

    What openpyxl hands over for a cell: None for an empty cell, a str,
    an int, a float, a bool, or a date or time. A float is kept as its
    [repr], the text [str] gives for it; it is falsy exactly when that is
    0.0 or -0.0. A date or time is kept as its text and is never falsy. *)

Inductive CellValue : Type :=
| CNone
| CStr (s : string)
| CInt (z : Z)
| CFloat (repr : string)
| CBool (b : bool)
| CDate (text : string).

(** [str(value)]. *)
Definition py_str (value : CellValue) : string :=
  match value with
  | CNone => "None"
  | CStr s => s
  | CInt z =>
      if (z <? 0)%Z then ("-" ++ digits_str (Z.to_N (- z)))%string
      else digits_str (Z.to_N z)
  | CFloat repr => repr
  | CBool true => "True"
  | CBool false => "False"
  | CDate text => text
  end.

(** Truth value of a cell value in a condition. *)
Definition truthy (value : CellValue) : bool :=
  match value with
  | CNone => false
  | CStr s => negb (s =? "")%string
  | CInt z => negb (z =? 0)%Z
  | CFloat repr => negb ((repr =? "0.0")%string || (repr =? "-0.0")%string)
  | CBool b => b
  | CDate _ => true
  end.

(** [s.strip()] and [s.replace(old, new)] for a one-character [old]. *)
Definition py_strip (s : string) : string :=
  string_of_list_ascii (strip (list_ascii_of_string s)).

Fixpoint py_replace (old : ascii) (new : string) (s : string) : string :=
  match s with
  | EmptyString => EmptyString
  | String a rest =>
      if Ascii.eqb a old then (new ++ py_replace old new rest)%string
      else String a (py_replace old new rest)
  end.

(** *** Helper functions *)

Definition parse_decimal (number_str : CellValue) : result (option decimal) :=
  match number_str with
  | CNone => Ok None
  | _ =>
      let number_str := py_str number_str in
      let cleaned_str := py_replace "," "." (py_replace " " "" number_str) in
      match of_string cleaned_str with
      | Ok d => Ok (Some d)
      | Raise InvalidOperation => Ok None
      | Raise e => Raise e
      end
  end.

Definition normalize (decimal : Dec.decimal) : result Dec.decimal :=
  quantize decimal TWO_PLACES ROUND_HALF_UP.

(** A worksheet: its rows from row 1 on, each the values of its cells from
    column 1 on. Cells past the end of a row or of the sheet are empty. *)
Definition Worksheet : Type := list (list CellValue).

(** [sheet.max_row]: 1 for a sheet without cells. *)
Definition max_row (sheet : Worksheet) : nat := Nat.max 1 (List.length sheet).

(** [sheet[1]], without the trailing empty cells. *)
Definition header_row (sheet : Worksheet) : list CellValue := nth 0 sheet [].

(** [sheet.cell(row=row, column=column).value]: indices count from 1, a
    smaller one is a ValueError, a cell that does not exist is empty. *)
Definition cell_value (sheet : Worksheet) (row column : nat) : result CellValue :=
  match row, column with
  | S r, S c => Ok (nth c (nth r sheet []) CNone)
  | _, _ => Raise ValueError
  end.

(** The loop of [get_column_index] over the cells of the header, [column]
    being [cell.column] of the first of them. *)
Fixpoint find_header (cells : list CellValue) (column : nat) (target : string) : option nat :=
  match cells with
  | [] => None
  | value :: rest =>
      if truthy value && (py_strip (py_str value) =? target)%string
      then Some column
      else find_header rest (S column) target
  end.

Definition get_column_index (sheet : Worksheet) (column_name : string) : option nat :=
  let target := py_strip column_name in
  find_header (header_row sheet) 1 target.

(** The body of [verify_row], inside its [try]. *)
Definition verify_row_body (bgn_val eur_val : option decimal)
  : result (bool * option decimal * option decimal) :=
  match bgn_val with
  | None => Ok (false, None, None)
  | Some bgn =>
      calculated_eur <- truediv bgn BGN_TO_EUR_DIVISOR ;;
      normalized_calc_eur <- normalize calculated_eur ;;
      match eur_val with
      | Some eur =>
          eur_price_normalized <- normalize eur ;;
          differ <- dec_ne normalized_calc_eur eur_price_normalized ;;
          if differ
          then Ok (true, Some normalized_calc_eur, Some eur_price_normalized)
          else Ok (false, Some normalized_calc_eur, None)
      | None => Ok (false, Some normalized_calc_eur, None)
      end
  end.

(** [verify_row]: (is_mismatch, calculated_eur, normalized_eur_given);
    [except Exception] turns every exception of the body into
    (False, None, None). *)
Definition verify_row (bgn_val eur_val : option decimal)
  : bool * option decimal * option decimal :=
  match verify_row_body bgn_val eur_val with
  | Ok r => r
  | Raise _ => (false, None, None)
  end.

(** *** The verification run of [main] *)

(** One entry of the mismatch report. *)
Record Mismatch : Type := {
  Row : nat;
  Column : string;
  Source_BGN : string;
  Calculated_EUR : string;
  File_EUR : string;
  Diff : string
}.

(** [d[k] = v] on a dict, which keeps the order of first insertion. *)
Fixpoint dict_set {V : Type} (d : list (string * V)) (k : string) (v : V)
  : list (string * V) :=
  match d with
  | [] => [(k, v)]
  | (k', v') :: rest =>
      if (k' =? k)%string then (k, v) :: rest
      else (k', v') :: dict_set rest k v
  end.

(** Truth value of an index or None. *)
Definition truthy_index (i : option nat) : bool :=
  match i with
  | Some (S _) => true
  | _ => false
  end.

(** The loop "Map columns". *)
Fixpoint map_columns (bgn_ws eur_ws : Worksheet) (selected_columns : list string)
  (column_map : list (string * (nat * nat))) : list (string * (nat * nat)) :=
  match selected_columns with
  | [] => column_map
  | col_name :: rest =>
      let b_idx := get_column_index bgn_ws col_name in
      let e_idx := get_column_index eur_ws col_name in
      let column_map :=
        if truthy_index b_idx && truthy_index e_idx then
          match b_idx, e_idx with
          | Some b, Some e => dict_set column_map col_name (b, e)
          | _, _ => column_map
          end
        else column_map in
      map_columns bgn_ws eur_ws rest column_map
  end.

(** [f"{x}"] of a Decimal or None. *)
Definition py_format (x : option decimal) : string :=
  match x with
  | Some d => to_str d
  | None => "None"
  end.

(** [calc_eur - given_eur]; None has no subtraction. *)
Definition py_sub (x y : option decimal) : result decimal :=
  match x, y with
  | Some a, Some b => sub a b
  | _, _ => Raise TypeError
  end.

(** The dict appended to [mismatches]; its last entry subtracts. *)
Definition mismatch_record (r : nat) (col_name : string)
  (bgn_val calc_eur given_eur : option decimal) : result Mismatch :=
  diff <- py_sub calc_eur given_eur ;;
  Ok {| Row := r;
        Column := col_name;
        Source_BGN := py_format bgn_val;
        Calculated_EUR := py_format calc_eur;
        File_EUR := py_format given_eur;
        Diff := to_str diff |}.

(** The body of the inner loop for one row and one column: the record to
    append, if any. *)
Definition check_cell (bgn_ws eur_ws : Worksheet) (r : nat) (col_name : string)
  (b_idx e_idx : nat) : result (option Mismatch) :=
  bgn_cell <- cell_value bgn_ws r b_idx ;;
  eur_cell <- cell_value eur_ws r e_idx ;;
  bgn_val <- parse_decimal bgn_cell ;;
  eur_val <- parse_decimal eur_cell ;;
  let '(is_mismatch, calc_eur, given_eur) := verify_row bgn_val eur_val in
  if is_mismatch then
    m <- mismatch_record r col_name bgn_val calc_eur given_eur ;;
    Ok (Some m)
  else Ok None.

(** The inner loop over [column_map.items()]. *)
Fixpoint check_columns (bgn_ws eur_ws : Worksheet) (r : nat)
  (items : list (string * (nat * nat))) (mismatches : list Mismatch)
  : result (list Mismatch) :=
  match items with
  | [] => Ok mismatches
  | (col_name, (b_idx, e_idx)) :: rest =>
      found <- check_cell bgn_ws eur_ws r col_name b_idx e_idx ;;
      check_columns bgn_ws eur_ws r rest
        (match found with
         | Some m => (mismatches ++ [m])%list
         | None => mismatches
         end)
  end.

(** The processing loop over [rows_to_check]. *)
Fixpoint check_rows (bgn_ws eur_ws : Worksheet) (rows : list nat)
  (column_map : list (string * (nat * nat))) (mismatches : list Mismatch)
  : result (list Mismatch) :=
  match rows with
  | [] => Ok mismatches
  | r :: rest =>
      mismatches <- check_columns bgn_ws eur_ws r column_map mismatches ;;
      check_rows bgn_ws eur_ws rest column_map mismatches
  end.

(** [range(start, stop)]. *)
Definition range (start stop : nat) : list nat := seq start (stop - start).

Definition rows_to_check (bgn_ws eur_ws : Worksheet) : list nat :=
  let max_row := Nat.max (max_row bgn_ws) (max_row eur_ws) in
  range 2 (max_row + 1).

(** What [main] does once the two workbooks are loaded and "Run
    Verification" is pressed: None when no column is selected, else the
    mismatches found. An exception here is what the enclosing [try] of
    [main] reports. The progress bar and the rendering of the result are
    left to the user interface. *)
Definition main (bgn_ws eur_ws : Worksheet) (selected_columns : list string)
  : result (option (list Mismatch)) :=
  match selected_columns with
  | [] => Ok None
  | _ =>
      let column_map := map_columns bgn_ws eur_ws selected_columns [] in
      mismatches <- check_rows bgn_ws eur_ws (rows_to_check bgn_ws eur_ws) column_map [] ;;
      Ok (Some mismatches)
  end.

(** ** Notions used by the statements *)

(** The expected EUR amount [verify_row] computes from a BGN amount: the
    division by the rate, then [normalize]. *)
Definition expected_eur (bgn : decimal) : result decimal :=
  calculated_eur <- truediv bgn BGN_TO_EUR_DIVISOR ;;
  normalize calculated_eur.

(** A finite number with exactly two decimal places that fits the
    precision: what [quantize] to 0.01 gives for a finite number. *)
Definition is_two_places (d : decimal) : bool :=
  match d with
  | Finite _ c e => (e =? -2)%Z && (ndigits c <=? prec)%Z
  | _ => false
  end.

Definition is_finite (d : decimal) : bool :=
  match d with
  | Finite _ _ _ => true
  | _ => false
  end.

Definition is_qnan (d : decimal) : bool :=
  match d with
  | NaN _ _ => true
  | _ => false
  end.

Definition is_zero (d : decimal) : bool :=
  match d with
  | Finite _ c _ => (c =? 0)%N
  | _ => false
  end.

(** Strictly above and strictly below zero. *)
Definition is_positive (d : decimal) : bool :=
  match d with
  | Finite false c _ => negb (c =? 0)%N
  | Infinity false => true
  | _ => false
  end.

Definition is_negative (d : decimal) : bool :=
  match d with
  | Finite true c _ => negb (c =? 0)%N
  | Infinity true => true
  | _ => false
  end.

(** A header row has a column when [get_column_index] can meet it: a cell
    with a true value whose trimmed text is the trimmed name. *)
Definition header_has (sheet : Worksheet) (column_name : string) : bool :=
  existsb (fun value =>
             truthy value && (py_strip (py_str value) =? py_strip column_name)%string)
          (header_row sheet).

(** The coefficient of a number with its sign. *)
Definition signed_coeff (s : bool) (c : N) : Z :=
  if s then (- Z.of_N c)%Z else Z.of_N c.

(** ** A small run, used as example *)

Definition example_bgn : Worksheet :=
  [[CStr "Price"; CStr "Qty"]; [CInt 100; CInt 3]].

Definition example_eur : Worksheet :=
  [[CStr "Price"]; [CStr "51.00"]].

Definition example_record : Mismatch :=
  {| Row := 2;
     Column := "Price";
     Source_BGN := "100";
     Calculated_EUR := "51.13";
     File_EUR := "51.00";
     Diff := "0.13" |}.

(** ** The rest of the run: headers, progress and the result *)

(** [[str(cell.value).strip() for cell in ws[1] if cell.value]]: the
    options offered for selection ([bgn_headers], [eur_headers]). *)
Definition headers (sheet : Worksheet) : list string :=
  map (fun value => py_strip (py_str value)) (filter truthy (header_row sheet)).

(** Membership in [set(bgn_headers).intersection(eur_headers)], the
    default selection. The order of the list made of that set is not
    fixed, and nothing below depends on it. *)
Definition common_header (bgn_ws eur_ws : Worksheet) (name : string) : bool :=
  existsb (String.eqb name) (headers bgn_ws)
  && existsb (String.eqb name) (headers eur_ws).

(** What [progress_bar.progress] is given: the float
    [numerator / denominator], kept as the two integers divided, or an
    int. *)
Inductive ProgressValue : Type :=
| Fraction (numerator denominator : nat)
| Percent (n : nat).

(** What the run shows, in the order of the calls. *)
Inductive UiEvent : Type :=
| ShowError (text : string)
| ShowProgress (value : ProgressValue)
| ShowStatus (text : string)
| ShowSuccess (total_rows columns : nat)
| ShowMismatches (count : nat) (table : list Mismatch).

(** [f"Processing Row {r}..."]. *)
Definition processing_row (r : nat) : string :=
  ("Processing Row " ++ digits_str (N.of_nat r) ++ "...")%string.

(** The processing loop with its progress updates: [i] is the index
    [enumerate] gives the first of [rows]. *)
Fixpoint check_rows_events (bgn_ws eur_ws : Worksheet) (i total_rows : nat)
  (rows : list nat) (column_map : list (string * (nat * nat)))
  (mismatches : list Mismatch) (events : list UiEvent)
  : result (list Mismatch * list UiEvent) :=
  match rows with
  | [] => Ok (mismatches, events)
  | r :: rest =>
      let events :=
        if (i mod 100 =? 0)%nat
        then (events ++ [ShowProgress (Fraction (i + 1) total_rows);
                         ShowStatus (processing_row r)])%list
        else events in
      mismatches <- check_columns bgn_ws eur_ws r column_map mismatches ;;
      check_rows_events bgn_ws eur_ws (S i) total_rows rest column_map
        mismatches events
  end.

(** The run of [main] with what it shows: the error for an empty
    selection, else the progress of the loop, its end, and the result. *)
Definition main_events (bgn_ws eur_ws : Worksheet) (selected_columns : list string)
  : result (list UiEvent) :=
  match selected_columns with
  | [] => Ok [ShowError "Please select at least one column."]
  | _ =>
      let column_map := map_columns bgn_ws eur_ws selected_columns [] in
      let rows := rows_to_check bgn_ws eur_ws in
      let total_rows := List.length rows in
      done <- check_rows_events bgn_ws eur_ws 0 total_rows rows column_map []
                [ShowProgress (Percent 0)] ;;
      let '(mismatches, events) := done in
      Ok (events
          ++ [ShowProgress (Percent 100); ShowStatus "Done."]
          ++ [match mismatches with
              | [] => ShowSuccess total_rows (List.length selected_columns)
              | _ => ShowMismatches (List.length mismatches) mismatches
              end])%list
  end.

(** The two updates of the loop at index [i], where the row is [i + 2]. *)
Definition row_update (total_rows i : nat) : list UiEvent :=
  [ShowProgress (Fraction (i + 1) total_rows); ShowStatus (processing_row (i + 2))].

(** What the run shows last. *)
Definition result_event (total_rows columns : nat) (mismatches : list Mismatch)
  : UiEvent :=
  match mismatches with
  | [] => ShowSuccess total_rows columns
  | _ => ShowMismatches (List.length mismatches) mismatches
  end.

(** A value [st.progress] accepts: a float from 0.0 to 1.0 (and the
    division that makes it has a divisor other than 0), or an int from 0
    to 100. *)
Definition valid_progress (value : ProgressValue) : bool :=
  match value with
  | Fraction n d => negb (d =? 0)%nat && (n <=? d)%nat
  | Percent n => (n <=? 100)%nat
  end.

(** The record the loop appends for one cell pair, as a list. *)
Definition cell_records (bgn_ws eur_ws : Worksheet) (r : nat)
  (item : string * (nat * nat)) : list Mismatch :=
  let '(col_name, (b_idx, e_idx)) := item in
  match check_cell bgn_ws eur_ws r col_name b_idx e_idx with
  | Ok (Some m) => [m]
  | _ => []
  end.

(** The records of all cell pairs, row by row and in each row column by
    column. *)
Definition scan (bgn_ws eur_ws : Worksheet)
  (column_map : list (string * (nat * nat))) (rows : list nat) : list Mismatch :=
  flat_map (fun r => flat_map (cell_records bgn_ws eur_ws r) column_map) rows.

(** Column indices the worksheet accepts. *)
Definition valid_items (items : list (string * (nat * nat))) : Prop :=
  forall col_name b e, In (col_name, (b, e)) items -> 1 <= b /\ 1 <= e.

(** A column both headers have. *)
Definition resolved (bgn_ws eur_ws : Worksheet) (col_name : string) : bool :=
  match get_column_index bgn_ws col_name, get_column_index eur_ws col_name with
  | Some _, Some _ => true
  | _, _ => false
  end.

(** Every entry holds the indices of its name in the two headers. *)
Definition consistent_map (bgn_ws eur_ws : Worksheet)
  (column_map : list (string * (nat * nat))) : Prop :=
  forall col_name b e, In (col_name, (b, e)) column_map ->
    get_column_index bgn_ws col_name = Some b /\
    get_column_index eur_ws col_name = Some e.

(** The row and column a record names. *)
Definition record_key (m : Mismatch) : nat * string := (Row m, Column m).

(** Both amounts of a cell pair, negated. *)
Definition negate_value (x : option decimal) : option decimal :=
  option_map copy_negate x.

(** ** Exact rounding, to compare with

    The amounts as the arithmetic of whole numbers has them, with no
    precision in between. *)

(** The whole number nearest to [num / den], a half going up. *)
Definition half_up (num den : N) : N := ((2 * num + den) / (2 * den))%N.

(** The cents of the amount [c * 10 ^ e], rounded half up. *)
Definition cents (c : N) (e : Z) : N :=
  half_up (c * pow10 (e + 2)) (pow10 (- (e + 2))).

(** The cents of [c * 10 ^ e / 1.95583], rounded half up: of the quotient
    itself, not of a quotient cut to some precision. *)
Definition exact_eur_cents (c : N) (e : Z) : N :=
  half_up (c * pow10 (e + 7)) (195583 * pow10 (- (e + 7))).

(** * Facts about the decimal arithmetic *)

(** ** Powers of ten and digit counts *)

Lemma pow10_pos (k : Z) : (0 < pow10 k)%N.
Proof.
  unfold pow10. apply N.neq_0_lt_0, N.pow_nonzero. discriminate.
Qed.

Lemma pow10_nonpos (k : Z) : (k <= 0)%Z -> pow10 k = 1%N.
Proof.
  intros H. unfold pow10. replace (Z.to_N k) with 0%N by lia. reflexivity.
Qed.

Lemma pow10_add (a b : Z) :
  (0 <= a)%Z -> (0 <= b)%Z -> pow10 (a + b) = (pow10 a * pow10 b)%N.
Proof.
  intros Ha Hb. unfold pow10.
  rewrite Z2N.inj_add by assumption. apply N.pow_add_r.
Qed.

Lemma pow10_succ (k : Z) : (0 <= k)%Z -> pow10 (k + 1) = (10 * pow10 k)%N.
Proof.
  intros H. rewrite pow10_add by lia. change (pow10 1) with 10%N. lia.
Qed.

Lemma pow10_le (a b : Z) : (a <= b)%Z -> (pow10 a <= pow10 b)%N.
Proof.
  intros H. unfold pow10. apply N.pow_le_mono_r; [discriminate | lia].
Qed.

Lemma pow10_lt (a b : Z) : (0 <= a)%Z -> (a < b)%Z -> (pow10 a < pow10 b)%N.
Proof.
  intros Ha H. unfold pow10. apply N.pow_lt_mono_r; lia.
Qed.

Lemma ndigits_aux_spec (fuel : nat) :
  forall n : N, (n < 2 ^ N.of_nat fuel)%N -> (0 < n)%N ->
  (1 <= ndigits_aux fuel n)%Z /\
  (pow10 (ndigits_aux fuel n - 1) <= n < pow10 (ndigits_aux fuel n))%N.
Proof.
  induction fuel as [|fuel IH]; intros n Hlt Hpos.
  - simpl in Hlt. lia.
  - cbn [ndigits_aux]. destruct (N.ltb_spec n 10) as [Hs|Hs].
    + change (pow10 (1 - 1)) with 1%N. change (pow10 1) with 10%N. lia.
    + assert (Hq : (n / 10 < 2 ^ N.of_nat fuel)%N).
      { rewrite Nat2N.inj_succ, N.pow_succ_r' in Hlt.
        apply N.Div0.div_lt_upper_bound. lia. }
      assert (Hq0 : (0 < n / 10)%N).
      { apply N.div_str_pos. lia. }
      destruct (IH _ Hq Hq0) as (Hk & Hlo & Hhi).
      set (k := ndigits_aux fuel (n / 10)) in *.
      replace (1 + k - 1)%Z with ((k - 1) + 1)%Z by lia.
      replace (1 + k)%Z with (k + 1)%Z by lia.
      rewrite !pow10_succ by lia.
      pose proof (N.div_mod n 10 ltac:(discriminate)) as Hdm.
      pose proof (N.mod_lt n 10 ltac:(discriminate)) as Hm.
      clearbody k. clear IH Hlt Hq.
      generalize dependent (pow10 (k - 1)). generalize dependent (pow10 k).
      generalize dependent (n / 10)%N. generalize dependent (n mod 10)%N.
      intros; lia.
Qed.

Lemma ndigits_spec (n : N) :
  (0 < n)%N ->
  (1 <= ndigits n)%Z /\ (pow10 (ndigits n - 1) <= n < pow10 (ndigits n))%N.
Proof.
  intros Hpos. unfold ndigits. apply ndigits_aux_spec; [|assumption].
  rewrite N2Nat.id. apply N.size_gt.
Qed.

Lemma ndigits_pos (n : N) : (1 <= ndigits n)%Z.
Proof.
  destruct (N.eq_dec n 0) as [->|Hn]; [reflexivity|].
  apply ndigits_spec. lia.
Qed.

Lemma ndigits_unique (n : N) (k : Z) :
  (1 <= k)%Z -> (pow10 (k - 1) <= n < pow10 k)%N -> ndigits n = k.
Proof.
  intros Hk [Hlo Hhi].
  assert (Hpos : (0 < n)%N) by (pose proof (pow10_pos (k - 1)); lia).
  destruct (ndigits_spec n Hpos) as (Hd & Hdlo & Hdhi).
  destruct (Z.lt_trichotomy (ndigits n) k) as [Hc|[Hc|Hc]]; [|assumption|].
  - pose proof (pow10_le (ndigits n) (k - 1) ltac:(lia)). lia.
  - pose proof (pow10_le k (ndigits n - 1) ltac:(lia)). lia.
Qed.

Lemma ndigits_mul_pow10 (n : N) (k : Z) :
  (0 < n)%N -> (0 <= k)%Z -> ndigits (n * pow10 k) = (ndigits n + k)%Z.
Proof.
  intros Hpos Hk.
  destruct (ndigits_spec n Hpos) as (Hd & Hlo & Hhi).
  apply ndigits_unique; [lia|].
  replace (ndigits n + k - 1)%Z with ((ndigits n - 1) + k)%Z by lia.
  rewrite !pow10_add by lia.
  pose proof (pow10_pos k). nia.
Qed.

Lemma ndigits_lt_pow10 (n : N) (k : Z) :
  (1 <= k)%Z -> (n < pow10 k)%N -> (ndigits n <= k)%Z.
Proof.
  intros Hk Hlt.
  destruct (N.eq_dec n 0) as [->|Hn]; [exact Hk|].
  destruct (ndigits_spec n ltac:(lia)) as (Hd & Hlo & Hhi).
  destruct (Z.le_gt_cases (ndigits n) k) as [Hc|Hc]; [assumption|].
  pose proof (pow10_le k (ndigits n - 1) ltac:(lia)). lia.
Qed.

Lemma ndigits_lt_lt (a b : N) :
  (0 < a)%N -> (ndigits a < ndigits b)%Z -> (a < b)%N.
Proof.
  intros Ha Hlt.
  destruct (ndigits_spec a Ha) as (Hda & _ & Hahi).
  assert (Hb : (0 < b)%N).
  { destruct (N.eq_dec b 0) as [->|]; [|lia]. change (ndigits 0) with 1%Z in Hlt. lia. }
  destruct (ndigits_spec b Hb) as (_ & Hblo & _).
  pose proof (pow10_le (ndigits a) (ndigits b - 1) ltac:(lia)). lia.
Qed.

(** ** Rounding to the context *)

Ltac unfold_context := unfold Etop, Etiny, Emax, Emin, prec in *.

Lemma dec_fix_two_places (s : bool) (c : N) :
  (ndigits c <= prec)%Z -> dec_fix (Finite s c (-2)) = Ok (Finite s c (-2)).
Proof.
  intros Hn. pose proof (ndigits_pos c) as Hp. unfold dec_fix.
  destruct (N.eqb_spec c 0) as [->|Hc]; [reflexivity|].
  destruct (Z.ltb_spec Etop (ndigits c + -2 - prec)) as [|_]; [unfold_context; lia|].
  destruct (Z.ltb_spec (ndigits c + -2 - prec) Etiny) as [|_]; [unfold_context; lia|].
  destruct (Z.ltb_spec (-2) (ndigits c + -2 - prec)) as [|_]; [lia|reflexivity].
Qed.

Lemma dec_fix_zero (s : bool) (e : Z) :
  dec_fix (Finite s 0 e) = Ok (Finite s 0 (Z.min (Z.max e Etiny) Emax)).
Proof. reflexivity. Qed.

Lemma dec_fix_finite (s : bool) (c : N) (e : Z) (d : decimal) :
  dec_fix (Finite s c e) = Ok d -> exists c' e', d = Finite s c' e'.
Proof.
  unfold dec_fix.
  repeat match goal with
         | |- context [if ?b then _ else _] => destruct b
         | |- context [let '(_, _) := ?p in _] => destruct p
         end; intros H; inversion H; eauto.
Qed.

(** A nonzero number that is neither subnormal nor at the top of the
    exponent range keeps its sign and stays nonzero. *)
Lemma dec_fix_nonzero (s : bool) (c : N) (e : Z) :
  c <> 0%N -> (Etiny <= e)%Z -> (ndigits c + e - prec < Etop)%Z ->
  exists c' e', dec_fix (Finite s c e) = Ok (Finite s c' e') /\ c' <> 0%N.
Proof.
  intros Hc He Htop. unfold dec_fix.
  destruct (N.eqb_spec c 0) as [|_]; [contradiction|].
  destruct (Z.ltb_spec Etop (ndigits c + e - prec)) as [|_]; [lia|].
  destruct (Z.ltb_spec (ndigits c + e - prec) Etiny) as [Hsub|Hsub].
  - destruct (Z.ltb_spec e Etiny) as [|_]; [lia|]. eauto.
  - destruct (Z.ltb_spec e (ndigits c + e - prec)) as [Hr|Hr]; [|eauto].
    replace (ndigits c + e - (ndigits c + e - prec))%Z with prec by lia.
    change (prec <? 0)%Z with false. cbv iota beta.
    assert (Hpre : (pow10 27 <= prefix c prec)%N).
    { unfold prefix. destruct (ndigits_spec c ltac:(lia)) as (_ & Hlo & _).
      replace (ndigits c - 1)%Z with ((ndigits c - prec) + 27)%Z in Hlo
        by (unfold prec; lia).
      rewrite pow10_add in Hlo by (unfold prec in *; lia).
      apply N.div_le_lower_bound.
      - pose proof (pow10_pos (ndigits c - prec)). lia.
      - lia. }
    assert (H10 : (10 <= pow10 27)%N) by (vm_compute; discriminate).
    set (coeff := prefix c prec) in *. clearbody coeff.
    destruct (0 <? round_half_even c prec)%Z.
    + destruct (prec <? ndigits (coeff + 1))%Z.
      * destruct (Z.ltb_spec Etop (ndigits c + e - prec + 1)) as [|_]; [lia|].
        do 2 eexists. split; [reflexivity|].
        pose proof (N.div_str_pos (coeff + 1) 10 ltac:(lia)). lia.
      * destruct (Z.ltb_spec Etop (ndigits c + e - prec)) as [|_]; [lia|].
        do 2 eexists. split; [reflexivity|]. lia.
    + destruct (Z.ltb_spec Etop (ndigits c + e - prec)) as [|_]; [lia|].
      do 2 eexists. split; [reflexivity|]. lia.
Qed.

(** ** [rescale] and [normalize] *)

Lemma rescale_finite (s : bool) (c : N) (e exp : Z) (r : rounding_mode) :
  exists c', rescale (Finite s c e) exp r = Finite s c' exp.
Proof.
  unfold rescale.
  destruct (c =? 0)%N; [eauto|].
  destruct (exp <=? e)%Z; [eauto|].
  destruct (ndigits c + e - exp <? 0)%Z; eauto.
Qed.

Lemma normalize_zero (s : bool) (e : Z) :
  normalize (Finite s 0 e) = Ok (Finite s 0 (-2)).
Proof. reflexivity. Qed.

Lemma normalize_nan (s : bool) (p : N) :
  normalize (NaN s p) = Ok (fix_nan (NaN s p)).
Proof. reflexivity. Qed.

Lemma fix_nan_qnan (s : bool) (p : N) : is_qnan (fix_nan (NaN s p)) = true.
Proof. unfold fix_nan. destruct (prec <? payload_len p)%Z; reflexivity. Qed.

Lemma normalize_finite (s : bool) (c : N) (e : Z) (d : decimal) :
  normalize (Finite s c e) = Ok d ->
  exists c', d = Finite s c' (-2) /\ (ndigits c' <= prec)%Z.
Proof.
  unfold normalize, quantize, TWO_PLACES. cbn [check_nans bind].
  change (negb ((Etiny <=? -2)%Z && (-2 <=? Emax)%Z)) with false. cbv iota.
  destruct (N.eqb_spec c 0) as [->|Hc].
  - rewrite dec_fix_zero. intros H; inversion H. exists 0%N. split; reflexivity || discriminate.
  - destruct (Emax <? adjusted c e)%Z; [discriminate|].
    destruct (prec <? adjusted c e - -2 + 1)%Z; [discriminate|].
    destruct (rescale_finite s c e (-2) ROUND_HALF_UP) as [c' ->].
    destruct (Emax <? adjusted c' (-2))%Z; [discriminate|].
    destruct (Z.ltb_spec prec (ndigits c')) as [|Hn]; [discriminate|].
    rewrite dec_fix_two_places by assumption.
    intros H; inversion H. eauto.
Qed.

(** The shape of what [normalize] returns. *)
Lemma normalize_shape (x d : decimal) :
  normalize x = Ok d ->
  (is_finite x = true /\ is_two_places d = true) \/
  (is_qnan x = true /\ is_qnan d = true).
Proof.
  destruct x as [s c e|s|s p|s p]; intros H.
  - left. split; [reflexivity|].
    destruct (normalize_finite _ _ _ _ H) as (c' & -> & Hn).
    cbn. apply Z.leb_le. assumption.
  - discriminate.
  - right. rewrite normalize_nan in H. inversion H. split; [reflexivity|].
    apply fix_nan_qnan.
  - discriminate.
Qed.

Lemma fix_nan_idempotent (d : decimal) : fix_nan (fix_nan d) = fix_nan d.
Proof.
  assert (Hlen : forall p, (prec <? payload_len (p mod pow10 prec)%N)%Z = false).
  { intros p. apply Z.ltb_ge. unfold payload_len.
    destruct (N.eqb_spec (p mod pow10 prec) 0) as [|Hp]; [unfold prec; lia|].
    apply ndigits_lt_pow10; [unfold prec; lia|].
    apply N.mod_lt. pose proof (pow10_pos prec). lia. }
  destruct d as [s c e|s|s p|s p]; cbn [fix_nan]; try reflexivity;
    destruct (prec <? payload_len p)%Z eqn:Hp; cbn [fix_nan];
    rewrite ?Hlen, ?Hp; reflexivity.
Qed.

Lemma is_two_places_inv (d : decimal) :
  is_two_places d = true ->
  exists s c, d = Finite s c (-2) /\ (ndigits c <= prec)%Z.
Proof.
  destruct d as [s c e| | |]; cbn; try discriminate.
  intros H. apply andb_true_iff in H. destruct H as [He Hn].
  apply Z.eqb_eq in He. apply Z.leb_le in Hn. subst. eauto.
Qed.

Lemma is_qnan_inv (d : decimal) : is_qnan d = true -> exists s p, d = NaN s p.
Proof. destruct d; cbn; try discriminate. eauto. Qed.

Lemma normalize_two_places (d : decimal) :
  is_two_places d = true -> normalize d = Ok d.
Proof.
  intros H. destruct (is_two_places_inv _ H) as (s & c & -> & Hn).
  unfold normalize, quantize, TWO_PLACES. cbn [check_nans bind].
  change (negb ((Etiny <=? -2)%Z && (-2 <=? Emax)%Z)) with false. cbv iota.
  pose proof (ndigits_pos c) as Hp.
  destruct (N.eqb_spec c 0) as [->|Hc]; [reflexivity|].
  unfold adjusted.
  destruct (Z.ltb_spec Emax (-2 + ndigits c - 1)) as [|_]; [unfold_context; lia|].
  destruct (Z.ltb_spec prec (-2 + ndigits c - 1 - -2 + 1)) as [|_]; [lia|].
  unfold rescale. destruct (N.eqb_spec c 0) as [|_]; [contradiction|].
  cbn [Z.leb Z.compare Pos.compare Pos.compare_cont CompOpp]. 
  change (pow10 (-2 - -2)) with 1%N. rewrite N.mul_1_r.
  destruct (Z.ltb_spec Emax (-2 + ndigits c - 1)) as [|_]; [unfold_context; lia|].
  destruct (Z.ltb_spec prec (ndigits c)) as [|_]; [lia|].
  apply dec_fix_two_places. assumption.
Qed.

(** Cutting [k] zeros off the end of a coefficient is exact. *)
Lemma round_half_up_exact (cc : N) (k digits : Z) :
  (1 <= k)%Z -> (ndigits (cc * pow10 k) - digits = k)%Z ->
  round_half_up (cc * pow10 k) digits = 0%Z /\ prefix (cc * pow10 k) digits = cc.
Proof.
  intros Hk Hd.
  pose proof (pow10_pos k) as Hpk. pose proof (pow10_pos (k - 1)) as Hpk1.
  unfold round_half_up, digit_at, all_zeros, prefix.
  replace (ndigits (cc * pow10 k) - digits - 1)%Z with (k - 1)%Z by lia.
  rewrite Hd.
  assert (Hdig : ((cc * pow10 k / pow10 (k - 1)) mod 10 = 0)%N).
  { replace k with ((k - 1) + 1)%Z at 1 by lia.
    rewrite pow10_succ by lia.
    replace (cc * (10 * pow10 (k - 1)))%N with (cc * 10 * pow10 (k - 1))%N by lia.
    rewrite N.div_mul by lia. apply N.Div0.mod_mul. }
  rewrite Hdig. cbn [N.leb N.compare].
  rewrite N.Div0.mod_mul, N.eqb_refl, N.div_mul by lia.
  split; reflexivity.
Qed.

(** A number equal to one with two places is normalized to it. *)
Lemma normalize_padded (s : bool) (ce cc : N) (e : Z) :
  ce <> 0%N -> cc <> 0%N -> (ndigits cc <= prec)%Z ->
  adjusted ce e = adjusted cc (-2) ->
  (ce * pow10 (e - -2) = cc * pow10 (-2 - e))%N ->
  normalize (Finite s ce e) = Ok (Finite s cc (-2)).
Proof.
  intros Hce Hcc Hn Hadj Hpad.
  pose proof (ndigits_pos cc) as Hp.
  unfold normalize, quantize, TWO_PLACES. cbn [check_nans bind].
  change (negb ((Etiny <=? -2)%Z && (-2 <=? Emax)%Z)) with false. cbv iota.
  destruct (N.eqb_spec ce 0) as [|_]; [contradiction|].
  rewrite Hadj. unfold adjusted in *.
  destruct (Z.ltb_spec Emax (-2 + ndigits cc - 1)) as [|_]; [unfold_context; lia|].
  destruct (Z.ltb_spec prec (-2 + ndigits cc - 1 - -2 + 1)) as [|_]; [lia|].
  assert (Hres : rescale (Finite s ce e) (-2) ROUND_HALF_UP = Finite s cc (-2)).
  { unfold rescale. destruct (N.eqb_spec ce 0) as [|_]; [contradiction|].
    destruct (Z.leb_spec (-2) e) as [Hle|Hlt].
    - rewrite (pow10_nonpos (-2 - e)) in Hpad by lia.
      rewrite Hpad, N.mul_1_r. reflexivity.
    - rewrite (pow10_nonpos (e - -2)), N.mul_1_r in Hpad by lia. subst ce.
      destruct (Z.ltb_spec (ndigits (cc * pow10 (-2 - e)) + e - -2) 0) as [|_]; [lia|].
      cbn [pick_rounding_function].
      destruct (round_half_up_exact cc (-2 - e)
                  (ndigits (cc * pow10 (-2 - e)) + e - -2)) as [-> ->]; [lia|lia|].
      reflexivity. }
  rewrite Hres.
  destruct (Z.ltb_spec Emax (-2 + ndigits cc - 1)) as [|_]; [unfold_context; lia|].
  destruct (Z.ltb_spec prec (ndigits cc)) as [|_]; [lia|].
  apply dec_fix_two_places. assumption.
Qed.

(** X12: [normalize] is idempotent: what it returns it returns again
    unchanged, a rounded number as well as a quiet NaN. *)
Lemma normalize_idempotent (x d : decimal) :
  normalize x = Ok d -> normalize d = Ok d.
Proof.
  intros H. destruct (normalize_shape _ _ H) as [[_ Hd]|[Hx _]].
  - apply normalize_two_places. assumption.
  - destruct (is_qnan_inv _ Hx) as (s & p & ->).
    rewrite normalize_nan in H.
    assert (Hd : d = fix_nan (NaN s p)) by congruence. subst d.
    destruct (is_qnan_inv _ (fix_nan_qnan s p)) as (s' & p' & Heq).
    rewrite Heq, normalize_nan, <- Heq, fix_nan_idempotent. reflexivity.
Qed.

(** ** Comparison *)

Lemma dec_eq_finite (s1 s2 : bool) (c1 c2 : N) (e1 e2 : Z) :
  dec_eq (Finite s1 c1 e1) (Finite s2 c2 e2)
  = Ok (cmp (Finite s1 c1 e1) (Finite s2 c2 e2) =? 0)%Z.
Proof. reflexivity. Qed.

Lemma dec_eq_finite_true (s1 s2 : bool) (c1 c2 : N) (e1 e2 : Z) :
  dec_eq (Finite s1 c1 e1) (Finite s2 c2 e2) = Ok true ->
  cmp (Finite s1 c1 e1) (Finite s2 c2 e2) = 0%Z.
Proof. rewrite dec_eq_finite. intros H. apply Z.eqb_eq. congruence. Qed.

Lemma dec_eq_true_two_places (x : decimal) (sc : bool) (cc : N) :
  (ndigits cc <= prec)%Z ->
  dec_eq x (Finite sc cc (-2)) = Ok true ->
  exists s', normalize x = Ok (Finite s' cc (-2)) /\ (cc <> 0%N -> s' = sc).
Proof.
  intros Hn Heq.
  destruct x as [se ce e|s|s p|s p]; try discriminate.
  2: { destruct s; discriminate. }
  apply dec_eq_finite_true in Heq. revert Heq. unfold cmp.
  destruct (N.eqb_spec ce 0) as [->|Hce].
  - destruct (N.eqb_spec cc 0) as [->|Hcc].
    + intros _. exists se. rewrite normalize_zero. split; [reflexivity|congruence].
    + destruct sc; discriminate.
  - destruct (N.eqb_spec cc 0) as [->|Hcc]; [destruct se; discriminate|].
    destruct (Bool.bool_dec se sc) as [->|Hs].
    2: { destruct se, sc; (congruence || discriminate). }
    replace (sc && negb sc) with false by (destruct sc; reflexivity).
    replace (negb sc && sc) with false by (destruct sc; reflexivity).
    destruct (Z.eqb_spec (adjusted ce e) (adjusted cc (-2))) as [Hadj|_].
    + destruct (N.eqb_spec (ce * pow10 (e - -2)) (cc * pow10 (-2 - e))) as [Hpad|_].
      * intros _. exists sc. split; [|reflexivity].
        apply normalize_padded; assumption.
      * destruct (_ <? _)%N, sc; discriminate.
    + destruct (_ <? _)%Z, sc; discriminate.
Qed.

Lemma dec_ne_same_value (s s' : bool) (c : N) :
  (c <> 0%N -> s' = s) -> dec_ne (Finite s c (-2)) (Finite s' c (-2)) = Ok false.
Proof.
  intros Hs. unfold dec_ne, dec_eq. cbn [check_nans bind]. unfold cmp.
  destruct (N.eqb_spec c 0) as [|Hc]; [reflexivity|].
  rewrite (Hs Hc).
  replace (s && negb s) with false by (destruct s; reflexivity).
  replace (negb s && s) with false by (destruct s; reflexivity).
  rewrite Z.eqb_refl, N.eqb_refl. reflexivity.
Qed.

Lemma Z_sgn_of (x : Z) :
  ((0 < x)%Z -> Z.sgn x = 1%Z) /\ ((x < 0)%Z -> Z.sgn x = (-1)%Z) /\
  (x = 0%Z -> Z.sgn x = 0%Z).
Proof. repeat split; intros; destruct x; (reflexivity || lia). Qed.

(** On numbers with two places [cmp] is the order of the signed
    coefficients. *)
Lemma cmp_two_places (s1 s2 : bool) (c1 c2 : N) :
  cmp (Finite s1 c1 (-2)) (Finite s2 c2 (-2))
  = Z.sgn (signed_coeff s1 c1 - signed_coeff s2 c2).
Proof.
  unfold cmp, signed_coeff, sgn.
  destruct (Z_sgn_of ((if s1 then - Z.of_N c1 else Z.of_N c1)
                      - (if s2 then - Z.of_N c2 else Z.of_N c2))) as (Hp & Hm & Hz).
  destruct (N.eqb_spec c1 0) as [->|Hc1].
  - destruct (N.eqb_spec c2 0) as [->|Hc2].
    + rewrite Hz; [reflexivity|destruct s1, s2; reflexivity].
    + destruct s2; [rewrite Hp|rewrite Hm]; (reflexivity || destruct s1; lia).
  - destruct (N.eqb_spec c2 0) as [->|Hc2].
    + destruct s1; [rewrite Hm|rewrite Hp]; (reflexivity || destruct s2; lia).
    + destruct s1, s2; cbn [andb negb];
        try (rewrite Hm by lia; reflexivity); try (rewrite Hp by lia; reflexivity).
      * unfold adjusted. change (pow10 (-2 - -2)) with 1%N. rewrite !N.mul_1_r.
        destruct (Z.eqb_spec (-2 + ndigits c1 - 1) (-2 + ndigits c2 - 1)) as [He|Hne].
        -- destruct (N.eqb_spec c1 c2) as [->|Hd]; [rewrite Hz; [reflexivity|lia]|].
           destruct (N.ltb_spec c1 c2); [rewrite Hp|rewrite Hm]; (reflexivity || lia).
        -- destruct (Z.ltb_spec (-2 + ndigits c2 - 1) (-2 + ndigits c1 - 1)) as [Hl|Hl].
           ++ pose proof (ndigits_lt_lt c2 c1 ltac:(lia) ltac:(lia)).
              rewrite Hm by lia. reflexivity.
           ++ pose proof (ndigits_lt_lt c1 c2 ltac:(lia) ltac:(lia)).
              rewrite Hp by lia. reflexivity.
      * unfold adjusted. change (pow10 (-2 - -2)) with 1%N. rewrite !N.mul_1_r.
        destruct (Z.eqb_spec (-2 + ndigits c1 - 1) (-2 + ndigits c2 - 1)) as [He|Hne].
        -- destruct (N.eqb_spec c1 c2) as [->|Hd]; [rewrite Hz; [reflexivity|lia]|].
           destruct (N.ltb_spec c1 c2); [rewrite Hm|rewrite Hp]; (reflexivity || lia).
        -- destruct (Z.ltb_spec (-2 + ndigits c2 - 1) (-2 + ndigits c1 - 1)) as [Hl|Hl].
           ++ pose proof (ndigits_lt_lt c2 c1 ltac:(lia) ltac:(lia)).
              rewrite Hp by lia. reflexivity.
           ++ pose proof (ndigits_lt_lt c1 c2 ltac:(lia) ltac:(lia)).
              rewrite Hm by lia. reflexivity.
Qed.

(** ** Subtraction of numbers with two places *)

Lemma normalize_ops_two_places (c1 c2 : N) :
  normalize_ops (c1, (-2)%Z) (c2, (-2)%Z) prec = ((c1, (-2)%Z), (c2, (-2)%Z)).
Proof.
  unfold normalize_ops. change (-2 <? -2)%Z with false. cbv iota.
  pose proof (ndigits_pos c2) as Hp.
  destruct (Z.ltb_spec (ndigits c2 + -2 - 1)
              (-2 + Z.min (-1) (ndigits c1 - prec - 2))) as [Hlt|_]; [lia|].
  change (pow10 (-2 - -2)) with 1%N. rewrite N.mul_1_r. reflexivity.
Qed.

Lemma ndigits_le_mono (a b : N) : (a <= b)%N -> (ndigits a <= ndigits b)%Z.
Proof.
  intros Hle. pose proof (ndigits_pos b) as Hp.
  destruct (N.eq_dec b 0) as [->|Hb].
  - replace a with 0%N by lia. lia.
  - destruct (ndigits_spec b ltac:(lia)) as (_ & _ & Hhi).
    apply ndigits_lt_pow10; [assumption|lia].
Qed.

Lemma ndigits_sum (a b : N) :
  (ndigits a <= prec)%Z -> (ndigits b <= prec)%Z -> (ndigits (a + b) <= prec + 1)%Z.
Proof.
  intros Ha Hb.
  assert (Hlt : forall x, (ndigits x <= prec)%Z -> (x < pow10 prec)%N).
  { intros x Hx. destruct (N.eq_dec x 0) as [->|Hx0]; [apply pow10_pos|].
    destruct (ndigits_spec x ltac:(lia)) as (_ & _ & Hhi).
    pose proof (pow10_le (ndigits x) prec Hx). lia. }
  pose proof (Hlt a Ha). pose proof (Hlt b Hb).
  apply ndigits_lt_pow10; [unfold prec; lia|].
  rewrite pow10_succ by (unfold prec; lia). lia.
Qed.

(** The difference of two numbers with two places is computed without an
    exception and has the sign of the difference of their values. *)
Lemma sub_two_places (s1 s2 : bool) (c1 c2 : N) :
  (ndigits c1 <= prec)%Z -> (ndigits c2 <= prec)%Z ->
  exists sd cd ed,
    sub (Finite s1 c1 (-2)) (Finite s2 c2 (-2)) = Ok (Finite sd cd ed) /\
    ((signed_coeff s2 c2 < signed_coeff s1 c1)%Z -> sd = false /\ cd <> 0%N) /\
    ((signed_coeff s1 c1 < signed_coeff s2 c2)%Z -> sd = true /\ cd <> 0%N).
Proof.
  intros Hn1 Hn2.
  unfold sub. cbn [check_nans bind copy_negate].
  unfold add. cbn [check_nans bind].
  change (Z.min (-2) (-2)) with (-2)%Z.
  change (Z.max (-2) (-2 - prec - 1)) with (-2)%Z.
  unfold signed_coeff.
  destruct (N.eqb_spec c1 0) as [->|Hc1]; destruct (N.eqb_spec c2 0) as [->|Hc2];
    cbn [andb].
  - rewrite dec_fix_two_places by assumption.
    do 3 eexists. split; [reflexivity|]. destruct s1, s2; split; intros; lia.
  - unfold rescale. destruct (N.eqb_spec c2 0) as [|_]; [contradiction|].
    change (-2 <=? -2)%Z with true. cbv iota.
    change (pow10 (-2 - -2)) with 1%N. rewrite N.mul_1_r.
    rewrite dec_fix_two_places by assumption.
    do 3 eexists. split; [reflexivity|].
    destruct s1, s2; cbn [negb]; split; intros; (lia || (split; [reflexivity|assumption])).
  - unfold rescale. destruct (N.eqb_spec c1 0) as [|_]; [contradiction|].
    change (-2 <=? -2)%Z with true. cbv iota.
    change (pow10 (-2 - -2)) with 1%N. rewrite N.mul_1_r.
    rewrite dec_fix_two_places by assumption.
    do 3 eexists. split; [reflexivity|].
    destruct s1, s2; split; intros; (lia || (split; [reflexivity|assumption])).
  - rewrite normalize_ops_two_places.
    destruct (Bool.eqb s1 (negb s2)) eqn:Hsign; cbn [negb].
    + (* same signs after negation: the coefficients add up *)
      apply Bool.eqb_prop in Hsign.
      destruct (dec_fix_nonzero s1 (c1 + c2) (-2)) as (c' & e' & Hfix & Hnz).
      * lia.
      * unfold_context. lia.
      * pose proof (ndigits_sum c1 c2 Hn1 Hn2). unfold_context. lia.
      * rewrite Hfix. do 3 eexists. split; [reflexivity|].
        subst s1. destruct s2; cbn [negb]; split; intros;
          (lia || (split; [reflexivity|assumption])).
    + (* opposite signs: the smaller coefficient is taken off the larger *)
      assert (Hs : s1 = s2) by (destruct s1, s2; (reflexivity || discriminate)).
      subst s2.
      destruct (N.eqb_spec c1 c2) as [->|Hd].
      * rewrite dec_fix_two_places by (unfold prec; cbn; lia).
        do 3 eexists. split; [reflexivity|]. split; intros; lia.
      * destruct (N.ltb_spec c1 c2) as [Hlt|Hge].
        -- pose proof (ndigits_le_mono (c2 - c1) c2 ltac:(lia)).
           rewrite dec_fix_two_places by lia.
           do 3 eexists. split; [reflexivity|].
           destruct s1; cbn [negb]; split; intros; (lia || (split; [reflexivity|lia])).
        -- pose proof (ndigits_le_mono (c1 - c2) c1 ltac:(lia)).
           rewrite dec_fix_two_places by lia.
           do 3 eexists. split; [reflexivity|].
           destruct s1; split; intros; (lia || (split; [reflexivity|lia])).
Qed.

(** The difference [main] takes of the two amounts of a mismatch. *)
Lemma sub_normalized (c g : decimal) :
  (is_two_places c || is_qnan c = true) ->
  (is_two_places g || is_qnan g = true) ->
  exists d, sub c g = Ok d.
Proof.
  intros Hc Hg.
  apply orb_true_iff in Hc. apply orb_true_iff in Hg.
  destruct Hc as [Hc|Hc].
  - destruct (is_two_places_inv _ Hc) as (s1 & c1 & -> & Hn1).
    destruct Hg as [Hg|Hg].
    + destruct (is_two_places_inv _ Hg) as (s2 & c2 & -> & Hn2).
      destruct (sub_two_places s1 s2 c1 c2 Hn1 Hn2) as (sd & cd & ed & H & _).
      eauto.
    + destruct (is_qnan_inv _ Hg) as (s & p & ->). eexists. reflexivity.
  - destruct (is_qnan_inv _ Hc) as (s & p & ->).
    destruct Hg as [Hg|Hg].
    + destruct (is_two_places_inv _ Hg) as (s2 & c2 & -> & _). eexists. reflexivity.
    + destruct (is_qnan_inv _ Hg) as (s2 & p2 & ->). eexists. reflexivity.
Qed.

(** * The comparator *)

Lemma verify_row_body_some (bgn : decimal) (eur_val : option decimal) :
  verify_row_body (Some bgn) eur_val =
  (normalized_calc_eur <- expected_eur bgn ;;
   match eur_val with
   | Some eur =>
       eur_price_normalized <- normalize eur ;;
       differ <- dec_ne normalized_calc_eur eur_price_normalized ;;
       if differ
       then Ok (true, Some normalized_calc_eur, Some eur_price_normalized)
       else Ok (false, Some normalized_calc_eur, None)
   | None => Ok (false, Some normalized_calc_eur, None)
   end).
Proof.
  unfold verify_row_body, expected_eur.
  destruct (truediv bgn BGN_TO_EUR_DIVISOR); reflexivity.
Qed.

(** What the expected amount can be: two places for a finite BGN amount,
    a quiet NaN for a quiet NaN. *)
Lemma expected_eur_shape (bgn c : decimal) :
  expected_eur bgn = Ok c ->
  (is_finite bgn = true /\ is_two_places c = true) \/
  (is_qnan bgn = true /\ is_qnan c = true).
Proof.
  unfold expected_eur. intros H.
  destruct (truediv bgn BGN_TO_EUR_DIVISOR) as [q|] eqn:Hq; [|discriminate].
  cbn [bind] in H.
  destruct bgn as [s c0 e|s|s p|s p].
  - left. split; [reflexivity|].
    assert (Hfin : is_finite q = true).
    { revert Hq. unfold truediv, BGN_TO_EUR_DIVISOR. cbn [check_nans bind].
      change (195583 =? 0)%N with false. cbv iota.
      repeat match goal with
             | |- context [if ?b then _ else _] => destruct b
             | |- context [let '(_, _) := ?p in _] => destruct p
             end;
        intros Hfix; apply dec_fix_finite in Hfix;
        destruct Hfix as (c' & e' & ->); reflexivity. }
    destruct (normalize_shape _ _ H) as [[_ Hc]|[Hx _]]; [assumption|].
    destruct q; discriminate.
  - injection Hq as <-. discriminate.
  - right. split; [reflexivity|].
    assert (Hnan : is_qnan q = true).
    { injection Hq as <-. apply fix_nan_qnan. }
    destruct (normalize_shape _ _ H) as [[Hx _]|[_ Hc]]; [|assumption].
    destruct q; discriminate.
  - discriminate.
Qed.

Lemma normalized_or_nan (x d : decimal) :
  normalize x = Ok d -> is_two_places d || is_qnan d = true.
Proof.
  intros H. destruct (normalize_shape _ _ H) as [[_ ->]|[_ ->]];
    [reflexivity|apply orb_true_r].
Qed.

Lemma expected_or_nan (bgn c : decimal) :
  expected_eur bgn = Ok c -> is_two_places c || is_qnan c = true.
Proof.
  intros H. destruct (expected_eur_shape _ _ H) as [[_ ->]|[_ ->]];
    [reflexivity|apply orb_true_r].
Qed.

(** A reported mismatch comes from the comparison of two amounts. *)
Lemma verify_row_true_inv (bgn_val eur_val calc given : option decimal) :
  verify_row bgn_val eur_val = (true, calc, given) ->
  exists bgn eur c g,
    bgn_val = Some bgn /\ eur_val = Some eur /\ calc = Some c /\ given = Some g /\
    expected_eur bgn = Ok c /\ normalize eur = Ok g /\ dec_ne c g = Ok true.
Proof.
  unfold verify_row. destruct bgn_val as [bgn|]; [|discriminate].
  rewrite verify_row_body_some.
  destruct (expected_eur bgn) as [c|] eqn:Hc; [|discriminate]. cbn [bind].
  destruct eur_val as [eur|]; [|discriminate].
  destruct (normalize eur) as [g|] eqn:Hg; [|discriminate]. cbn [bind].
  destruct (dec_ne c g) as [[|]|] eqn:Hne; cbn [bind]; try discriminate.
  intros H. injection H as <- <-.
  exists bgn, eur, c, g. repeat split; assumption.
Qed.

Lemma verify_row_unequal (bgn eur c g : decimal) :
  expected_eur bgn = Ok c -> normalize eur = Ok g -> dec_ne c g = Ok true ->
  verify_row (Some bgn) (Some eur) = (true, Some c, Some g).
Proof.
  intros Hc Hg Hne. unfold verify_row. rewrite verify_row_body_some.
  rewrite Hc. cbn [bind]. rewrite Hg. cbn [bind]. rewrite Hne. reflexivity.
Qed.

Lemma verify_row_equal (bgn eur c g : decimal) :
  expected_eur bgn = Ok c -> normalize eur = Ok g -> dec_ne c g = Ok false ->
  verify_row (Some bgn) (Some eur) = (false, Some c, None).
Proof.
  intros Hc Hg Hne. unfold verify_row. rewrite verify_row_body_some.
  rewrite Hc. cbn [bind]. rewrite Hg. cbn [bind]. rewrite Hne. reflexivity.
Qed.

Lemma verify_row_no_eur (bgn_val : option decimal) :
  exists calc, verify_row bgn_val None = (false, calc, None).
Proof.
  unfold verify_row. destruct bgn_val as [bgn|]; [|eexists; reflexivity].
  rewrite verify_row_body_some.
  destruct (expected_eur bgn); eexists; reflexivity.
Qed.

(** ** The parser never raises *)

Lemma of_string_raise (value : string) (e : exn) :
  of_string value = Raise e -> e = InvalidOperation.
Proof.
  unfold of_string.
  repeat match goal with
         | |- context [let '(_, _) := ?p in _] => destruct p
         | |- context [match ?x with _ => _ end] => destruct x
         end; intros H; congruence.
Qed.

Lemma parse_decimal_total (number_str : CellValue) :
  exists v, parse_decimal number_str = Ok v.
Proof.
  unfold parse_decimal.
  destruct number_str; [eexists; reflexivity| | | | |];
    match goal with
    | |- context [of_string ?s] =>
        destruct (of_string s) as [d|e] eqn:H;
        [|rewrite (of_string_raise _ _ H)]; eexists; reflexivity
    end.
Qed.

(** ** One step of the processing loop *)

Lemma mismatch_record_ok (r : nat) (col_name : string) (bgn_val : option decimal)
  (c g d : decimal) :
  sub c g = Ok d ->
  mismatch_record r col_name bgn_val (Some c) (Some g) =
  Ok {| Row := r; Column := col_name; Source_BGN := py_format bgn_val;
        Calculated_EUR := to_str c; File_EUR := to_str g; Diff := to_str d |}.
Proof. intros H. unfold mismatch_record, py_sub. rewrite H. reflexivity. Qed.

Lemma check_cell_total (bgn_ws eur_ws : Worksheet) (r : nat) (col_name : string)
  (b_idx e_idx : nat) :
  1 <= r -> 1 <= b_idx -> 1 <= e_idx ->
  exists found, check_cell bgn_ws eur_ws r col_name b_idx e_idx = Ok found.
Proof.
  intros Hr Hb He. unfold check_cell.
  destruct r as [|r]; [lia|]. destruct b_idx as [|b]; [lia|].
  destruct e_idx as [|e]; [lia|]. cbn [cell_value bind].
  destruct (parse_decimal_total (nth b (nth r bgn_ws []) CNone)) as [bv ->].
  destruct (parse_decimal_total (nth e (nth r eur_ws []) CNone)) as [ev ->].
  cbn [bind].
  destruct (verify_row bv ev) as [[[|] calc] given] eqn:Hv; [|eexists; reflexivity].
  destruct (verify_row_true_inv _ _ _ _ Hv)
    as (bgn & eur & c & g & -> & -> & -> & -> & Hc & Hg & _).
  destruct (sub_normalized c g (expected_or_nan _ _ Hc) (normalized_or_nan _ _ Hg))
    as [d Hd].
  rewrite (mismatch_record_ok _ _ _ _ _ _ Hd). eexists. reflexivity.
Qed.

(** A record comes from a mismatch of the two cells it names. *)
Lemma check_cell_record (bgn_ws eur_ws : Worksheet) (r : nat) (col_name : string)
  (b_idx e_idx : nat) (m : Mismatch) :
  check_cell bgn_ws eur_ws r col_name b_idx e_idx = Ok (Some m) ->
  Row m = r /\ Column m = col_name /\
  exists bgn_cell eur_cell bgn_val eur_val calc given,
    cell_value bgn_ws r b_idx = Ok bgn_cell /\
    cell_value eur_ws r e_idx = Ok eur_cell /\
    parse_decimal bgn_cell = Ok bgn_val /\
    parse_decimal eur_cell = Ok eur_val /\
    verify_row bgn_val eur_val = (true, calc, given).
Proof.
  unfold check_cell.
  destruct (cell_value bgn_ws r b_idx) as [bc|] eqn:Hbc; [|discriminate].
  destruct (cell_value eur_ws r e_idx) as [ec|] eqn:Hec; [|discriminate].
  cbn [bind].
  destruct (parse_decimal bc) as [bv|] eqn:Hbv; [|discriminate].
  destruct (parse_decimal ec) as [ev|] eqn:Hev; [|discriminate].
  cbn [bind].
  destruct (verify_row bv ev) as [[[|] calc] given] eqn:Hv; [|discriminate].
  unfold mismatch_record.
  destruct (py_sub calc given) as [d|]; [|discriminate]. cbn [bind].
  intros H. injection H as <-. cbn [Row Column].
  split; [reflexivity|]. split; [reflexivity|].
  exists bc, ec, bv, ev, calc, given. repeat split; assumption.
Qed.

(** No record when either parsed value is None. *)
Lemma check_cell_absent (bgn_ws eur_ws : Worksheet) (r : nat) (col_name : string)
  (b_idx e_idx : nat) (bgn_cell eur_cell : CellValue)
  (bgn_val eur_val : option decimal) :
  cell_value bgn_ws r b_idx = Ok bgn_cell ->
  cell_value eur_ws r e_idx = Ok eur_cell ->
  parse_decimal bgn_cell = Ok bgn_val ->
  parse_decimal eur_cell = Ok eur_val ->
  bgn_val = None \/ eur_val = None ->
  check_cell bgn_ws eur_ws r col_name b_idx e_idx = Ok None.
Proof.
  intros Hbc Hec Hbv Hev Habs. unfold check_cell.
  rewrite Hbc, Hec. cbn [bind]. rewrite Hbv, Hev. cbn [bind].
  destruct Habs as [->| ->].
  - reflexivity.
  - destruct (verify_row_no_eur bgn_val) as [calc ->]. reflexivity.
Qed.

(** * The verification run *)

(** ** Headers and the column map *)

Lemma find_header_none (cells : list CellValue) (column : nat) (target : string) :
  find_header cells column target = None <->
  existsb (fun value => truthy value && (py_strip (py_str value) =? target)%string)
          cells = false.
Proof.
  revert column. induction cells as [|value rest IH]; intros column; cbn.
  - split; reflexivity.
  - destruct (truthy value && (py_strip (py_str value) =? target)%string); cbn.
    + split; discriminate.
    + apply IH.
Qed.

Lemma find_header_ge (cells : list CellValue) (column : nat) (target : string) (i : nat) :
  find_header cells column target = Some i -> column <= i.
Proof.
  revert column. induction cells as [|value rest IH]; intros column; cbn.
  - discriminate.
  - destruct (truthy value && (py_strip (py_str value) =? target)%string).
    + intros H. injection H as <-. lia.
    + intros H. apply IH in H. lia.
Qed.

Lemma get_column_index_none (sheet : Worksheet) (column_name : string) :
  get_column_index sheet column_name = None <-> header_has sheet column_name = false.
Proof. unfold get_column_index, header_has. apply find_header_none. Qed.

Lemma get_column_index_ge (sheet : Worksheet) (column_name : string) (i : nat) :
  get_column_index sheet column_name = Some i -> 1 <= i.
Proof. unfold get_column_index. apply find_header_ge. Qed.

Lemma dict_set_in {V : Type} (d : list (string * V)) (k k' : string) (v v' : V) :
  In (k', v') (dict_set d k v) -> (k' = k /\ v' = v) \/ In (k', v') d.
Proof.
  induction d as [|[k0 v0] rest IH]; cbn.
  - intros [H|[]]. left. split; congruence.
  - destruct (k0 =? k)%string.
    + intros [H|H]; [left; split; congruence|right; right; assumption].
    + intros [H|H]; [right; left; assumption|].
      destruct (IH H) as [Hk|Hin]; [left; assumption|right; right; assumption].
Qed.

(** Every entry of the column map was found in both headers. *)
Lemma map_columns_in (bgn_ws eur_ws : Worksheet) (selected_columns : list string) :
  forall (column_map : list (string * (nat * nat))) (col_name : string) (b e : nat),
  In (col_name, (b, e)) (map_columns bgn_ws eur_ws selected_columns column_map) ->
  In (col_name, (b, e)) column_map \/
  (In col_name selected_columns /\
   get_column_index bgn_ws col_name = Some b /\
   get_column_index eur_ws col_name = Some e).
Proof.
  induction selected_columns as [|name rest IH]; intros column_map col_name b e; cbn.
  - intros H. left. assumption.
  - intros H. apply IH in H. destruct H as [H|(Hin & Hb & He)].
    + destruct (get_column_index bgn_ws name) as [b0|] eqn:Hb0;
        [|left; assumption].
      destruct (get_column_index eur_ws name) as [e0|] eqn:He0;
        [|rewrite andb_false_r in H; left; assumption].
      destruct (truthy_index (Some b0) && truthy_index (Some e0)); [|left; assumption].
      apply dict_set_in in H. destruct H as [[-> Hv]|H]; [|left; assumption].
      injection Hv as -> ->. right. repeat split; (assumption || left; reflexivity).
    + right. repeat split; (assumption || right; assumption).
Qed.

Lemma main_column_map (bgn_ws eur_ws : Worksheet) (selected_columns : list string)
  (col_name : string) (b e : nat) :
  In (col_name, (b, e)) (map_columns bgn_ws eur_ws selected_columns []) ->
  get_column_index bgn_ws col_name = Some b /\
  get_column_index eur_ws col_name = Some e /\ 1 <= b /\ 1 <= e.
Proof.
  intros H. apply map_columns_in in H. destruct H as [[]|(_ & Hb & He)].
  repeat split; try assumption; eapply get_column_index_ge; eassumption.
Qed.

(** ** Rows and cells *)

Lemma rows_to_check_in (bgn_ws eur_ws : Worksheet) (r : nat) :
  In r (rows_to_check bgn_ws eur_ws) <->
  2 <= r <= Nat.max (max_row bgn_ws) (max_row eur_ws).
Proof.
  unfold rows_to_check, range. rewrite in_seq. unfold max_row. lia.
Qed.

Lemma cell_value_beyond (sheet : Worksheet) (row column : nat) :
  max_row sheet < row -> 1 <= column -> cell_value sheet row column = Ok CNone.
Proof.
  unfold max_row. intros Hr Hc.
  destruct row as [|r]; [lia|]. destruct column as [|c]; [lia|].
  cbn [cell_value]. rewrite (nth_overflow sheet) by lia.
  destruct c; reflexivity.
Qed.

(** ** The loops *)

Section Run.

Variables bgn_ws eur_ws : Worksheet.

Lemma check_columns_spec (r : nat)
  (items : list (string * (nat * nat))) :
  forall mismatches out : list Mismatch,
  check_columns bgn_ws eur_ws r items mismatches = Ok out ->
  exists new, out = (mismatches ++ new)%list /\
    forall m, In m new ->
      exists col_name b e, In (col_name, (b, e)) items /\
        check_cell bgn_ws eur_ws r col_name b e = Ok (Some m).
Proof.
  induction items as [|[col_name [b e]] rest IH]; intros mismatches out; cbn.
  - intros H. injection H as <-. exists []. rewrite app_nil_r.
    split; [reflexivity|intros m []].
  - destruct (check_cell bgn_ws eur_ws r col_name b e) as [found|] eqn:Hcell;
      [|discriminate]. cbn [bind].
    intros H. apply IH in H. destruct H as (new & -> & Hnew).
    destruct found as [m0|].
    + exists (m0 :: new). rewrite <- app_assoc. split; [reflexivity|].
      intros m [<-|Hin].
      * exists col_name, b, e. split; [left; reflexivity|assumption].
      * destruct (Hnew m Hin) as (c' & b' & e' & Hi & Hc).
        exists c', b', e'. split; [right; assumption|assumption].
    + exists new. split; [reflexivity|].
      intros m Hin. destruct (Hnew m Hin) as (c' & b' & e' & Hi & Hc).
      exists c', b', e'. split; [right; assumption|assumption].
Qed.

Lemma check_columns_total (r : nat)
  (items : list (string * (nat * nat))) :
  1 <= r ->
  (forall col_name b e, In (col_name, (b, e)) items -> 1 <= b /\ 1 <= e) ->
  forall mismatches, exists out,
    check_columns bgn_ws eur_ws r items mismatches = Ok out.
Proof.
  intros Hr. induction items as [|[col_name [b e]] rest IH]; intros Hidx mismatches; cbn.
  - eexists. reflexivity.
  - destruct (Hidx col_name b e (or_introl Logic.eq_refl)) as [Hb He].
    destruct (check_cell_total bgn_ws eur_ws r col_name b e Hr Hb He) as [found ->].
    cbn [bind]. apply IH. intros c' b' e' Hin. apply (Hidx c' b' e'). right. assumption.
Qed.

Lemma check_rows_spec
  (column_map : list (string * (nat * nat))) (rows : list nat) :
  forall mismatches out : list Mismatch,
  check_rows bgn_ws eur_ws rows column_map mismatches = Ok out ->
  exists new, out = (mismatches ++ new)%list /\
    forall m, In m new ->
      exists r col_name b e, In r rows /\ In (col_name, (b, e)) column_map /\
        check_cell bgn_ws eur_ws r col_name b e = Ok (Some m).
Proof.
  induction rows as [|r rest IH]; intros mismatches out; cbn.
  - intros H. injection H as <-. exists []. rewrite app_nil_r.
    split; [reflexivity|intros m []].
  - destruct (check_columns bgn_ws eur_ws r column_map mismatches) as [mid|] eqn:Hcols;
      [|discriminate]. cbn [bind].
    apply check_columns_spec in Hcols. destruct Hcols as (new1 & -> & Hnew1).
    intros H. apply IH in H. destruct H as (new2 & -> & Hnew2).
    exists (new1 ++ new2)%list. rewrite app_assoc. split; [reflexivity|].
    intros m Hin. apply in_app_or in Hin. destruct Hin as [Hin|Hin].
    + destruct (Hnew1 m Hin) as (c' & b' & e' & Hi & Hc).
      exists r, c', b', e'. repeat split; (assumption || left; reflexivity).
    + destruct (Hnew2 m Hin) as (r' & c' & b' & e' & Hr & Hi & Hc).
      exists r', c', b', e'. repeat split; (assumption || right; assumption).
Qed.

Lemma check_rows_total
  (column_map : list (string * (nat * nat))) (rows : list nat) :
  (forall r, In r rows -> 1 <= r) ->
  (forall col_name b e, In (col_name, (b, e)) column_map -> 1 <= b /\ 1 <= e) ->
  forall mismatches, exists out,
    check_rows bgn_ws eur_ws rows column_map mismatches = Ok out.
Proof.
  intros Hrows Hidx. induction rows as [|r rest IH]; intros mismatches; cbn.
  - eexists. reflexivity.
  - destruct (check_columns_total r column_map
                (Hrows r (or_introl Logic.eq_refl)) Hidx mismatches) as [mid ->].
    cbn [bind]. apply IH. intros r' Hin. apply Hrows. right. assumption.
Qed.

(** The run never raises. *)
Lemma main_total (selected_columns : list string) :
  exists out, main bgn_ws eur_ws selected_columns = Ok out.
Proof.
  unfold main. destruct selected_columns as [|name rest]; [eexists; reflexivity|].
  destruct (check_rows_total
              (map_columns bgn_ws eur_ws (name :: rest) [])
              (rows_to_check bgn_ws eur_ws)) with (mismatches := @nil Mismatch)
    as [out Hout].
  - intros r Hr. apply rows_to_check_in in Hr. lia.
  - intros c b e Hin. apply main_column_map in Hin. tauto.
  - rewrite Hout. eexists. reflexivity.
Qed.

(** Every record of the run comes from a scanned row and a mapped column. *)
Lemma main_records (selected_columns : list string)
  (mismatches : list Mismatch) (m : Mismatch) :
  main bgn_ws eur_ws selected_columns = Ok (Some mismatches) ->
  In m mismatches ->
  exists b e,
    In (Column m, (b, e)) (map_columns bgn_ws eur_ws selected_columns []) /\
    In (Row m) (rows_to_check bgn_ws eur_ws) /\
    check_cell bgn_ws eur_ws (Row m) (Column m) b e = Ok (Some m).
Proof.
  unfold main. destruct selected_columns as [|name rest]; [discriminate|].
  destruct (check_rows bgn_ws eur_ws (rows_to_check bgn_ws eur_ws)
              (map_columns bgn_ws eur_ws (name :: rest) []) []) as [out|] eqn:Hrows;
    [|discriminate]. cbn [bind].
  intros H Hin. injection H as <-.
  apply check_rows_spec in Hrows. destruct Hrows as (new & -> & Hnew).
  cbn [app] in Hin. destruct (Hnew m Hin) as (r & c & b & e & Hr & Hc & Hcell).
  destruct (check_cell_record _ _ _ _ _ _ _ Hcell) as (HR & HC & _).
  rewrite HR, HC. exists b, e. repeat split; assumption.
Qed.

End Run.

(** * The run in closed form *)

(** ** The loops in closed form *)

Section Scan.

Variables bgn_ws eur_ws : Worksheet.

Lemma check_columns_exact (r : nat) (items : list (string * (nat * nat))) :
  1 <= r -> valid_items items ->
  forall mismatches,
    check_columns bgn_ws eur_ws r items mismatches
    = Ok (mismatches ++ flat_map (cell_records bgn_ws eur_ws r) items)%list.
Proof.
  intros Hr. induction items as [|[col_name [b e]] rest IH]; intros Hidx mismatches.
  - cbn. rewrite app_nil_r. reflexivity.
  - destruct (Hidx col_name b e (or_introl Logic.eq_refl)) as [Hb He].
    destruct (check_cell_total bgn_ws eur_ws r col_name b e Hr Hb He) as [found Hf].
    cbn [check_columns flat_map cell_records]. rewrite Hf. cbn [bind].
    rewrite IH by (intros c' b' e' Hin; apply (Hidx c' b' e'); right; assumption).
    destruct found as [m|]; cbn [app]; [rewrite <- app_assoc|]; reflexivity.
Qed.

Lemma check_rows_exact (column_map : list (string * (nat * nat))) (rows : list nat) :
  (forall r, In r rows -> 1 <= r) -> valid_items column_map ->
  forall mismatches,
    check_rows bgn_ws eur_ws rows column_map mismatches
    = Ok (mismatches ++ scan bgn_ws eur_ws column_map rows)%list.
Proof.
  intros Hrows Hidx. induction rows as [|r rest IH]; intros mismatches.
  - cbn. rewrite app_nil_r. reflexivity.
  - cbn [check_rows scan flat_map].
    rewrite check_columns_exact
      by (try apply Hrows; try assumption; left; reflexivity).
    cbn [bind]. rewrite IH by (intros r' Hin; apply Hrows; right; assumption).
    rewrite <- app_assoc. reflexivity.
Qed.

Lemma main_valid_items (selected_columns : list string) :
  valid_items (map_columns bgn_ws eur_ws selected_columns []).
Proof.
  intros c b e Hin. apply main_column_map in Hin. tauto.
Qed.

Lemma rows_to_check_ge (r : nat) : In r (rows_to_check bgn_ws eur_ws) -> 1 <= r.
Proof. intros H. apply rows_to_check_in in H. lia. Qed.

(** The report is the scan of the rows, and in each row of the mapped
    columns. *)
Lemma main_exact (selected_columns : list string) :
  selected_columns <> [] ->
  main bgn_ws eur_ws selected_columns
  = Ok (Some (scan bgn_ws eur_ws (map_columns bgn_ws eur_ws selected_columns [])
                (rows_to_check bgn_ws eur_ws))).
Proof.
  intros Hsel. unfold main. destruct selected_columns as [|name rest]; [congruence|].
  rewrite check_rows_exact; [reflexivity|apply rows_to_check_ge|apply main_valid_items].
Qed.

(** The loop with its events, over the rows from [i + 2] on. *)
Lemma check_rows_events_exact (total_rows : nat)
  (column_map : list (string * (nat * nat))) (n : nat) :
  valid_items column_map ->
  forall i mismatches events,
    check_rows_events bgn_ws eur_ws i total_rows (seq (i + 2) n) column_map
      mismatches events
    = Ok ((mismatches ++ scan bgn_ws eur_ws column_map (seq (i + 2) n))%list,
          (events ++ flat_map (fun j => if (j mod 100 =? 0)%nat
                                        then row_update total_rows j else [])
                       (seq i n))%list).
Proof.
  intros Hidx. induction n as [|n IH]; intros i mismatches events.
  - cbn. rewrite !app_nil_r. reflexivity.
  - cbn [seq check_rows_events scan flat_map].
    rewrite check_columns_exact by (assumption || lia). cbn [bind].
    change (S (i + 2)) with (S i + 2). rewrite IH.
    unfold scan. rewrite <- !app_assoc.
    destruct (i mod 100 =? 0)%nat; cbn [app]; rewrite <- ?app_assoc; reflexivity.
Qed.

End Scan.

Lemma hundredth_rows {A : Type} (f : nat -> list A) (n : nat) :
  flat_map (fun j => if (j mod 100 =? 0)%nat then f j else []) (seq 0 n)
  = flat_map (fun k => f (100 * k)) (seq 0 ((n + 99) / 100)).
Proof.
  induction n as [|n IH]; [reflexivity|].
  rewrite seq_S, flat_map_app, IH. cbn [flat_map]. rewrite app_nil_r, Nat.add_0_l.
  pose proof (Nat.div_mod_eq (n + 99) 100) as Hd.
  pose proof (Nat.mod_upper_bound (n + 99) 100 ltac:(lia)) as Hm.
  pose proof (Nat.div_mod_eq n 100) as Hd'.
  pose proof (Nat.mod_upper_bound n 100 ltac:(lia)) as Hm'.
  destruct (Nat.eqb_spec (n mod 100) 0) as [Hz|Hz].
  - assert (Hq : (n + 99) / 100 = n / 100).
    { symmetry. apply (Nat.div_unique (n + 99) 100 (n / 100) 99); lia. }
    assert (Hs : (S n + 99) / 100 = S ((n + 99) / 100)).
    { rewrite Hq. symmetry. apply (Nat.div_unique (S n + 99) 100 (S (n / 100)) 0); lia. }
    rewrite Hs, seq_S, flat_map_app. cbn [flat_map]. rewrite app_nil_r, Nat.add_0_l.
    replace (100 * ((n + 99) / 100)) with n by lia. reflexivity.
  - assert (Hs : (S n + 99) / 100 = (n + 99) / 100).
    { assert (Hq : (n + 99) / 100 = S (n / 100)).
      { symmetry. apply (Nat.div_unique (n + 99) 100 (S (n / 100)) (n mod 100 - 1)); lia. }
      rewrite Hq. symmetry.
      apply (Nat.div_unique (S n + 99) 100 (S (n / 100)) (n mod 100)); lia. }
    rewrite Hs, app_nil_r. reflexivity.
Qed.

Lemma rows_to_check_seq (bgn_ws eur_ws : Worksheet) :
  rows_to_check bgn_ws eur_ws
  = seq 2 (Nat.max (max_row bgn_ws) (max_row eur_ws) - 1).
Proof.
  unfold rows_to_check, range. f_equal. unfold max_row. lia.
Qed.

(** Everything the run shows. *)
Lemma main_events_exact (bgn_ws eur_ws : Worksheet) (selected_columns : list string) :
  selected_columns <> [] ->
  let total_rows := Nat.max (max_row bgn_ws) (max_row eur_ws) - 1 in
  main_events bgn_ws eur_ws selected_columns
  = Ok ([ShowProgress (Percent 0)]
        ++ flat_map (fun k => row_update total_rows (100 * k))
             (seq 0 ((total_rows + 99) / 100))
        ++ [ShowProgress (Percent 100); ShowStatus "Done."]
        ++ [result_event total_rows (List.length selected_columns)
              (scan bgn_ws eur_ws (map_columns bgn_ws eur_ws selected_columns [])
                 (rows_to_check bgn_ws eur_ws))])%list.
Proof.
  intros Hsel total_rows. unfold main_events.
  destruct selected_columns as [|name rest]; [congruence|].
  rewrite rows_to_check_seq. fold total_rows. rewrite length_seq.
  rewrite (check_rows_events_exact bgn_ws eur_ws total_rows _ total_rows
             (main_valid_items bgn_ws eur_ws (name :: rest)) 0).
  cbn [bind]. rewrite hundredth_rows. cbn [app]. unfold result_event.
  rewrite <- ?app_assoc. reflexivity.
Qed.

(** ** Whitespace around a name *)

Lemma lstrip_fixed (l : list ascii) :
  match l with
  | [] => True
  | a :: _ => is_space a = false
  end -> lstrip l = l.
Proof. destruct l as [|a t]; [reflexivity|]. cbn. intros ->. reflexivity. Qed.

Lemma lstrip_head (l : list ascii) :
  match lstrip l with
  | [] => True
  | a :: _ => is_space a = false
  end.
Proof.
  induction l as [|a t IH]; [exact I|]. cbn.
  destruct (is_space a) eqn:Ha; [exact IH|exact Ha].
Qed.

Lemma lstrip_suffix (l : list ascii) : exists pre, l = (pre ++ lstrip l)%list.
Proof.
  induction l as [|a t [pre IH]]; [exists []; reflexivity|]. cbn.
  destruct (is_space a); [|exists []; reflexivity].
  exists (a :: pre). cbn. f_equal. exact IH.
Qed.

Lemma strip_idempotent (l : list ascii) : strip (strip l) = strip l.
Proof.
  unfold strip.
  assert (Hfront : lstrip (rev (lstrip (rev (lstrip l))))
                   = rev (lstrip (rev (lstrip l)))).
  { apply lstrip_fixed.
    destruct (lstrip_suffix (rev (lstrip l))) as [pre Hpre].
    apply (f_equal (@rev ascii)) in Hpre. rewrite rev_involutive, rev_app_distr in Hpre.
    pose proof (lstrip_head l) as Hhead. rewrite Hpre in Hhead.
    destruct (rev (lstrip (rev (lstrip l)))) as [|a t]; [exact I|exact Hhead]. }
  rewrite Hfront, rev_involutive.
  rewrite (lstrip_fixed (lstrip (rev (lstrip l)))) by apply lstrip_head.
  reflexivity.
Qed.

Lemma py_strip_idempotent (s : string) : py_strip (py_strip s) = py_strip s.
Proof.
  unfold py_strip. rewrite list_ascii_of_string_of_list_ascii, strip_idempotent.
  reflexivity.
Qed.

(** ** The header lookup *)

Lemma find_header_some (cells : list CellValue) (target : string) :
  forall column i,
  find_header cells column target = Some i <->
  (column <= i /\
   exists value,
     nth_error cells (i - column) = Some value /\
     truthy value = true /\ py_strip (py_str value) = target /\
     forall j other, j < i - column -> nth_error cells j = Some other ->
                     truthy other && (py_strip (py_str other) =? target)%string = false).
Proof.
  induction cells as [|value rest IH]; intros column i; cbn [find_header].
  - split; [discriminate|]. intros (_ & v & Hv & _). destruct (i - column); discriminate.
  - destruct (truthy value && (py_strip (py_str value) =? target)%string) eqn:Hhit.
    + apply andb_true_iff in Hhit. destruct Hhit as [Ht He]. apply String.eqb_eq in He.
      split.
      * intros H. injection H as <-. split; [lia|]. exists value.
        rewrite Nat.sub_diag. repeat split; try assumption. intros j other Hj. lia.
      * intros (Hle & v & Hv & Htv & Hev & Hfirst).
        destruct (i - column) as [|d] eqn:Hd; [f_equal; lia|].
        specialize (Hfirst 0 value ltac:(lia) Logic.eq_refl).
        rewrite Ht, He, String.eqb_refl in Hfirst. discriminate.
    + rewrite IH. split.
      * intros (Hle & v & Hv & Htv & Hev & Hfirst). split; [lia|]. exists v.
        replace (i - column) with (S (i - S column)) by lia.
        repeat split; try assumption.
        intros [|j] other Hj Hother.
        -- injection Hother as <-. exact Hhit.
        -- apply (Hfirst j other); [lia|assumption].
      * intros (Hle & v & Hv & Htv & Hev & Hfirst).
        destruct (i - column) as [|d] eqn:Hd.
        -- injection Hv as <-. rewrite Htv, Hev, String.eqb_refl in Hhit. discriminate.
        -- split; [lia|]. exists v. replace (i - S column) with d by lia.
           repeat split; try assumption.
           intros j other Hj Hother. apply (Hfirst (S j) other); [lia|assumption].
Qed.

Lemma headers_in (sheet : Worksheet) (name : string) :
  In name (headers sheet) <->
  exists value, In value (header_row sheet) /\ truthy value = true /\
                py_strip (py_str value) = name.
Proof.
  unfold headers. rewrite in_map_iff. split.
  - intros (v & Hv & Hin). apply filter_In in Hin. destruct Hin as [Hin Ht].
    exists v. repeat split; assumption.
  - intros (v & Hin & Ht & Hv). exists v. split; [assumption|].
    apply filter_In. split; assumption.
Qed.

Lemma header_has_in (sheet : Worksheet) (name : string) :
  header_has sheet name = true <-> In (py_strip name) (headers sheet).
Proof.
  unfold header_has. rewrite existsb_exists, headers_in. split.
  - intros (v & Hin & H). apply andb_true_iff in H. destruct H as [Ht He].
    apply String.eqb_eq in He. exists v. repeat split; assumption.
  - intros (v & Hin & Ht & He). exists v. split; [assumption|].
    rewrite Ht, He, String.eqb_refl. reflexivity.
Qed.

Lemma get_column_index_some_iff (sheet : Worksheet) (name : string) :
  (exists i, get_column_index sheet name = Some i) <-> header_has sheet name = true.
Proof.
  pose proof (get_column_index_none sheet name) as Hnone.
  destruct (get_column_index sheet name) as [i|] eqn:Hget;
    destruct (header_has sheet name) eqn:Hhas.
  - split; [reflexivity|eauto].
  - destruct Hnone as [_ H]. discriminate (H Logic.eq_refl).
  - destruct Hnone as [H _]. discriminate (H Logic.eq_refl).
  - split; [intros [i H]; discriminate|discriminate].
Qed.

(** ** The column map *)

Lemma dict_set_keys {V : Type} (d : list (string * V)) (k : string) (v : V) :
  map fst (dict_set d k v)
  = if existsb (String.eqb k) (map fst d) then map fst d
    else (map fst d ++ [k])%list.
Proof.
  induction d as [|[k0 v0] rest IH]; [reflexivity|]. cbn.
  rewrite (String.eqb_sym k k0).
  destruct (String.eqb_spec k0 k) as [->|Hne]; cbn; [reflexivity|].
  rewrite IH. destruct (existsb (String.eqb k) (map fst rest)); reflexivity.
Qed.

Lemma dict_set_in_new {V : Type} (d : list (string * V)) (k : string) (v : V) :
  In (k, v) (dict_set d k v).
Proof.
  induction d as [|[k0 v0] rest IH]; cbn; [left; reflexivity|].
  destruct (k0 =? k)%string; [left; reflexivity|right; exact IH].
Qed.

Lemma dict_set_keeps {V : Type} (d : list (string * V)) (k k' : string) (v v' : V) :
  In (k', v') d -> k' <> k -> In (k', v') (dict_set d k v).
Proof.
  intros Hin Hne. induction d as [|[k0 v0] rest IH]; [contradiction|]. cbn.
  destruct (String.eqb_spec k0 k) as [->|Hk].
  - destruct Hin as [H|H]; [congruence|right; assumption].
  - destruct Hin as [H|H]; [left; assumption|right; apply IH; assumption].
Qed.

Lemma existsb_eqb_in (k : string) (l : list string) :
  existsb (String.eqb k) l = true <-> In k l.
Proof.
  rewrite existsb_exists. split.
  - intros (x & Hin & He). apply String.eqb_eq in He. subst. assumption.
  - intros Hin. exists k. split; [assumption|apply String.eqb_refl].
Qed.

Section ColumnMap.

Variables bgn_ws eur_ws : Worksheet.

Lemma map_columns_step (col_name : string) (rest : list string)
  (column_map : list (string * (nat * nat))) :
  map_columns bgn_ws eur_ws (col_name :: rest) column_map
  = map_columns bgn_ws eur_ws rest
      (match get_column_index bgn_ws col_name, get_column_index eur_ws col_name with
       | Some b, Some e => dict_set column_map col_name (b, e)
       | _, _ => column_map
       end).
Proof.
  cbn [map_columns].
  destruct (get_column_index bgn_ws col_name) as [b|] eqn:Hb; [|reflexivity].
  destruct (get_column_index eur_ws col_name) as [e|] eqn:He;
    [|rewrite andb_false_r; reflexivity].
  apply get_column_index_ge in Hb. apply get_column_index_ge in He.
  destruct b as [|b]; [lia|]. destruct e as [|e]; [lia|]. reflexivity.
Qed.

Lemma map_columns_keeps (selected_columns : list string) :
  forall column_map entry,
    consistent_map bgn_ws eur_ws column_map -> In entry column_map ->
    In entry (map_columns bgn_ws eur_ws selected_columns column_map).
Proof.
  induction selected_columns as [|name rest IH]; intros column_map entry Hcons Hin;
    [assumption|].
  rewrite map_columns_step.
  destruct (get_column_index bgn_ws name) as [b|] eqn:Hb; [|apply IH; assumption].
  destruct (get_column_index eur_ws name) as [e|] eqn:He; [|apply IH; assumption].
  apply IH.
  - intros c b' e' Hc. apply dict_set_in in Hc. destruct Hc as [[-> Hv]|Hc].
    + injection Hv as -> ->. split; assumption.
    + apply Hcons. assumption.
  - destruct entry as [c [b' e']]. destruct (String.eqb_spec c name) as [->|Hne].
    + destruct (Hcons _ _ _ Hin) as [Hb' He'].
      assert (b' = b) by congruence. assert (e' = e) by congruence. subst.
      apply dict_set_in_new.
    + apply dict_set_keeps; assumption.
Qed.

Lemma map_columns_complete (selected_columns : list string) (col_name : string)
  (b e : nat) :
  In col_name selected_columns ->
  get_column_index bgn_ws col_name = Some b ->
  get_column_index eur_ws col_name = Some e ->
  forall column_map, consistent_map bgn_ws eur_ws column_map ->
    In (col_name, (b, e)) (map_columns bgn_ws eur_ws selected_columns column_map).
Proof.
  intros Hin Hb He.
  induction selected_columns as [|name rest IH]; [contradiction|].
  intros column_map Hcons. rewrite map_columns_step.
  assert (Hstep : consistent_map bgn_ws eur_ws
            (match get_column_index bgn_ws name, get_column_index eur_ws name with
             | Some b0, Some e0 => dict_set column_map name (b0, e0)
             | _, _ => column_map
             end)).
  { destruct (get_column_index bgn_ws name) as [b0|] eqn:Hb0; [|assumption].
    destruct (get_column_index eur_ws name) as [e0|] eqn:He0; [|assumption].
    intros c b' e' Hc. apply dict_set_in in Hc. destruct Hc as [[-> Hv]|Hc].
    - injection Hv as -> ->. split; assumption.
    - apply Hcons. assumption. }
  destruct Hin as [->|Hin]; [|apply IH; assumption].
  apply map_columns_keeps; [assumption|].
  rewrite Hb, He. apply dict_set_in_new.
Qed.

Lemma map_columns_keys_nodup (selected_columns : list string) :
  forall column_map,
    NoDup (map fst column_map) ->
    NoDup (map fst (map_columns bgn_ws eur_ws selected_columns column_map)).
Proof.
  induction selected_columns as [|name rest IH]; intros column_map Hnd; [assumption|].
  rewrite map_columns_step. apply IH.
  destruct (get_column_index bgn_ws name) as [b|]; [|assumption].
  destruct (get_column_index eur_ws name) as [e|]; [|assumption].
  rewrite dict_set_keys.
  destruct (existsb (String.eqb name) (map fst column_map)) eqn:Hex; [assumption|].
  apply NoDup_app; [assumption|repeat constructor; intros []|].
  intros a Ha [<-|[]]. apply existsb_eqb_in in Ha. congruence.
Qed.

Lemma map_columns_keys_order (selected_columns : list string) :
  NoDup selected_columns ->
  forall column_map,
    (forall c, In c selected_columns -> ~ In c (map fst column_map)) ->
    map fst (map_columns bgn_ws eur_ws selected_columns column_map)
    = (map fst column_map ++ filter (resolved bgn_ws eur_ws) selected_columns)%list.
Proof.
  induction selected_columns as [|name rest IH]; intros Hnd column_map Hfresh.
  - cbn. rewrite app_nil_r. reflexivity.
  - apply NoDup_cons_iff in Hnd. destruct Hnd as [Hname Hnd].
    rewrite map_columns_step. cbn [filter]. unfold resolved at 1.
    destruct (get_column_index bgn_ws name) as [b|];
      [destruct (get_column_index eur_ws name) as [e|]|].
    + rewrite IH; [|assumption|].
      * rewrite dict_set_keys.
        destruct (existsb (String.eqb name) (map fst column_map)) eqn:Hex.
        -- apply existsb_eqb_in in Hex. destruct (Hfresh name (or_introl Logic.eq_refl) Hex).
        -- rewrite <- app_assoc. reflexivity.
      * intros c Hc. rewrite dict_set_keys.
        destruct (existsb (String.eqb name) (map fst column_map));
          [apply Hfresh; right; assumption|].
        intros Hin. apply in_app_or in Hin. destruct Hin as [Hin|[<-|[]]].
        -- apply (Hfresh c (or_intror Hc) Hin).
        -- contradiction.
    + apply IH; [assumption|]. intros c Hc. apply Hfresh. right. assumption.
    + apply IH; [assumption|]. intros c Hc. apply Hfresh. right. assumption.
Qed.

End ColumnMap.

Lemma consistent_nil (bgn_ws eur_ws : Worksheet) : consistent_map bgn_ws eur_ws [].
Proof. intros c b e []. Qed.

(** ** The records of a scan *)

Lemma cell_records_in (bgn_ws eur_ws : Worksheet) (r : nat)
  (item : string * (nat * nat)) (m : Mismatch) :
  In m (cell_records bgn_ws eur_ws r item) <->
  check_cell bgn_ws eur_ws r (fst item) (fst (snd item)) (snd (snd item)) = Ok (Some m).
Proof.
  destruct item as [col_name [b e]]. cbn [cell_records fst snd].
  destruct (check_cell bgn_ws eur_ws r col_name b e) as [[m0|]|]; cbn.
  - split; [intros [->|[]]; reflexivity|intros H; left; congruence].
  - split; [intros []|discriminate].
  - split; [intros []|discriminate].
Qed.

Lemma cell_records_key (bgn_ws eur_ws : Worksheet) (r : nat)
  (item : string * (nat * nat)) (m : Mismatch) :
  In m (cell_records bgn_ws eur_ws r item) -> record_key m = (r, fst item).
Proof.
  intros H. apply cell_records_in in H. apply check_cell_record in H.
  destruct H as (HR & HC & _). unfold record_key. congruence.
Qed.

Lemma scan_in (bgn_ws eur_ws : Worksheet) (column_map : list (string * (nat * nat)))
  (rows : list nat) (m : Mismatch) :
  In m (scan bgn_ws eur_ws column_map rows) <->
  exists r item, In r rows /\ In item column_map /\
                 In m (cell_records bgn_ws eur_ws r item).
Proof.
  unfold scan. rewrite in_flat_map. split.
  - intros (r & Hr & Hm). apply in_flat_map in Hm. destruct Hm as (item & Hi & Hm).
    exists r, item. repeat split; assumption.
  - intros (r & item & Hr & Hi & Hm). exists r. split; [assumption|].
    apply in_flat_map. exists item. split; assumption.
Qed.

Lemma StronglySorted_app_le (l1 l2 : list nat) :
  StronglySorted le l1 -> StronglySorted le l2 ->
  (forall a b, In a l1 -> In b l2 -> a <= b) ->
  StronglySorted le (l1 ++ l2).
Proof.
  intros H1 H2 Hle. induction l1 as [|a l1 IH]; [assumption|].
  apply StronglySorted_inv in H1. destruct H1 as [H1 Ha]. cbn. constructor.
  - apply IH; [assumption|]. intros x y Hx Hy. apply Hle; [right|]; assumption.
  - apply Forall_app. split; [assumption|].
    apply Forall_forall. intros y Hy. apply Hle; [left; reflexivity|assumption].
Qed.

Lemma StronglySorted_constant (r : nat) (l : list nat) :
  (forall a, In a l -> a = r) -> StronglySorted le l.
Proof.
  induction l as [|a l IH]; intros Hall; constructor.
  - apply IH. intros x Hx. apply Hall. right. assumption.
  - apply Forall_forall. intros x Hx.
    rewrite (Hall a (or_introl Logic.eq_refl)), (Hall x (or_intror Hx)). apply le_n.
Qed.

Lemma scan_rows_sorted (bgn_ws eur_ws : Worksheet)
  (column_map : list (string * (nat * nat))) (rows : list nat) :
  StronglySorted le rows ->
  StronglySorted le (map Row (scan bgn_ws eur_ws column_map rows)).
Proof.
  induction rows as [|r rest IH]; intros Hs; [constructor|].
  apply StronglySorted_inv in Hs. destruct Hs as [Hs Hr].
  change (scan bgn_ws eur_ws column_map (r :: rest))
    with (flat_map (cell_records bgn_ws eur_ws r) column_map
          ++ scan bgn_ws eur_ws column_map rest)%list.
  rewrite map_app.
  assert (Hblock : forall a,
             In a (map Row (flat_map (cell_records bgn_ws eur_ws r) column_map)) ->
             a = r).
  { intros a Ha. apply in_map_iff in Ha. destruct Ha as (m & <- & Hm).
    apply in_flat_map in Hm. destruct Hm as (item & _ & Hm).
    apply cell_records_key in Hm. unfold record_key in Hm. congruence. }
  apply StronglySorted_app_le.
  - apply (StronglySorted_constant r). assumption.
  - apply IH. assumption.
  - intros a b Ha Hb. rewrite (Hblock a Ha).
    apply in_map_iff in Hb. destruct Hb as (m & <- & Hm).
    apply scan_in in Hm. destruct Hm as (r' & item & Hr' & _ & Hm).
    apply cell_records_key in Hm. unfold record_key in Hm.
    rewrite Forall_forall in Hr. specialize (Hr r' Hr'). congruence.
Qed.

Lemma seq_sorted (start len : nat) : StronglySorted le (seq start len).
Proof.
  revert start. induction len as [|len IH]; intros start; constructor.
  - apply IH.
  - apply Forall_forall. intros x Hx. apply in_seq in Hx. lia.
Qed.

Lemma row_records_nodup (bgn_ws eur_ws : Worksheet) (r : nat)
  (column_map : list (string * (nat * nat))) :
  NoDup (map fst column_map) ->
  NoDup (map record_key (flat_map (cell_records bgn_ws eur_ws r) column_map)).
Proof.
  induction column_map as [|item rest IH]; intros Hnd; [constructor|].
  cbn [map] in Hnd. apply NoDup_cons_iff in Hnd. destruct Hnd as [Hfresh Hnd].
  cbn [flat_map]. rewrite map_app. apply NoDup_app.
  - pose proof (cell_records_key bgn_ws eur_ws r item) as Hkey.
    destruct item as [col_name [b e]]. cbn [cell_records] in *.
    destruct (check_cell bgn_ws eur_ws r col_name b e) as [[m0|]|];
      repeat constructor. intros [].
  - apply IH. assumption.
  - intros k Hk Hk'. apply in_map_iff in Hk. destruct Hk as (m & <- & Hm).
    apply cell_records_key in Hm.
    apply in_map_iff in Hk'. destruct Hk' as (m' & Heq & Hm').
    apply in_flat_map in Hm'. destruct Hm' as (item' & Hi' & Hm').
    apply cell_records_key in Hm'. apply Hfresh.
    apply in_map_iff. exists item'. split; [congruence|assumption].
Qed.

Lemma scan_nodup (bgn_ws eur_ws : Worksheet)
  (column_map : list (string * (nat * nat))) (rows : list nat) :
  NoDup rows -> NoDup (map fst column_map) ->
  NoDup (map record_key (scan bgn_ws eur_ws column_map rows)).
Proof.
  intros Hrows Hmap. induction rows as [|r rest IH]; [constructor|].
  apply NoDup_cons_iff in Hrows. destruct Hrows as [Hfresh Hrows].
  change (scan bgn_ws eur_ws column_map (r :: rest))
    with (flat_map (cell_records bgn_ws eur_ws r) column_map
          ++ scan bgn_ws eur_ws column_map rest)%list.
  rewrite map_app. apply NoDup_app.
  - apply row_records_nodup. assumption.
  - apply IH. assumption.
  - intros k Hk Hk'. apply in_map_iff in Hk. destruct Hk as (m & <- & Hm).
    apply in_flat_map in Hm. destruct Hm as (item & _ & Hm).
    apply cell_records_key in Hm.
    apply in_map_iff in Hk'. destruct Hk' as (m' & Heq & Hm').
    apply scan_in in Hm'. destruct Hm' as (r' & item' & Hr' & _ & Hm').
    apply cell_records_key in Hm'. apply Hfresh.
    assert (r' = r) by congruence. subst. assumption.
Qed.

Lemma main_some_selected (bgn_ws eur_ws : Worksheet) (selected_columns : list string)
  (mismatches : list Mismatch) :
  main bgn_ws eur_ws selected_columns = Ok (Some mismatches) ->
  mismatches = scan bgn_ws eur_ws (map_columns bgn_ws eur_ws selected_columns [])
                 (rows_to_check bgn_ws eur_ws).
Proof.
  intros H. destruct selected_columns as [|name rest]; [discriminate|].
  rewrite main_exact in H by discriminate. congruence.
Qed.

Lemma map_columns_unresolved (bgn_ws eur_ws : Worksheet) (selected_columns : list string) :
  (forall name, In name selected_columns ->
                header_has bgn_ws name = false \/ header_has eur_ws name = false) ->
  forall column_map, map_columns bgn_ws eur_ws selected_columns column_map = column_map.
Proof.
  induction selected_columns as [|name rest IH]; intros Hmiss column_map; [reflexivity|].
  rewrite map_columns_step.
  rewrite IH by (intros n Hn; apply Hmiss; right; assumption).
  destruct (Hmiss name (or_introl Logic.eq_refl)) as [H|H];
    apply get_column_index_none in H; rewrite H; [reflexivity|].
  destruct (get_column_index bgn_ws name); reflexivity.
Qed.

Lemma scan_no_columns (bgn_ws eur_ws : Worksheet) (rows : list nat) :
  scan bgn_ws eur_ws [] rows = [].
Proof. induction rows as [|r rest IH]; [reflexivity|exact IH]. Qed.

(** * Exact rounding *)

(** ** Rounding half up *)

Lemma half_up_unique (num den f : N) :
  (0 < den)%N ->
  (2 * den * f <= 2 * num + den)%N -> (2 * num + den < 2 * den * (f + 1))%N ->
  half_up num den = f.
Proof.
  intros Hden Hlo Hhi. unfold half_up. symmetry.
  apply (N.div_unique _ _ f (2 * num + den - 2 * den * f)); lia.
Qed.

Lemma half_up_spec (num den : N) :
  (0 < den)%N ->
  (2 * den * half_up num den <= 2 * num + den)%N /\
  (2 * num + den < 2 * den * (half_up num den + 1))%N.
Proof.
  intros Hden. unfold half_up.
  pose proof (N.div_mod (2 * num + den) (2 * den) ltac:(lia)) as Hdm.
  pose proof (N.mod_lt (2 * num + den) (2 * den) ltac:(lia)) as Hm.
  revert Hdm Hm.
  generalize ((2 * num + den) / (2 * den))%N, ((2 * num + den) mod (2 * den))%N.
  intros q r Hdm Hm. split; lia.
Qed.

(** The first digit cut off is 5 or more when the part cut off is a half
    or more. *)
Lemma digit_at_ge5 (c : N) (i k : Z) :
  (1 <= k)%Z -> (ndigits c - i = k)%Z ->
  (5 <=? digit_at c i)%N = (5 * pow10 (k - 1) <=? c mod pow10 k)%N.
Proof.
  intros Hk Hi. unfold digit_at.
  replace (ndigits c - i - 1)%Z with (k - 1)%Z by lia.
  replace (pow10 k) with (10 * pow10 (k - 1))%N
    by (rewrite <- pow10_succ by lia; f_equal; lia).
  pose proof (pow10_pos (k - 1)) as Hp.
  set (p1 := pow10 (k - 1)) in *. clearbody p1.
  pose proof (N.div_mod c (10 * p1) ltac:(lia)) as Hdm.
  pose proof (N.mod_lt c (10 * p1) ltac:(lia)) as Hm.
  set (q := (c / (10 * p1))%N) in *. set (r := (c mod (10 * p1))%N) in *.
  clearbody q r.
  pose proof (N.div_mod r p1 ltac:(lia)) as Hdm'.
  pose proof (N.mod_lt r p1 ltac:(lia)) as Hm'.
  set (d := (r / p1)%N) in *. set (r' := (r mod p1)%N) in *. clearbody d r'.
  assert (Hd : (d < 10)%N) by nia.
  assert (Hq : (c / p1 = 10 * q + d)%N).
  { symmetry. apply (N.div_unique _ _ _ r'); [assumption|]. nia. }
  rewrite Hq.
  assert (Hmod : ((10 * q + d) mod 10 = d)%N).
  { symmetry. apply (N.mod_unique _ _ q); [assumption|reflexivity]. }
  rewrite Hmod.
  destruct (N.leb_spec 5 d), (N.leb_spec (5 * p1) r); try reflexivity; nia.
Qed.

Lemma rescale_half_up (s : bool) (c : N) (e exp : Z) :
  c <> 0%N -> (e < exp)%Z ->
  rescale (Finite s c e) exp ROUND_HALF_UP
  = Finite s (half_up c (pow10 (exp - e))) exp.
Proof.
  intros Hc He. unfold rescale.
  destruct (N.eqb_spec c 0) as [|_]; [contradiction|].
  destruct (Z.leb_spec exp e) as [|_]; [lia|].
  cbv zeta.
  destruct (ndigits_spec c ltac:(lia)) as (Hnd & Hlo & Hhi).
  pose proof (pow10_pos (exp - e)) as Hp.
  destruct (Z.ltb_spec (ndigits c + e - exp) 0) as [Hneg|Hpos].
  - cbn [pick_rounding_function].
    change (round_half_up 1 0) with (-1)%Z. change (prefix 1 0) with 0%N.
    cbn [Z.eqb]. f_equal. symmetry. apply half_up_unique; [assumption|lia|].
    pose proof (pow10_le (ndigits c + 1) (exp - e) ltac:(lia)) as Hle.
    rewrite pow10_succ in Hle by lia. lia.
  - cbn [pick_rounding_function]. unfold round_half_up, prefix, all_zeros.
    rewrite (digit_at_ge5 c (ndigits c + e - exp) (exp - e)) by lia.
    replace (ndigits c - (ndigits c + e - exp))%Z with (exp - e)%Z by lia.
    pose proof (pow10_pos (exp - e - 1)) as Hp1.
    replace (pow10 (exp - e)) with (10 * pow10 (exp - e - 1))%N
      by (rewrite <- pow10_succ by lia; f_equal; lia).
    set (p1 := pow10 (exp - e - 1)) in *. clearbody p1.
    pose proof (N.div_mod c (10 * p1) ltac:(lia)) as Hdm.
    pose proof (N.mod_lt c (10 * p1) ltac:(lia)) as Hm.
    set (q := (c / (10 * p1))%N) in *. set (r := (c mod (10 * p1))%N) in *.
    clearbody q r. f_equal. symmetry.
    destruct (N.leb_spec (5 * p1) r) as [Hup|Hdown].
    + cbn [Z.eqb Pos.eqb]. apply half_up_unique; lia.
    + destruct (r =? 0)%N; cbn [Z.eqb]; apply half_up_unique; lia.
Qed.

Lemma half_up_one (num : N) : half_up num 1 = num.
Proof. apply half_up_unique; lia. Qed.

Lemma half_up_bound (num den bound : N) :
  (0 < den)%N -> (num < bound * den)%N -> (half_up num den <= bound)%N.
Proof.
  intros Hden Hlt. destruct (half_up_spec num den Hden) as [Hlo _].
  nia.
Qed.

(** [normalize] rounds an amount under 10 ^ 25 to cents, a half going
    up (away from zero for a negative amount). *)
Lemma normalize_cents (s : bool) (c : N) (e : Z) :
  (adjusted c e <= 24)%Z ->
  normalize (Finite s c e) = Ok (Finite s (cents c e) (-2)).
Proof.
  intros Hadj. unfold cents.
  destruct (N.eq_dec c 0) as [->|Hc].
  - rewrite normalize_zero. do 2 f_equal. symmetry.
    pose proof (pow10_pos (- (e + 2))).
    apply half_up_unique; lia.
  - destruct (ndigits_spec c ltac:(lia)) as (Hnd & Hlo & Hhi).
    unfold adjusted in Hadj.
    assert (Hres : rescale (Finite s c e) (-2) ROUND_HALF_UP
                   = Finite s (half_up (c * pow10 (e + 2)) (pow10 (- (e + 2)))) (-2)).
    { destruct (Z.le_gt_cases (-2) e) as [Hle|Hgt].
      - unfold rescale. destruct (N.eqb_spec c 0) as [|_]; [contradiction|].
        destruct (Z.leb_spec (-2) e) as [_|]; [|lia].
        rewrite (pow10_nonpos (- (e + 2))) by lia. rewrite half_up_one.
        repeat f_equal; try lia.
      - rewrite rescale_half_up by lia.
        rewrite (pow10_nonpos (e + 2)) by lia. rewrite N.mul_1_r.
        repeat f_equal; try lia. }
    assert (Hbound : (half_up (c * pow10 (e + 2)) (pow10 (- (e + 2))) <= pow10 27)%N).
    { pose proof (pow10_pos (- (e + 2))) as Hp.
      apply half_up_bound; [assumption|].
      destruct (Z.le_gt_cases (-2) e) as [Hle|Hgt].
      - rewrite (pow10_nonpos (- (e + 2))) by lia. rewrite N.mul_1_r.
        pose proof (pow10_le (ndigits c + (e + 2)) 27 ltac:(lia)) as Hle'.
        rewrite pow10_add in Hle' by lia.
        pose proof (pow10_pos (e + 2)). nia.
      - rewrite (pow10_nonpos (e + 2)) by lia. rewrite N.mul_1_r.
        destruct (Z.le_gt_cases (ndigits c) (- (e + 2))) as [Hsmall|Hbig].
        + pose proof (pow10_le (ndigits c) (- (e + 2)) Hsmall).
          pose proof (pow10_pos 27). nia.
        + pose proof (pow10_le (ndigits c - - (e + 2) + - (e + 2)) (27 + - (e + 2))
                        ltac:(lia)) as Hle'.
          replace (ndigits c - - (e + 2) + - (e + 2))%Z with (ndigits c) in Hle' by lia.
          rewrite (pow10_add 27) in Hle' by lia. lia. }
    set (f := half_up (c * pow10 (e + 2)) (pow10 (- (e + 2)))) in *. clearbody f.
    assert (Hnf : (ndigits f <= prec)%Z).
    { apply ndigits_lt_pow10; [unfold prec; lia|].
      pose proof (pow10_lt 27 prec ltac:(lia) ltac:(unfold prec; lia)). lia. }
    unfold normalize, quantize, TWO_PLACES. cbn [check_nans bind].
    change (negb ((Etiny <=? -2)%Z && (-2 <=? Emax)%Z)) with false. cbv iota.
    destruct (N.eqb_spec c 0) as [|_]; [contradiction|].
    unfold adjusted.
    destruct (Z.ltb_spec Emax (e + ndigits c - 1)) as [|_]; [unfold_context; lia|].
    destruct (Z.ltb_spec prec (e + ndigits c - 1 - -2 + 1)) as [|_]; [unfold prec in *; lia|].
    rewrite Hres.
    destruct (Z.ltb_spec Emax (-2 + ndigits f - 1)) as [|_]; [unfold_context; lia|].
    destruct (Z.ltb_spec prec (ndigits f)) as [|_]; [lia|].
    apply dec_fix_two_places. assumption.
Qed.

(** An amount of 10 ^ 26 or more is beyond what [normalize] takes. *)
Lemma normalize_beyond (s : bool) (c : N) (e : Z) :
  c <> 0%N -> (26 <= adjusted c e)%Z ->
  normalize (Finite s c e) = Raise InvalidOperation.
Proof.
  intros Hc Hadj.
  unfold normalize, quantize, TWO_PLACES. cbn [check_nans bind].
  change (negb ((Etiny <=? -2)%Z && (-2 <=? Emax)%Z)) with false. cbv iota.
  destruct (N.eqb_spec c 0) as [|_]; [contradiction|].
  destruct (Emax <? adjusted c e)%Z; [reflexivity|].
  destruct (Z.ltb_spec prec (adjusted c e - -2 + 1)) as [_|]; [reflexivity|].
  unfold prec in *. lia.
Qed.

(** ** Rounding to the precision *)

(** Rounding to the precision moves a coefficient by half a unit of the
    last place kept at most. *)
Lemma dec_fix_round (s : bool) (c : N) (e : Z) :
  c <> 0%N -> (Etiny <= ndigits c + e - prec)%Z -> (ndigits c + e - prec < Etop)%Z ->
  exists r e2,
    dec_fix (Finite s c e) = Ok (Finite s r e2) /\
    ((r = c /\ e2 = e) \/
     ((e < e2 <= ndigits c + e - prec + 1)%Z /\
      (2 * c <= 2 * r * pow10 (e2 - e) + pow10 (e2 - e))%N /\
      (2 * r * pow10 (e2 - e) <= 2 * c + pow10 (e2 - e))%N)).
Proof.
  intros Hc Hsub Htop. unfold dec_fix.
  destruct (N.eqb_spec c 0) as [|_]; [contradiction|].
  destruct (Z.ltb_spec Etop (ndigits c + e - prec)) as [|_]; [lia|].
  destruct (Z.ltb_spec (ndigits c + e - prec) Etiny) as [|_]; [lia|].
  destruct (Z.ltb_spec e (ndigits c + e - prec)) as [Hr|Hr].
  2: { exists c, e. split; [reflexivity|]. left. split; reflexivity. }
  replace (ndigits c + e - (ndigits c + e - prec))%Z with prec by lia.
  change (prec <? 0)%Z with false. cbv iota beta.
  set (k := (ndigits c - prec)%Z) in *.
  assert (Hk : (1 <= k)%Z) by (unfold k; lia).
  destruct (ndigits_spec c ltac:(lia)) as (_ & Hlo & Hhi).
  pose proof (pow10_pos k) as Hp. pose proof (pow10_pos (k - 1)) as Hp1.
  assert (Hpk : pow10 k = (10 * pow10 (k - 1))%N).
  { rewrite <- pow10_succ by lia. f_equal. lia. }
  assert (Hq28 : (prefix c prec < pow10 prec)%N).
  { unfold prefix. fold k. apply N.Div0.div_lt_upper_bound.
    replace (ndigits c) with (k + prec)%Z in Hhi by (unfold k; lia).
    rewrite pow10_add in Hhi by (unfold prec; lia). lia. }
  assert (Hup : (0 <? round_half_even c prec)%Z = true ->
                (pow10 k <= 2 * (c mod pow10 k))%N).
  { unfold round_half_even, round_half_up.
    rewrite (digit_at_ge5 c prec k) by (unfold k; lia).
    destruct (exact_half c prec && _); [discriminate|].
    destruct (N.leb_spec (5 * pow10 (k - 1)) (c mod pow10 k)) as [H5|_].
    - intros _. lia.
    - destruct (all_zeros c prec); discriminate. }
  assert (Hdown : (0 <? round_half_even c prec)%Z = false ->
                  (2 * (c mod pow10 k) <= pow10 k)%N).
  { unfold round_half_even, round_half_up, exact_half.
    rewrite (digit_at_ge5 c prec k) by (unfold k; lia). fold k.
    replace (k - 1)%Z with (ndigits c - prec - 1)%Z in * by (unfold k; lia).
    destruct (N.eqb_spec (c mod pow10 k) (5 * pow10 (ndigits c - prec - 1))) as [He|_].
    - intros _. lia.
    - cbn [andb].
      destruct (N.leb_spec (5 * pow10 (ndigits c - prec - 1)) (c mod pow10 k)) as [|Hlt].
      + discriminate.
      + intros _. lia. }
  pose proof (N.div_mod c (pow10 k) ltac:(lia)) as Hdm.
  pose proof (N.mod_lt c (pow10 k) ltac:(lia)) as Hm.
  unfold prefix in *. fold k in Hq28 |- *.
  set (q := (c / pow10 k)%N) in *. set (rm := (c mod pow10 k)%N) in *.
  replace (ndigits c + e - prec)%Z with (e + k)%Z in * by (unfold k; lia).
  clearbody q rm.
  destruct (0 <? round_half_even c prec)%Z.
  - specialize (Hup eq_refl). clear Hdown.
    destruct (Z.ltb_spec prec (ndigits (q + 1))) as [Hcarry|Hfit].
    + destruct (Z.ltb_spec Etop (e + k + 1)) as [|_]; [lia|].
      assert (Hq1 : (q + 1 = pow10 prec)%N).
      { destruct (N.lt_ge_cases (q + 1) (pow10 prec)) as [Hlt|Hge]; [|lia].
        pose proof (ndigits_lt_pow10 (q + 1) prec ltac:(unfold prec; lia) Hlt). lia. }
      rewrite Hq1.
      exists (pow10 prec / 10)%N, (e + k + 1)%Z. split; [reflexivity|]. right.
      change (pow10 prec / 10)%N with (pow10 27).
      replace (e + k + 1 - e)%Z with (k + 1)%Z by lia.
      rewrite pow10_succ by lia.
      assert (H28 : pow10 prec = (10 * pow10 27)%N) by (vm_compute; reflexivity).
      rewrite H28 in Hq1. generalize dependent (pow10 27). generalize dependent (pow10 k).
      intros. split; [lia|]. split; nia.
    + destruct (Z.ltb_spec Etop (e + k)) as [|_]; [lia|].
      exists (q + 1)%N, (e + k)%Z. split; [reflexivity|]. right.
      replace (e + k - e)%Z with k by lia.
      generalize dependent (pow10 k). intros. split; [lia|]. split; nia.
  - specialize (Hdown eq_refl). clear Hup.
    destruct (Z.ltb_spec Etop (e + k)) as [|_]; [lia|].
    exists q, (e + k)%Z. split; [reflexivity|]. right.
    replace (e + k - e)%Z with k by lia.
    generalize dependent (pow10 k). intros. split; [lia|]. split; nia.
Qed.

Lemma strip_zeros_value (fuel : nat) :
  forall (coeff : N) (exp ideal_exp : Z) (c' : N) (e' : Z),
    strip_zeros fuel coeff exp ideal_exp = (c', e') ->
    (exp <= e')%Z /\ coeff = (c' * pow10 (e' - exp))%N.
Proof.
  induction fuel as [|fuel IH]; intros coeff exp ideal_exp c' e' H; cbn [strip_zeros] in H.
  - injection H as <- <-. rewrite Z.sub_diag. change (pow10 0) with 1%N. lia.
  - destruct (Z.ltb_spec exp ideal_exp) as [Hlt|_]; cbn [andb] in H.
    + destruct (N.eqb_spec (coeff mod 10) 0) as [Hz|_].
      * apply IH in H. destruct H as [Hle Hval]. split; [lia|].
        replace (e' - exp)%Z with ((e' - (exp + 1)) + 1)%Z by lia.
        rewrite pow10_succ by lia.
        pose proof (N.div_mod coeff 10 ltac:(discriminate)) as Hdm.
        rewrite Hz in Hdm. rewrite Hdm at 1. rewrite Hval. lia.
      * injection H as <- <-. rewrite Z.sub_diag. change (pow10 0) with 1%N. lia.
    + injection H as <- <-. rewrite Z.sub_diag. change (pow10 0) with 1%N. lia.
Qed.

(** ** The quotient by the rate *)

Lemma half_up_scale (num den k : N) :
  (0 < den)%N -> (0 < k)%N -> half_up (num * k) (den * k) = half_up num den.
Proof.
  intros Hden Hk. unfold half_up.
  replace (2 * (num * k) + den * k)%N with ((2 * num + den) * k)%N by lia.
  replace (2 * (den * k))%N with ((2 * den) * k)%N by lia.
  apply N.Div0.div_mul_cancel_r; lia.
Qed.

(** The cents of [r * 10 ^ e2], counted in units of [10 ^ x]. *)
Lemma cents_scale (r : N) (e2 x : Z) :
  (x <= e2)%Z -> (x <= -2)%Z ->
  cents r e2 = half_up (r * pow10 (e2 - x)) (pow10 (-2 - x)).
Proof.
  intros Hx Hx2. unfold cents.
  destruct (Z.le_gt_cases (e2 + 2) 0) as [Hneg|Hpos].
  - rewrite (pow10_nonpos (e2 + 2)) by lia. rewrite N.mul_1_r.
    replace (-2 - x)%Z with (- (e2 + 2) + (e2 - x))%Z by lia.
    rewrite (pow10_add (- (e2 + 2)) (e2 - x)) by lia. symmetry. apply half_up_scale; apply pow10_pos.
  - rewrite (pow10_nonpos (- (e2 + 2))) by lia.
    replace (e2 - x)%Z with ((e2 + 2) + (-2 - x))%Z by lia.
    rewrite (pow10_add (e2 + 2) (-2 - x)) by lia. rewrite N.mul_assoc.
    rewrite <- (N.mul_1_l (pow10 (-2 - x))) at 2.
    symmetry. apply half_up_scale; [lia|apply pow10_pos].
Qed.

(** The cents of [c * 10 ^ e / 1.95583], counted with the dividend
    shifted by [shift] places. *)
Lemma exact_eur_cents_scale (c : N) (e shift : Z) :
  (0 <= shift)%Z -> (e + 7 <= shift)%Z ->
  exact_eur_cents c e = half_up (c * pow10 shift) (195583 * pow10 (shift - (e + 7))).
Proof.
  intros Hs Hse. unfold exact_eur_cents.
  destruct (Z.le_gt_cases (e + 7) 0) as [Hneg|Hpos].
  - rewrite (pow10_nonpos (e + 7)) by lia. rewrite N.mul_1_r.
    replace (shift - (e + 7))%Z with (- (e + 7) + shift)%Z by lia.
    rewrite (pow10_add (- (e + 7)) shift) by lia. rewrite N.mul_assoc.
    symmetry. apply half_up_scale; [|apply pow10_pos].
    pose proof (pow10_pos (- (e + 7))). lia.
  - rewrite (pow10_nonpos (- (e + 7))) by lia. rewrite N.mul_1_r.
    replace shift with ((e + 7) + (shift - (e + 7)))%Z at 1 by lia.
    rewrite (pow10_add (e + 7) (shift - (e + 7))) by lia. rewrite N.mul_assoc.
    symmetry. apply half_up_scale; [lia|apply pow10_pos].
Qed.

(** Rounding the quotient to the precision first does not change its
    cents: the quotient by 195583 of a number that ends in eight zeros
    is more than 500 units away from a half cent it does not reach. *)
Lemma rounded_quotient_cents (x coeff rem rp p b x' b' a' : N) :
  x = (195583 * coeff + rem)%N -> (rem < 195583)%N ->
  x = (100000000 * x')%N -> b = (100000000 * b')%N -> b = (p * a')%N ->
  (0 < p <= 1000)%N -> (0 < b)%N ->
  (2 * (rp * p) <= 2 * coeff + 2 + p)%N -> (2 * coeff <= 2 * (rp * p) + p)%N ->
  half_up x (195583 * (10 * b)) = half_up (rp * p) (10 * b).
Proof.
  intros Hx Hrem Hx8 Hb8 Hbp Hp Hb Hhi Hlo.
  destruct (half_up_spec (rp * p) (10 * b) ltac:(lia)) as [Hflo Hfhi].
  set (f := half_up (rp * p) (10 * b)) in *. clearbody f.
  apply half_up_unique; [lia| |].
  - destruct (N.eq_dec f 0) as [->|Hf]; [lia|].
    assert (Hf' : exists f', f = (f' + 1)%N) by (exists (f - 1)%N; lia).
    destruct Hf' as [f' ->].
    set (t := (10 * (b * f') + 5 * b)%N).
    assert (Ht : (t <= rp * p)%N) by (unfold t; lia).
    assert (Hy : (195583 * t = 100000000 * (195583 * (5 * b' * (2 * f' + 1))))%N).
    { unfold t. rewrite Hb8. lia. }
    assert (Hc : (t <= coeff)%N).
    { destruct (N.le_gt_cases t coeff) as [|Hgt]; [assumption|exfalso].
      clearbody t. set (y := (195583 * (5 * b' * (2 * f' + 1)))%N) in *. clearbody y.
      set (rpp := (rp * p)%N) in *. clearbody rpp.
      lia. }
    unfold t in Hc. lia.
  - set (t := (10 * (b * f) + 5 * b)%N).
    assert (Ht : (rp * p < t)%N) by (unfold t; lia).
    assert (Hz : (t = (5 * a' * (2 * f + 1)) * p)%N).
    { unfold t. rewrite Hbp. lia. }
    assert (Hc : (coeff < t)%N).
    { destruct (N.le_gt_cases t coeff) as [Hle|]; [exfalso|assumption].
      rewrite Hz in Ht, Hle.
      set (z := (5 * a' * (2 * f + 1))%N) in *. clearbody z.
      assert (Hrz : (rp + 1 <= z)%N).
      { apply N.mul_lt_mono_pos_r in Ht; lia. }
      assert (Hrz' : ((rp + 1) * p <= z * p)%N) by (apply N.mul_le_mono_r; assumption).
      lia. }
    unfold t in Hc. lia.
Qed.

Lemma N_div_eucl_pair (a b : N) : N.div_eucl a b = ((a / b)%N, (a mod b)%N).
Proof. unfold N.div, N.modulo. destruct (N.div_eucl a b). reflexivity. Qed.

Lemma pow10_numeral_8 : pow10 8 = 100000000%N.
Proof. reflexivity. Qed.

(** The dividend of the division by 1.95583, shifted as [truediv] shifts
    it, has 35 digits and ends in eight zeros. *)
Lemma shifted_dividend (c : N) :
  c <> 0%N -> (ndigits c <= 27)%Z ->
  (pow10 34 <= c * pow10 (35 - ndigits c) < pow10 35)%N /\
  (c * pow10 (35 - ndigits c) = 100000000 * (c * pow10 (27 - ndigits c)))%N.
Proof.
  intros Hc Hnd. destruct (ndigits_spec c ltac:(lia)) as (Hpos & Hlo & Hhi).
  pose proof (pow10_pos (35 - ndigits c)) as Hp.
  split; [split|].
  - replace 34%Z with ((ndigits c - 1) + (35 - ndigits c))%Z by lia.
    rewrite (pow10_add (ndigits c - 1) (35 - ndigits c)) by lia.
    apply N.mul_le_mono_r. assumption.
  - replace 35%Z with (ndigits c + (35 - ndigits c))%Z at 2 by lia.
    rewrite (pow10_add (ndigits c) (35 - ndigits c)) by lia.
    apply N.mul_lt_mono_pos_r; assumption.
  - replace (35 - ndigits c)%Z with (8 + (27 - ndigits c))%Z by lia.
    rewrite (pow10_add 8 (27 - ndigits c)) by lia.
    rewrite pow10_numeral_8. lia.
Qed.

(** What [normalize] makes of a number that is the quotient exactly, or
    within half a unit of the last place of the quotient cut to at most
    three digits fewer. *)
Lemma normalize_near_quotient (s : bool) (c : N) (e : Z) (coeff rem r : N) (e2 : Z) :
  c <> 0%N -> (ndigits c <= 27)%Z -> (adjusted c e <= 18)%Z ->
  (c * pow10 (35 - ndigits c) = 195583 * coeff + rem)%N -> (rem < 195583)%N ->
  (adjusted c e - 29 <= e2)%Z ->
  ((rem = 0%N /\ (r * pow10 (e2 - (adjusted c e - 29)) = coeff)%N) \/
   ((e2 <= adjusted c e - 26)%Z /\
    (2 * (r * pow10 (e2 - (adjusted c e - 29)))
     <= 2 * coeff + 2 + pow10 (e2 - (adjusted c e - 29)))%N /\
    (2 * coeff <= 2 * (r * pow10 (e2 - (adjusted c e - 29)))
                  + pow10 (e2 - (adjusted c e - 29)))%N)) ->
  normalize (Finite s r e2) = Ok (Finite s (exact_eur_cents c e) (-2)).
Proof.
  intros Hc Hnd Hadj Hdiv Hrem He2 Hnear.
  destruct (shifted_dividend c Hc Hnd) as ((Hxlo & Hxhi) & Hx8).
  set (exp := (adjusted c e - 29)%Z) in *.
  assert (Hexp : exp = (e + 7 - (35 - ndigits c) - 2)%Z) by (unfold exp, adjusted; lia).
  set (x := (c * pow10 (35 - ndigits c))%N) in *.
  assert (H35 : pow10 35 = 100000000000000000000000000000000000%N) by (vm_compute; reflexivity).
  assert (H30 : pow10 30 = 1000000000000000000000000000000%N) by (vm_compute; reflexivity).
  assert (H3 : pow10 3 = 1000%N) by reflexivity.
  rewrite H35 in Hxhi.
  pose proof (pow10_pos (e2 - exp)) as Hp.
  assert (Hrp : (r * pow10 (e2 - exp) < pow10 30)%N).
  { rewrite H30. destruct Hnear as [[_ Hr]|(Hle & Hhi & _)].
    - rewrite Hr. lia.
    - pose proof (pow10_le (e2 - exp) 3 ltac:(lia)) as Hp3. rewrite H3 in Hp3. lia. }
  assert (Hradj : (adjusted r e2 <= 24)%Z).
  { unfold adjusted. destruct (N.eq_dec r 0) as [->|Hr].
    - change (ndigits 0) with 1%Z.
      assert (H34 : pow10 34 = 10000000000000000000000000000000000%N)
        by (vm_compute; reflexivity).
      rewrite H34 in Hxlo.
      destruct Hnear as [[_ Hr]|(Hle & _)]; lia.
    - pose proof (ndigits_lt_pow10 _ 30 ltac:(lia) Hrp) as Hn.
      rewrite ndigits_mul_pow10 in Hn by lia. lia. }
  rewrite (normalize_cents s r e2 Hradj). do 2 f_equal.
  rewrite (cents_scale r e2 exp) by lia.
  rewrite (exact_eur_cents_scale c e (35 - ndigits c)) by (unfold adjusted in *; lia).
  fold x.
  replace (35 - ndigits c - (e + 7))%Z with (-2 - exp)%Z by lia.
  assert (Hb10 : pow10 (-2 - exp) = (10 * pow10 (-3 - exp))%N).
  { rewrite <- pow10_succ by lia. f_equal. lia. }
  rewrite Hb10. pose proof (pow10_pos (-3 - exp)) as Hb.
  destruct Hnear as [[-> Hr]|(Hle & Hhi & Hlo)].
  - rewrite Hr. rewrite N.add_0_r in Hdiv. rewrite Hdiv.
    rewrite (N.mul_comm 195583 coeff), (N.mul_comm 195583 (10 * _)).
    symmetry. apply half_up_scale; lia.
  - symmetry.
    apply (rounded_quotient_cents x coeff rem r (pow10 (e2 - exp)) (pow10 (-3 - exp))
             (c * pow10 (27 - ndigits c)) (pow10 (-3 - exp - 8)) (pow10 (-3 - e2)));
      try assumption.
    + rewrite <- pow10_numeral_8.
      rewrite <- (pow10_add 8 (-3 - exp - 8)) by lia. f_equal. lia.
    + rewrite <- (pow10_add (e2 - exp) (-3 - e2)) by lia. f_equal. lia.
    + split; [assumption|].
      pose proof (pow10_le (e2 - exp) 3 ltac:(lia)) as Hp3. rewrite H3 in Hp3. assumption.
Qed.

(** The expected amount of a BGN amount of at most 27 digits, under
    10 ^ 19 and not in the subnormal range, is the exact quotient by
    1.95583 rounded half up to cents. *)
Lemma expected_eur_cents (s : bool) (c : N) (e : Z) :
  c <> 0%N -> (ndigits c <= 27)%Z -> (Emin < adjusted c e <= 18)%Z ->
  expected_eur (Finite s c e) = Ok (Finite s (exact_eur_cents c e) (-2)).
Proof.
  intros Hc Hnd [Hmin Hadj].
  destruct (shifted_dividend c Hc Hnd) as ((Hxlo & Hxhi) & _).
  pose proof (ndigits_pos c) as Hpos.
  unfold expected_eur, truediv, BGN_TO_EUR_DIVISOR. cbn [check_nans bind].
  change (195583 =? 0)%N with false. cbv iota zeta.
  destruct (N.eqb_spec c 0) as [|_]; [contradiction|].
  replace (xorb s false) with s by (destruct s; reflexivity).
  change (ndigits 195583) with 6%Z.
  replace (6 - ndigits c + prec + 1)%Z with (35 - ndigits c)%Z by (unfold prec; lia).
  replace (e - -5 - (35 - ndigits c))%Z with (adjusted c e - 29)%Z
    by (unfold adjusted; lia).
  destruct (Z.leb_spec 0 (35 - ndigits c)) as [_|]; [|lia].
  rewrite N_div_eucl_pair.
  pose proof (N.div_mod (c * pow10 (35 - ndigits c)) 195583 ltac:(discriminate)) as Hdm.
  pose proof (N.mod_lt (c * pow10 (35 - ndigits c)) 195583 ltac:(discriminate)) as Hrem.
  set (x := (c * pow10 (35 - ndigits c))%N) in *.
  set (coeff := (x / 195583)%N) in *. set (rem := (x mod 195583)%N) in *.
  clearbody coeff rem.
  assert (H34 : pow10 34 = 10000000000000000000000000000000000%N) by (vm_compute; reflexivity).
  assert (H35 : pow10 35 = 100000000000000000000000000000000000%N) by (vm_compute; reflexivity).
  assert (H30 : pow10 30 = 1000000000000000000000000000000%N) by (vm_compute; reflexivity).
  assert (H28 : pow10 28 = 10000000000000000000000000000%N) by (vm_compute; reflexivity).
  rewrite H34 in Hxlo. rewrite H35 in Hxhi.
  assert (Hclo : (pow10 28 <= coeff)%N) by (rewrite H28; lia).
  assert (Hchi : (coeff + 1 < pow10 30)%N) by (rewrite H30; lia).
  set (exp := (adjusted c e - 29)%Z) in *.
  (* the digits of a coefficient between the bounds *)
  assert (Hdigits : forall k, (coeff <= k <= coeff + 1)%N ->
                              (29 <= ndigits k <= 30)%Z).
  { intros k Hk. split.
    - pose proof (ndigits_le_mono (pow10 28) k ltac:(lia)) as Hle.
      change (ndigits (pow10 28)) with 29%Z in Hle. assumption.
    - apply ndigits_lt_pow10; lia. }
  destruct (N.eqb_spec rem 0) as [Hz|Hnz]; cbn [negb].
  - destruct (strip_zeros (Z.to_nat (e - -5 - exp)) coeff exp (e - -5))
      as [c' e'] eqn:Hstrip.
    apply strip_zeros_value in Hstrip. destruct Hstrip as [Hle Hval].
    pose proof (pow10_pos (e' - exp)) as Hp.
    assert (Hc' : c' <> 0%N) by (intros ->; rewrite H28 in Hclo; lia).
    assert (Hn' : (ndigits c' + (e' - exp) = ndigits coeff)%Z).
    { rewrite Hval. rewrite ndigits_mul_pow10 by lia. reflexivity. }
    pose proof (Hdigits coeff ltac:(lia)) as Hnc.
    destruct (dec_fix_round s c' e' Hc') as (r & e2 & Hfix & Hcases).
    + unfold exp, Etiny, Emin, prec in *. lia.
    + unfold exp, Etop, Emax, prec in *. lia.
    + rewrite Hfix. cbn [bind].
      apply (normalize_near_quotient s c e coeff rem r e2); try assumption.
      * fold exp. destruct Hcases as [[_ ->]|[[Hlt _] _]]; lia.
      * fold exp. destruct Hcases as [[-> ->]|([Hlt Hhi2] & Hhi & Hlo)].
        -- left. split; [assumption|]. symmetry. assumption.
        -- right. split; [unfold prec in *; lia|].
           replace (e2 - exp)%Z with ((e2 - e') + (e' - exp))%Z by lia.
           rewrite (pow10_add (e2 - e') (e' - exp)) by lia.
           rewrite Hval.
           generalize dependent (pow10 (e2 - e')). generalize dependent (pow10 (e' - exp)).
           intros. split; nia.
  - set (cst := (if (coeff mod 5 =? 0)%N then (coeff + 1)%N else coeff)).
    assert (Hcst : (coeff <= cst <= coeff + 1)%N).
    { unfold cst. destruct (coeff mod 5 =? 0)%N; lia. }
    clearbody cst.
    pose proof (Hdigits cst Hcst) as Hnc.
    destruct (dec_fix_round s cst exp) as (r & e2 & Hfix & Hcases).
    + rewrite H28 in Hclo. lia.
    + unfold exp, Etiny, Emin, prec in *. lia.
    + unfold exp, Etop, Emax, prec in *. lia.
    + rewrite Hfix. cbn [bind].
      apply (normalize_near_quotient s c e coeff rem r e2); try assumption.
      * fold exp. destruct Hcases as [[_ ->]|[[Hlt _] _]]; lia.
      * fold exp. right. destruct Hcases as [[-> ->]|([Hlt Hhi2] & Hhi & Hlo)].
        -- rewrite Z.sub_diag. change (pow10 0) with 1%N. lia.
        -- split; [unfold prec in *; lia|].
           generalize dependent (pow10 (e2 - exp)). intros. lia.
Qed.

Lemma sgn_eqb_0 (d : Z) : (Z.sgn d =? 0)%Z = (d =? 0)%Z.
Proof. destruct d; reflexivity. Qed.

Lemma verify_row_cents (bgn : decimal) (sc : bool) (cc : N) (s' : bool) (c' : N) (e' : Z) :
  expected_eur bgn = Ok (Finite sc cc (-2)) ->
  (adjusted c' e' <= 24)%Z ->
  verify_row (Some bgn) (Some (Finite s' c' e'))
  = if (signed_coeff sc cc =? signed_coeff s' (cents c' e'))%Z
    then (false, Some (Finite sc cc (-2)), None)
    else (true, Some (Finite sc cc (-2)), Some (Finite s' (cents c' e') (-2))).
Proof.
  intros Hexp Hadj. unfold verify_row. rewrite verify_row_body_some, Hexp. cbn [bind].
  rewrite (normalize_cents s' c' e' Hadj). cbn [bind].
  unfold dec_ne. rewrite dec_eq_finite, cmp_two_places. cbn [bind].
  rewrite sgn_eqb_0.
  destruct (Z.eqb_spec (signed_coeff sc cc) (signed_coeff s' (cents c' e'))) as [Heq|Hne].
  - rewrite Heq, Z.sub_diag. reflexivity.
  - destruct (Z.eqb_spec (signed_coeff sc cc - signed_coeff s' (cents c' e')) 0) as [|_];
      [lia|reflexivity].
Qed.

(** ** The difference of two amounts *)

Lemma sub_two_places_exact (s1 s2 : bool) (c1 c2 : N) :
  (c1 <= pow10 27)%N -> (c2 <= pow10 27)%N ->
  exists sd,
    sub (Finite s1 c1 (-2)) (Finite s2 c2 (-2))
    = Ok (Finite sd (Z.abs_N (signed_coeff s1 c1 - signed_coeff s2 c2)) (-2)) /\
    ((signed_coeff s1 c1 - signed_coeff s2 c2 <> 0)%Z ->
     sd = (signed_coeff s1 c1 - signed_coeff s2 c2 <? 0)%Z).
Proof.
  intros Hb1 Hb2.
  assert (H27 : pow10 27 = 1000000000000000000000000000%N) by (vm_compute; reflexivity).
  assert (H28 : pow10 prec = 10000000000000000000000000000%N) by (vm_compute; reflexivity).
  rewrite H27 in Hb1, Hb2.
  assert (Hfit : forall x, (x <= 2 * 1000000000000000000000000000)%N ->
                           (ndigits x <= prec)%Z).
  { intros x Hx. apply ndigits_lt_pow10; [unfold prec; lia|]. rewrite H28. lia. }
  unfold sub. cbn [check_nans bind copy_negate].
  unfold add. cbn [check_nans bind].
  change (Z.min (-2) (-2)) with (-2)%Z.
  change (Z.max (-2) (-2 - prec - 1)) with (-2)%Z.
  destruct (N.eqb_spec c1 0) as [->|Hc1]; destruct (N.eqb_spec c2 0) as [->|Hc2];
    cbn [andb].
  - rewrite dec_fix_two_places by (apply Hfit; lia).
    exists (s1 && negb s2). split.
    + do 2 f_equal. destruct s1, s2; reflexivity.
    + destruct s1, s2; cbn; intros H; contradiction H; reflexivity.
  - unfold rescale. destruct (N.eqb_spec c2 0) as [|_]; [contradiction|].
    change (-2 <=? -2)%Z with true. cbv iota.
    change (pow10 (-2 - -2)) with 1%N. rewrite N.mul_1_r.
    rewrite dec_fix_two_places by (apply Hfit; lia).
    exists (negb s2). unfold signed_coeff. split.
    + do 2 f_equal. destruct s1, s2; lia.
    + intros _. destruct s1, s2; cbn [negb]; symmetry;
        (apply Z.ltb_lt || apply Z.ltb_ge); lia.
  - unfold rescale. destruct (N.eqb_spec c1 0) as [|_]; [contradiction|].
    change (-2 <=? -2)%Z with true. cbv iota.
    change (pow10 (-2 - -2)) with 1%N. rewrite N.mul_1_r.
    rewrite dec_fix_two_places by (apply Hfit; lia).
    exists s1. unfold signed_coeff. split.
    + do 2 f_equal. destruct s1, s2; lia.
    + intros _. destruct s1, s2; symmetry; (apply Z.ltb_lt || apply Z.ltb_ge); lia.
  - rewrite normalize_ops_two_places. unfold signed_coeff.
    destruct (Bool.eqb s1 (negb s2)) eqn:Hsign; cbn [negb].
    + apply Bool.eqb_prop in Hsign.
      rewrite dec_fix_two_places by (apply Hfit; lia).
      exists s1. split.
      * do 2 f_equal. subst s1. destruct s2; cbn [negb]; lia.
      * intros _. subst s1. destruct s2; cbn [negb]; symmetry;
          (apply Z.ltb_lt || apply Z.ltb_ge); lia.
    + assert (Hs : s1 = s2) by (destruct s1, s2; (reflexivity || discriminate)).
      subst s2.
      destruct (N.eqb_spec c1 c2) as [->|Hd].
      * rewrite dec_fix_two_places by (apply Hfit; lia).
        exists false. split.
        -- do 2 f_equal. destruct s1; lia.
        -- intros H. contradiction H. destruct s1; lia.
      * destruct (N.ltb_spec c1 c2) as [Hlt|Hge].
        -- rewrite dec_fix_two_places by (apply Hfit; lia).
           exists (negb s1). split.
           ++ do 2 f_equal. destruct s1; lia.
           ++ intros _. destruct s1; cbn [negb]; symmetry;
                (apply Z.ltb_lt || apply Z.ltb_ge); lia.
        -- rewrite dec_fix_two_places by (apply Hfit; lia).
           exists s1. split.
           ++ do 2 f_equal. destruct s1; lia.
           ++ intros _. destruct s1; symmetry; (apply Z.ltb_lt || apply Z.ltb_ge); lia.
Qed.

(** ** The exact amounts of the comparator *)

Lemma expected_eur_zero (s : bool) (e : Z) :
  expected_eur (Finite s 0 e) = Ok (Finite s 0 (-2)).
Proof.
  unfold expected_eur, truediv, BGN_TO_EUR_DIVISOR. cbn [check_nans bind].
  change (195583 =? 0)%N with false. change (0 =? 0)%N with true. cbv iota.
  rewrite dec_fix_zero. cbn [bind]. rewrite normalize_zero, xorb_false_r.
  reflexivity.
Qed.

Lemma exact_eur_cents_zero (e : Z) : exact_eur_cents 0 e = 0%N.
Proof.
  unfold exact_eur_cents. pose proof (pow10_pos (- (e + 7))).
  apply half_up_unique; lia.
Qed.

(** The expected amount of a BGN amount of at most 27 digits under
    10 ^ 19, zero or not, is the exact quotient rounded half up. *)
Lemma expected_eur_exact_cents (s : bool) (c : N) (e : Z) :
  (ndigits c <= 27)%Z -> (Emin < adjusted c e <= 18)%Z ->
  expected_eur (Finite s c e) = Ok (Finite s (exact_eur_cents c e) (-2)).
Proof.
  intros Hnd Hadj. destruct (N.eq_dec c 0) as [->|Hc].
  - rewrite expected_eur_zero, exact_eur_cents_zero. reflexivity.
  - apply expected_eur_cents; assumption.
Qed.

Lemma cents_bound (c : N) (e : Z) :
  (adjusted c e <= 24)%Z -> (cents c e <= pow10 27)%N.
Proof.
  intros Hadj. unfold cents, adjusted in *.
  pose proof (pow10_pos (- (e + 2))) as Hp. pose proof (pow10_pos 27) as H27.
  apply half_up_bound; [assumption|].
  destruct (N.eq_dec c 0) as [->|Hc]; [lia|].
  destruct (ndigits_spec c ltac:(lia)) as (Hnd & _ & Hhi).
  destruct (Z.le_gt_cases (-2) e) as [Hle|Hgt].
  - rewrite (pow10_nonpos (- (e + 2))) by lia. rewrite N.mul_1_r.
    pose proof (pow10_le (ndigits c + (e + 2)) 27 ltac:(lia)) as Hle'.
    rewrite (pow10_add (ndigits c) (e + 2)) in Hle' by lia.
    pose proof (pow10_pos (e + 2)). nia.
  - rewrite (pow10_nonpos (e + 2)) by lia. rewrite N.mul_1_r.
    pose proof (pow10_le (ndigits c) (27 + - (e + 2)) ltac:(lia)) as Hle'.
    rewrite (pow10_add 27 (- (e + 2))) in Hle' by lia. lia.
Qed.

Lemma exact_eur_cents_bound (c : N) (e : Z) :
  (adjusted c e <= 18)%Z -> (exact_eur_cents c e <= pow10 27)%N.
Proof.
  intros Hadj. unfold exact_eur_cents, adjusted in *.
  pose proof (pow10_pos (- (e + 7))) as Hp. pose proof (pow10_pos 27) as H27.
  apply half_up_bound; [lia|].
  destruct (N.eq_dec c 0) as [->|Hc]; [lia|].
  destruct (ndigits_spec c ltac:(lia)) as (Hnd & _ & Hhi).
  destruct (Z.le_gt_cases (-7) e) as [Hle|Hgt].
  - rewrite (pow10_nonpos (- (e + 7))) by lia. rewrite N.mul_1_r.
    pose proof (pow10_le (ndigits c + (e + 7)) 27 ltac:(lia)) as Hle'.
    rewrite (pow10_add (ndigits c) (e + 7)) in Hle' by lia.
    pose proof (pow10_pos (e + 7)). nia.
  - rewrite (pow10_nonpos (e + 7)) by lia. rewrite N.mul_1_r.
    pose proof (pow10_le (ndigits c) (27 + - (e + 7)) ltac:(lia)) as Hle'.
    rewrite (pow10_add 27 (- (e + 7))) in Hle' by lia. nia.
Qed.

(** Equal to the expected amount by Decimal [==], an EUR value is not
    reported. *)
Lemma verify_row_equal_expected (b eur c : decimal) :
  expected_eur b = Ok c ->
  dec_eq eur c = Ok true ->
  verify_row (Some b) (Some eur) = (false, Some c, None).
Proof.
  intros Hexp Heq.
  destruct (expected_eur_shape _ _ Hexp) as [[_ Hc]|[_ Hc]].
  - destruct (is_two_places_inv _ Hc) as (sc & cc & -> & Hn).
    destruct (dec_eq_true_two_places _ _ _ Hn Heq) as (s' & Hnorm & Hs).
    apply (verify_row_equal _ _ _ _ Hexp Hnorm).
    apply dec_ne_same_value. assumption.
  - destruct (is_qnan_inv _ Hc) as (s & p & ->).
    destruct eur; discriminate.
Qed.

(** A quiet NaN goes through the division and the rounding. *)
Lemma expected_eur_nan (s : bool) (p : N) :
  expected_eur (NaN s p) = Ok (fix_nan (NaN s p)).
Proof.
  unfold expected_eur, truediv, BGN_TO_EUR_DIVISOR. cbn [check_nans bind].
  destruct (is_qnan_inv _ (fix_nan_qnan s p)) as (s' & p' & Heq).
  rewrite Heq, normalize_nan, <- Heq, fix_nan_idempotent. reflexivity.
Qed.

(** An infinity or a signaling NaN is not rounded. *)
Lemma normalize_not_finite (x : decimal) :
  is_finite x = false -> is_qnan x = false -> exists e, normalize x = Raise e.
Proof.
  destruct x as [s c e|s|s p|s p]; try discriminate; intros _ _; eexists; reflexivity.
Qed.

Lemma verify_row_eur_raises (bgn_val : option decimal) (eur : decimal) (e : exn) :
  normalize eur = Raise e -> verify_row bgn_val (Some eur) = (false, None, None).
Proof.
  intros Hn. destruct bgn_val as [bgn|]; [|reflexivity].
  unfold verify_row. rewrite verify_row_body_some.
  destruct (expected_eur bgn) as [calc|]; [|reflexivity]. cbn [bind].
  rewrite Hn. reflexivity.
Qed.

(** * The claims *)

(** C1, as the code has it: the row number of a record is the row of the
    sheet, counted from 1 with the header as row 1. It lies between 2 and
    the larger [max_row], and it is the row whose two cells, in the columns
    found for the record's name, were reported as a mismatch. *)
Theorem main_row_is_sheet_row (bgn_ws eur_ws : Worksheet)
  (selected_columns : list string) (mismatches : list Mismatch) (m : Mismatch) :
  main bgn_ws eur_ws selected_columns = Ok (Some mismatches) ->
  In m mismatches ->
  2 <= Row m <= Nat.max (max_row bgn_ws) (max_row eur_ws) /\
  exists b_idx e_idx bgn_cell eur_cell bgn_val eur_val calc given,
    get_column_index bgn_ws (Column m) = Some b_idx /\
    get_column_index eur_ws (Column m) = Some e_idx /\
    cell_value bgn_ws (Row m) b_idx = Ok bgn_cell /\
    cell_value eur_ws (Row m) e_idx = Ok eur_cell /\
    parse_decimal bgn_cell = Ok bgn_val /\
    parse_decimal eur_cell = Ok eur_val /\
    verify_row bgn_val eur_val = (true, calc, given).
Proof.
  intros Hmain Hin.
  destruct (main_records _ _ _ _ _ Hmain Hin) as (b & e & Hmap & Hrow & Hcell).
  split; [apply rows_to_check_in; assumption|].
  destruct (main_column_map _ _ _ _ _ _ Hmap) as (Hb & He & _).
  destruct (check_cell_record _ _ _ _ _ _ _ Hcell)
    as (_ & _ & bc & ec & bv & ev & calc & given & H1 & H2 & H3 & H4 & H5).
  exists b, e, bc, ec, bv, ev, calc, given. repeat split; assumption.
Qed.

Lemma main_row_is_sheet_row_witness :
  2 <= Row example_record <= Nat.max (max_row example_bgn) (max_row example_eur) /\
  exists b_idx e_idx bgn_cell eur_cell bgn_val eur_val calc given,
    get_column_index example_bgn (Column example_record) = Some b_idx /\
    get_column_index example_eur (Column example_record) = Some e_idx /\
    cell_value example_bgn (Row example_record) b_idx = Ok bgn_cell /\
    cell_value example_eur (Row example_record) e_idx = Ok eur_cell /\
    parse_decimal bgn_cell = Ok bgn_val /\
    parse_decimal eur_cell = Ok eur_val /\
    verify_row bgn_val eur_val = (true, calc, given).
Proof.
  apply (main_row_is_sheet_row example_bgn example_eur ["Price"%string]
           [example_record] example_record).
  - vm_compute. reflexivity.
  - left. reflexivity.
Defined.

(** C1, as the spec has it, fails: with one data row, right after the
    header, its mismatch is reported with row number 2, not 1. *)
Lemma first_data_row_is_reported_as_2 :
  List.length example_bgn = 2 /\ List.length example_eur = 2 /\
  main example_bgn example_eur ["Price"%string] = Ok (Some [example_record]) /\
  Row example_record = 2 /\ Row example_record <> 1.
Proof.
  repeat split; try reflexivity. discriminate.
Qed.

(** C2, as the code has it: for a BGN amount of at most 27 digits under
    10 ^ 19, an EUR value equal (Decimal [==]) to the exact quotient by
    1.95583 rounded half up to two places is not reported, and the
    amount returned is that rounded quotient. *)
Theorem verify_row_match_on_exact_rounding (s : bool) (c : N) (e : Z) (eur : decimal) :
  (ndigits c <= 27)%Z -> (Emin < adjusted c e <= 18)%Z ->
  dec_eq eur (Finite s (exact_eur_cents c e) (-2)) = Ok true ->
  verify_row (Some (Finite s c e)) (Some eur)
  = (false, Some (Finite s (exact_eur_cents c e) (-2)), None).
Proof.
  intros Hnd Hadj Heq.
  apply verify_row_equal_expected; [|assumption].
  apply expected_eur_exact_cents; assumption.
Qed.

Lemma verify_row_match_on_exact_rounding_witness :
  verify_row (Some (Finite false 1999 (-2))) (Some (Finite false 10220 (-3)))
  = (false, Some (Finite false 1022 (-2)), None).
Proof.
  apply (verify_row_match_on_exact_rounding false 1999 (-2) (Finite false 10220 (-3))).
  - vm_compute. discriminate.
  - split; vm_compute; [reflexivity|discriminate].
  - vm_compute. reflexivity.
Defined.

(** C2, as stated, fails beyond the precision: the amount below parses,
    its exact quotient is under 0.005 and rounds to 0.00, and an EUR
    value of 0.00 is reported as a mismatch with 0.01. *)
Lemma exact_eur_beyond_precision_is_flagged :
  let c := 97791499999999999999999999999999999999%N in
  parse_decimal (CStr "0.0097791499999999999999999999999999999999")
  = Ok (Some (Finite false c (-40))) /\
  (200 * c < 195583 * 10 ^ 35)%N /\
  exact_eur_cents c (-40) = 0%N /\
  dec_eq (Finite false 0 (-2)) (Finite false (exact_eur_cents c (-40)) (-2)) = Ok true /\
  verify_row (Some (Finite false c (-40))) (Some (Finite false 0 (-2)))
  = (true, Some (Finite false 1 (-2)), Some (Finite false 0 (-2))).
Proof.
  repeat split; vm_compute; reflexivity.
Qed.

(** The expected amount rounds the quotient Decimal computes, which has 28
    significant digits. For the BGN amount below the exact quotient is
    under 0.005 (the amount is under 0.005 * 1.95583), the 28-digit
    quotient is 0.005, and the expected amount is 0.01. *)
Remark expected_eur_rounds_the_decimal_quotient :
  let c := 97791499999999999999999999999999999999%N in
  (c < 977915 * 10 ^ 32)%N /\
  truediv (Finite false c (-40)) BGN_TO_EUR_DIVISOR
  = Ok (Finite false 5000000000000000000000000000 (-30)) /\
  expected_eur (Finite false c (-40)) = Ok (Finite false 1 (-2)).
Proof.
  repeat split; vm_compute; reflexivity.
Qed.

(** C3, as the code has it: for a BGN amount of at most 27 digits under
    10 ^ 19 and an EUR amount under 10 ^ 25, when the exact quotient
    rounded half up and the EUR amount rounded half up are unequal,
    [verify_row] reports a mismatch carrying both rounded values, and
    the record's difference is the expected amount minus the given one
    to the cent: positive when the given amount is the lower one,
    negative when it is the higher one. *)
Theorem verify_row_mismatch_on_unequal_cents
  (s : bool) (c : N) (e : Z) (s' : bool) (c' : N) (e' : Z) :
  (ndigits c <= 27)%Z -> (Emin < adjusted c e <= 18)%Z ->
  (adjusted c' e' <= 24)%Z ->
  signed_coeff s (exact_eur_cents c e) <> signed_coeff s' (cents c' e') ->
  let expected := Finite s (exact_eur_cents c e) (-2) in
  let given := Finite s' (cents c' e') (-2) in
  let d := (signed_coeff s (exact_eur_cents c e) - signed_coeff s' (cents c' e'))%Z in
  let diff := Finite (d <? 0)%Z (Z.abs_N d) (-2) in
  verify_row (Some (Finite s c e)) (Some (Finite s' c' e'))
  = (true, Some expected, Some given) /\
  sub expected given = Ok diff /\
  (forall r col_name,
      mismatch_record r col_name (Some (Finite s c e)) (Some expected) (Some given)
      = Ok {| Row := r; Column := col_name; Source_BGN := to_str (Finite s c e);
              Calculated_EUR := to_str expected; File_EUR := to_str given;
              Diff := to_str diff |}) /\
  ((signed_coeff s' (cents c' e') < signed_coeff s (exact_eur_cents c e))%Z ->
   is_positive diff = true) /\
  ((signed_coeff s (exact_eur_cents c e) < signed_coeff s' (cents c' e'))%Z ->
   is_negative diff = true).
Proof.
  intros Hnd Hadj Hadj' Hne expected given d diff.
  pose proof (expected_eur_exact_cents s c e Hnd Hadj) as Hexp.
  assert (Hsub : sub expected given = Ok diff).
  { destruct (sub_two_places_exact s s' (exact_eur_cents c e) (cents c' e'))
      as (sd & Hsub & Hsd).
    - apply exact_eur_cents_bound. lia.
    - apply cents_bound. assumption.
    - unfold diff, d. rewrite <- (Hsd ltac:(lia)). exact Hsub. }
  assert (Hd : Z.abs_N d <> 0%N) by (unfold d; lia).
  split; [|split; [assumption|split; [|split]]].
  - pose proof (verify_row_cents (Finite s c e) s (exact_eur_cents c e) s' c' e'
                  Hexp Hadj') as Hv.
    destruct (Z.eqb_spec (signed_coeff s (exact_eur_cents c e))
                (signed_coeff s' (cents c' e'))) as [Heq|_]; [contradiction|].
    exact Hv.
  - intros r col_name. unfold mismatch_record, py_sub. rewrite Hsub. reflexivity.
  - intros Hlt. unfold diff.
    destruct (Z.ltb_spec d 0) as [Hneg|_]; [unfold d in Hneg; lia|].
    cbn [is_positive]. apply negb_true_iff, N.eqb_neq. assumption.
  - intros Hlt. unfold diff.
    destruct (Z.ltb_spec d 0) as [_|Hpos]; [|unfold d in Hpos; lia].
    cbn [is_negative]. apply negb_true_iff, N.eqb_neq. assumption.
Qed.

Lemma verify_row_mismatch_on_unequal_cents_witness :
  verify_row (Some (Finite false 100 0)) (Some (Finite false 5100 (-2)))
  = (true, Some (Finite false 5113 (-2)), Some (Finite false 5100 (-2))) /\
  sub (Finite false 5113 (-2)) (Finite false 5100 (-2)) = Ok (Finite false 13 (-2)) /\
  (forall r col_name,
      mismatch_record r col_name (Some (Finite false 100 0))
        (Some (Finite false 5113 (-2))) (Some (Finite false 5100 (-2)))
      = Ok {| Row := r; Column := col_name; Source_BGN := "100";
              Calculated_EUR := "51.13"; File_EUR := "51.00"; Diff := "0.13" |}) /\
  (((5100 < 5113)%Z -> is_positive (Finite false 13 (-2)) = true)) /\
  ((5113 < 5100)%Z -> is_negative (Finite false 13 (-2)) = true).
Proof.
  apply (verify_row_mismatch_on_unequal_cents false 100 0 false 5100 (-2)).
  - vm_compute. discriminate.
  - split; vm_compute; [reflexivity|discriminate].
  - vm_compute. discriminate.
  - vm_compute. discriminate.
Defined.

(** C3, as stated, fails for every pair: 100 and 1E+26 both parse, the
    rounded amounts are 51.13 and 10 ^ 26, and no mismatch is reported,
    the rounding of the EUR amount being an InvalidOperation. *)
Lemma unequal_pair_beyond_precision_is_not_flagged :
  parse_decimal (CInt 100) = Ok (Some (Finite false 100 0)) /\
  parse_decimal (CStr "1E+26") = Ok (Some (Finite false 1 26)) /\
  exact_eur_cents 100 0 = 5113%N /\
  cents 1 26 = (10 ^ 28)%N /\
  normalize (Finite false 1 26) = Raise InvalidOperation /\
  verify_row (Some (Finite false 100 0)) (Some (Finite false 1 26))
  = (false, None, None).
Proof.
  repeat split; vm_compute; reflexivity.
Qed.

(** C4: without a BGN value the result is (False, None, None) whatever
    the EUR value; without an EUR value no mismatch is reported whatever
    the BGN value; and the loop appends no record when either cell parses
    to None (empty or not a number). *)
Theorem absent_value_is_not_applicable :
  (forall eur_val, verify_row None eur_val = (false, None, None)) /\
  (forall bgn_val, exists calc, verify_row bgn_val None = (false, calc, None)) /\
  (forall bgn_ws eur_ws r col_name b_idx e_idx bgn_cell eur_cell bgn_val eur_val,
      cell_value bgn_ws r b_idx = Ok bgn_cell ->
      cell_value eur_ws r e_idx = Ok eur_cell ->
      parse_decimal bgn_cell = Ok bgn_val ->
      parse_decimal eur_cell = Ok eur_val ->
      bgn_val = None \/ eur_val = None ->
      check_cell bgn_ws eur_ws r col_name b_idx e_idx = Ok None).
Proof.
  split; [reflexivity|]. split; [apply verify_row_no_eur|].
  intros. eapply check_cell_absent; eassumption.
Qed.

Lemma absent_value_is_not_applicable_witness :
  check_cell [[CStr "Price"]; [CStr "abc"]] [[CStr "Price"]; [CStr "10.00"]]
    2 "Price" 1 1 = Ok None.
Proof.
  apply (proj2 (proj2 absent_value_is_not_applicable)
           [[CStr "Price"]; [CStr "abc"]] [[CStr "Price"]; [CStr "10.00"]]
           2 "Price"%string 1 1 (CStr "abc") (CStr "10.00")
           None (Some (Finite false 1000 (-2)))).
  - reflexivity.
  - reflexivity.
  - vm_compute. reflexivity.
  - vm_compute. reflexivity.
  - left. reflexivity.
Defined.

(** C5, as the code has it. What raises in the division or in either
    rounding gives (False, None, None): an infinity or a signaling NaN
    as BGN or as EUR value, and an EUR amount of 10 ^ 26 or more. A
    quiet NaN raises nothing: with a BGN amount that is a quiet NaN the
    pair is a mismatch carrying the NaN, or no mismatch carrying it when
    there is no EUR value, and so is an EUR amount that is a quiet NaN
    against a BGN amount. The step of the loop around [verify_row]
    returns for every pair of cells. *)
Theorem verify_row_failures_and_nan :
  (forall bgn eur_val,
      is_finite bgn = false -> is_qnan bgn = false ->
      verify_row (Some bgn) eur_val = (false, None, None)) /\
  (forall bgn_val eur,
      is_finite eur = false -> is_qnan eur = false ->
      verify_row bgn_val (Some eur) = (false, None, None)) /\
  (forall bgn_val s c e,
      c <> 0%N -> (26 <= adjusted c e)%Z ->
      verify_row bgn_val (Some (Finite s c e)) = (false, None, None)) /\
  (forall s p s' c' e',
      (adjusted c' e' <= 24)%Z ->
      verify_row (Some (NaN s p)) (Some (Finite s' c' e'))
      = (true, Some (fix_nan (NaN s p)), Some (Finite s' (cents c' e') (-2)))) /\
  (forall s p,
      verify_row (Some (NaN s p)) None = (false, Some (fix_nan (NaN s p)), None)) /\
  (forall s c e s' p',
      (ndigits c <= 27)%Z -> (Emin < adjusted c e <= 18)%Z ->
      verify_row (Some (Finite s c e)) (Some (NaN s' p'))
      = (true, Some (Finite s (exact_eur_cents c e) (-2)), Some (fix_nan (NaN s' p')))) /\
  (forall bgn_ws eur_ws r col_name b_idx e_idx,
      1 <= r -> 1 <= b_idx -> 1 <= e_idx ->
      exists found, check_cell bgn_ws eur_ws r col_name b_idx e_idx = Ok found).
Proof.
  split; [|split; [|split; [|split; [|split; [|split]]]]].
  - intros bgn eur_val Hf Hn. destruct bgn; try discriminate; reflexivity.
  - intros bgn_val eur Hf Hn.
    destruct (normalize_not_finite eur Hf Hn) as [e He].
    apply (verify_row_eur_raises _ _ _ He).
  - intros bgn_val s c e Hc Hadj.
    apply (verify_row_eur_raises _ _ _ (normalize_beyond s c e Hc Hadj)).
  - intros s p s' c' e' Hadj.
    apply verify_row_unequal.
    + apply expected_eur_nan.
    + apply normalize_cents. assumption.
    + destruct (is_qnan_inv _ (fix_nan_qnan s p)) as (s0 & p0 & ->). reflexivity.
  - intros s p. unfold verify_row. rewrite verify_row_body_some, expected_eur_nan.
    reflexivity.
  - intros s c e s' p' Hnd Hadj.
    apply verify_row_unequal.
    + apply expected_eur_exact_cents; assumption.
    + apply normalize_nan.
    + destruct (is_qnan_inv _ (fix_nan_qnan s' p')) as (s0 & p0 & ->). reflexivity.
  - intros. apply check_cell_total; assumption.
Qed.

Lemma verify_row_failures_and_nan_witness :
  verify_row (Some (Finite false 100 0)) (Some (Finite false 1 26)) = (false, None, None).
Proof.
  apply (proj1 (proj2 (proj2 verify_row_failures_and_nan))
           (Some (Finite false 100 0)) false 1%N 26%Z).
  - discriminate.
  - vm_compute. discriminate.
Defined.

(** C5, as stated, fails for a value that is not finite: a float cell
    holding nan parses to a quiet NaN, the rounding of it raises
    nothing, and the pair is reported as a mismatch. *)
Lemma nan_eur_is_reported_as_mismatch :
  parse_decimal (CFloat "nan") = Ok (Some (NaN false 0)) /\
  is_finite (NaN false 0) = false /\
  normalize (NaN false 0) = Ok (NaN false 0) /\
  verify_row_body (Some (Finite false 100 0)) (Some (NaN false 0))
  = Ok (true, Some (Finite false 5113 (-2)), Some (NaN false 0)) /\
  verify_row (Some (Finite false 100 0)) (Some (NaN false 0))
  = (true, Some (Finite false 5113 (-2)), Some (NaN false 0)).
Proof.
  repeat split; vm_compute; reflexivity.
Qed.

(** C6, as the code has it: [parse_decimal] returns None exactly for an
    empty cell and for a cell whose cleaned text Decimal rejects; one and
    the same None, so the caller cannot tell the two apart. *)
Theorem parse_decimal_none_iff (number_str : CellValue) :
  parse_decimal number_str = Ok None <->
  (number_str = CNone \/
   of_string (py_replace "," "." (py_replace " " "" (py_str number_str)))
   = Raise InvalidOperation).
Proof.
  unfold parse_decimal. destruct number_str; cbn [py_str].
  - split; [left; reflexivity|reflexivity].
  - destruct (of_string _) as [d|e] eqn:H.
    + split; [discriminate|intros [|]; discriminate].
    + rewrite (of_string_raise _ _ H). split; [right; reflexivity|reflexivity].
  - destruct (of_string _) as [d|e] eqn:H.
    + split; [discriminate|intros [|]; discriminate].
    + rewrite (of_string_raise _ _ H). split; [right; reflexivity|reflexivity].
  - destruct (of_string _) as [d|e] eqn:H.
    + split; [discriminate|intros [|]; discriminate].
    + rewrite (of_string_raise _ _ H). split; [right; reflexivity|reflexivity].
  - destruct b; destruct (of_string _) as [d|e] eqn:H.
    + split; [discriminate|intros [|]; discriminate].
    + rewrite (of_string_raise _ _ H). split; [right; reflexivity|reflexivity].
    + split; [discriminate|intros [|]; discriminate].
    + rewrite (of_string_raise _ _ H). split; [right; reflexivity|reflexivity].
  - destruct (of_string _) as [d|e] eqn:H.
    + split; [discriminate|intros [|]; discriminate].
    + rewrite (of_string_raise _ _ H). split; [right; reflexivity|reflexivity].
Qed.

Lemma parse_decimal_none_iff_witness : parse_decimal (CStr "abc") = Ok None.
Proof.
  apply (proj2 (parse_decimal_none_iff (CStr "abc"))).
  right. vm_compute. reflexivity.
Defined.

(** C6, as the spec has it, fails: the empty cell and the malformed text
    give the same value. *)
Lemma parse_decimal_empty_same_as_malformed :
  parse_decimal CNone = Ok None /\ parse_decimal (CStr "abc") = Ok None /\
  ~ parse_decimal CNone <> parse_decimal (CStr "abc").
Proof.
  split; [reflexivity|]. split; [reflexivity|]. intros H. apply H. reflexivity.
Qed.

(** C7: a selected column that either header lacks gets no entry in the
    column map, so no cell is compared for it; the run returns, and no
    record names the column. *)
Theorem missing_column_is_skipped (bgn_ws eur_ws : Worksheet)
  (selected_columns : list string) (col_name : string) :
  header_has bgn_ws col_name = false \/ header_has eur_ws col_name = false ->
  (forall idx, ~ In (col_name, idx) (map_columns bgn_ws eur_ws selected_columns [])) /\
  exists out,
    main bgn_ws eur_ws selected_columns = Ok out /\
    forall mismatches m, out = Some mismatches -> In m mismatches ->
                         Column m <> col_name.
Proof.
  intros Hmiss.
  assert (Hnot : forall idx,
             ~ In (col_name, idx) (map_columns bgn_ws eur_ws selected_columns [])).
  { intros [b e] Hin. apply main_column_map in Hin. destruct Hin as (Hb & He & _).
    destruct Hmiss as [H|H]; apply get_column_index_none in H; congruence. }
  split; [assumption|].
  destruct (main_total bgn_ws eur_ws selected_columns) as [out Hout].
  exists out. split; [assumption|].
  intros mismatches m -> Hin Hcol.
  destruct (main_records _ _ _ _ _ Hout Hin) as (b & e & Hmap & _).
  rewrite Hcol in Hmap. exact (Hnot _ Hmap).
Qed.

Lemma missing_column_is_skipped_witness :
  (forall idx, ~ In ("Qty"%string, idx)
                 (map_columns example_bgn example_eur ["Price"; "Qty"]%string [])) /\
  exists out,
    main example_bgn example_eur ["Price"; "Qty"]%string = Ok out /\
    forall mismatches m, out = Some mismatches -> In m mismatches ->
                         Column m <> "Qty"%string.
Proof.
  apply (missing_column_is_skipped example_bgn example_eur
           ["Price"; "Qty"]%string "Qty"%string).
  right. vm_compute. reflexivity.
Defined.

(** C8: the rows scanned are exactly 2 to the larger [max_row], each
    once and in this order: with a selection the run returns, and its
    report is made of the records of these rows, one row after the
    other; it holds the records of the cell pairs of these rows, in the
    selected columns both headers have, that [check_cell] flags, and no
    other. A cell beyond the rows of a sheet reads as empty, without an
    exception; a row beyond either sheet gives no record whatever the
    other sheet holds; so every record's row lies within both sheets. *)
Theorem rows_scanned_and_padded (bgn_ws eur_ws : Worksheet) :
  (forall r, In r (rows_to_check bgn_ws eur_ws) <->
             2 <= r <= Nat.max (max_row bgn_ws) (max_row eur_ws)) /\
  NoDup (rows_to_check bgn_ws eur_ws) /\
  (forall selected_columns, selected_columns <> [] ->
     exists mismatches,
       main bgn_ws eur_ws selected_columns = Ok (Some mismatches) /\
       mismatches
       = scan bgn_ws eur_ws (map_columns bgn_ws eur_ws selected_columns [])
           (seq 2 (Nat.max (max_row bgn_ws) (max_row eur_ws) - 1)) /\
       forall m, In m mismatches <->
         exists r col_name b_idx e_idx,
           2 <= r <= Nat.max (max_row bgn_ws) (max_row eur_ws) /\
           In col_name selected_columns /\
           get_column_index bgn_ws col_name = Some b_idx /\
           get_column_index eur_ws col_name = Some e_idx /\
           check_cell bgn_ws eur_ws r col_name b_idx e_idx = Ok (Some m)) /\
  (forall sheet r c, max_row sheet < r -> 1 <= c -> cell_value sheet r c = Ok CNone) /\
  (forall r col_name b_idx e_idx,
      1 <= b_idx -> 1 <= e_idx ->
      max_row bgn_ws < r \/ max_row eur_ws < r ->
      check_cell bgn_ws eur_ws r col_name b_idx e_idx = Ok None) /\
  (forall selected_columns mismatches m,
      main bgn_ws eur_ws selected_columns = Ok (Some mismatches) ->
      In m mismatches ->
      Row m <= max_row bgn_ws /\ Row m <= max_row eur_ws).
Proof.
  assert (Hpad : forall r col_name b_idx e_idx,
             1 <= b_idx -> 1 <= e_idx ->
             max_row bgn_ws < r \/ max_row eur_ws < r ->
             check_cell bgn_ws eur_ws r col_name b_idx e_idx = Ok None).
  { intros r col_name b e Hb He Hr.
    assert (H1 : 1 <= r) by (unfold max_row in Hr; lia).
    destruct r as [|r']; [lia|]. destruct b as [|b']; [lia|]. destruct e as [|e']; [lia|].
    destruct (parse_decimal_total (nth b' (nth r' bgn_ws []) CNone)) as [bv Hbv].
    destruct (parse_decimal_total (nth e' (nth r' eur_ws []) CNone)) as [ev Hev].
    destruct Hr as [Hr|Hr].
    - pose proof (cell_value_beyond bgn_ws (S r') (S b') Hr Hb) as Hc.
      apply (check_cell_absent bgn_ws eur_ws (S r') col_name (S b') (S e')
               CNone (nth e' (nth r' eur_ws []) CNone) None ev);
        [assumption|reflexivity|reflexivity|assumption|left; reflexivity].
    - pose proof (cell_value_beyond eur_ws (S r') (S e') Hr He) as Hc.
      apply (check_cell_absent bgn_ws eur_ws (S r') col_name (S b') (S e')
               (nth b' (nth r' bgn_ws []) CNone) CNone bv None);
        [reflexivity|assumption|assumption|reflexivity|right; reflexivity]. }
  split; [intros r; apply rows_to_check_in|].
  split; [apply seq_NoDup|].
  split.
  { intros selected_columns Hsel. eexists. split; [apply main_exact; assumption|].
    split; [rewrite rows_to_check_seq; reflexivity|].
    intros m. rewrite scan_in. split.
    - intros (r & [col_name [b e]] & Hr & Hitem & Hm).
      apply cell_records_in in Hm. cbn [fst snd] in Hm.
      apply rows_to_check_in in Hr.
      apply map_columns_in in Hitem. destruct Hitem as [[]|(Hin & Hb & He)].
      exists r, col_name, b, e. repeat split; (assumption || lia).
    - intros (r & col_name & b & e & Hr & Hin & Hb & He & Hm).
      exists r, (col_name, (b, e)). split; [|split].
      + apply rows_to_check_in. assumption.
      + apply map_columns_complete; try assumption. apply consistent_nil.
      + apply cell_records_in. exact Hm. }
  split; [apply cell_value_beyond|].
  split; [assumption|].
  intros selected_columns mismatches m Hmain Hin.
  destruct (main_records _ _ _ _ _ Hmain Hin) as (b & e & Hmap & _ & Hcell).
  destruct (main_column_map _ _ _ _ _ _ Hmap) as (_ & _ & Hb & He).
  destruct (Nat.le_gt_cases (Row m) (max_row bgn_ws)) as [H1|H1];
    destruct (Nat.le_gt_cases (Row m) (max_row eur_ws)) as [H2|H2];
    try (split; assumption);
    rewrite (Hpad (Row m) (Column m) b e Hb He) in Hcell by (left + right; assumption);
    discriminate.
Qed.

Lemma rows_scanned_and_padded_witness :
  (exists mismatches,
     main [[CStr "Price"]; [CInt 100]; [CInt 200]] [[CStr "Price"]; [CStr "51.00"]]
       ["Price"%string] = Ok (Some mismatches) /\
     mismatches
     = scan [[CStr "Price"]; [CInt 100]; [CInt 200]] [[CStr "Price"]; [CStr "51.00"]]
         (map_columns [[CStr "Price"]; [CInt 100]; [CInt 200]]
            [[CStr "Price"]; [CStr "51.00"]] ["Price"%string] [])
         (seq 2 (Nat.max (max_row [[CStr "Price"]; [CInt 100]; [CInt 200]])
                   (max_row [[CStr "Price"]; [CStr "51.00"]]) - 1)) /\
     forall m, In m mismatches <->
       exists r col_name b_idx e_idx,
         2 <= r <= Nat.max (max_row [[CStr "Price"]; [CInt 100]; [CInt 200]])
                     (max_row [[CStr "Price"]; [CStr "51.00"]]) /\
         In col_name ["Price"%string] /\
         get_column_index [[CStr "Price"]; [CInt 100]; [CInt 200]] col_name = Some b_idx /\
         get_column_index [[CStr "Price"]; [CStr "51.00"]] col_name = Some e_idx /\
         check_cell [[CStr "Price"]; [CInt 100]; [CInt 200]] [[CStr "Price"]; [CStr "51.00"]]
           r col_name b_idx e_idx = Ok (Some m)) /\
  check_cell [[CStr "Price"]; [CInt 100]; [CInt 200]] [[CStr "Price"]; [CStr "51.00"]]
    3 "Price" 1 1 = Ok None.
Proof.
  pose proof (rows_scanned_and_padded [[CStr "Price"]; [CInt 100]; [CInt 200]]
                [[CStr "Price"]; [CStr "51.00"]]) as (_ & _ & Hscan & _ & Hpad & _).
  split.
  - apply (Hscan ["Price"%string]). discriminate.
  - apply (Hpad 3 "Price"%string 1 1).
    + apply le_n.
    + apply le_n.
    + right. vm_compute. apply le_n.
Defined.

(** C9: a BGN value of 0 is not None: a cell holding 0 parses to the
    number 0, the expected amount of any zero is 0.00, and the EUR value
    is compared with it: no mismatch when it rounds to zero, a mismatch
    carrying 0.00 when it does not. *)
Theorem zero_bgn_is_compared (s : bool) (e : Z) :
  (parse_decimal (CInt 0) = Ok (Some (Finite false 0 0)) /\
   parse_decimal (CFloat "0.0") = Ok (Some (Finite false 0 (-1))) /\
   parse_decimal (CStr "0,00") = Ok (Some (Finite false 0 (-2)))) /\
  expected_eur (Finite s 0 e) = Ok (Finite s 0 (-2)) /\
  (forall eur g, normalize eur = Ok g -> is_zero g = true ->
                 verify_row (Some (Finite s 0 e)) (Some eur)
                 = (false, Some (Finite s 0 (-2)), None)) /\
  (forall eur g, normalize eur = Ok g -> is_zero g = false ->
                 verify_row (Some (Finite s 0 e)) (Some eur)
                 = (true, Some (Finite s 0 (-2)), Some g)).
Proof.
  assert (Hexp : expected_eur (Finite s 0 e) = Ok (Finite s 0 (-2))).
  { unfold expected_eur, truediv, BGN_TO_EUR_DIVISOR. cbn [check_nans bind].
    change (195583 =? 0)%N with false. change (0 =? 0)%N with true. cbv iota.
    rewrite dec_fix_zero. cbn [bind]. rewrite normalize_zero, xorb_false_r.
    reflexivity. }
  split; [repeat split|]. split; [assumption|]. split.
  - intros eur g Hg Hz. apply (verify_row_equal _ _ _ _ Hexp Hg).
    destruct g as [sg cg eg| | |]; try discriminate.
    cbn in Hz. apply N.eqb_eq in Hz. subst cg. reflexivity.
  - intros eur g Hg Hz. apply (verify_row_unequal _ _ _ _ Hexp Hg).
    destruct (normalize_shape _ _ Hg) as [[_ Hg2]|[_ Hgn]].
    + destruct (is_two_places_inv _ Hg2) as (sg & cg & -> & _).
      cbn in Hz. unfold dec_ne, dec_eq. cbn [check_nans bind]. unfold cmp.
      change (0 =? 0)%N with true. rewrite Hz. destruct sg; reflexivity.
    + destruct (is_qnan_inv _ Hgn) as (sg & pg & ->). reflexivity.
Qed.

Lemma zero_bgn_is_compared_witness :
  verify_row (Some (Finite false 0 0)) (Some (Finite false 4 (-3)))
  = (false, Some (Finite false 0 (-2)), None) /\
  verify_row (Some (Finite false 0 0)) (Some (Finite false 5 0))
  = (true, Some (Finite false 0 (-2)), Some (Finite false 500 (-2))).
Proof.
  split.
  - apply (proj1 (proj2 (proj2 (zero_bgn_is_compared false 0)))
             (Finite false 4 (-3)) (Finite false 0 (-2))).
    + vm_compute. reflexivity.
    + reflexivity.
  - apply (proj2 (proj2 (proj2 (zero_bgn_is_compared false 0)))
             (Finite false 5 0) (Finite false 500 (-2))).
    + vm_compute. reflexivity.
    + reflexivity.
Defined.

(** C10, as the code has it: a reported mismatch carries two amounts that
    are not None and differ (Decimal [!=]); each is a number with exactly
    two decimal places when the value it comes from is finite, and a quiet
    NaN when that value is a quiet NaN. *)
Theorem verify_row_mismatch_invariant (bgn_val eur_val calc given : option decimal) :
  verify_row bgn_val eur_val = (true, calc, given) ->
  exists bgn eur c g,
    bgn_val = Some bgn /\ eur_val = Some eur /\ calc = Some c /\ given = Some g /\
    dec_ne c g = Ok true /\
    ((is_finite bgn = true /\ is_two_places c = true) \/
     (is_qnan bgn = true /\ is_qnan c = true)) /\
    ((is_finite eur = true /\ is_two_places g = true) \/
     (is_qnan eur = true /\ is_qnan g = true)).
Proof.
  intros H.
  destruct (verify_row_true_inv _ _ _ _ H)
    as (bgn & eur & c & g & -> & -> & -> & -> & Hc & Hg & Hne).
  exists bgn, eur, c, g. repeat split; try assumption.
  - apply expected_eur_shape. assumption.
  - apply normalize_shape. assumption.
Qed.

Lemma verify_row_mismatch_invariant_witness :
  exists bgn eur c g,
    Some (Finite false 100 0) = Some bgn /\ Some (Finite false 5100 (-2)) = Some eur /\
    Some (Finite false 5113 (-2)) = Some c /\ Some (Finite false 5100 (-2)) = Some g /\
    dec_ne c g = Ok true /\
    ((is_finite bgn = true /\ is_two_places c = true) \/
     (is_qnan bgn = true /\ is_qnan c = true)) /\
    ((is_finite eur = true /\ is_two_places g = true) \/
     (is_qnan eur = true /\ is_qnan g = true)).
Proof.
  apply (verify_row_mismatch_invariant (Some (Finite false 100 0))
           (Some (Finite false 5100 (-2))) (Some (Finite false 5113 (-2)))
           (Some (Finite false 5100 (-2)))).
  vm_compute. reflexivity.
Defined.

(** C10, as stated, fails: the text NaN parses to a quiet NaN, which goes
    through the division and the rounding unchanged and differs from every
    number; the mismatch then carries an amount without decimal places. *)
Lemma verify_row_mismatch_carries_nan :
  parse_decimal (CStr "NaN") = Ok (Some (NaN false 0)) /\
  verify_row (Some (NaN false 0)) (Some (Finite false 1 0))
  = (true, Some (NaN false 0), Some (Finite false 100 (-2))) /\
  is_two_places (NaN false 0) = false.
Proof.
  repeat split.
Qed.

(** * Properties beyond the claims *)

(** X1: the run never raises. No cell is asked for with an index below 1,
    None is never subtracted, and the subtraction [main] makes outside the
    [try] of [verify_row] cannot raise: the handler around the run is
    never reached from the loop. *)
Theorem main_never_raises (bgn_ws eur_ws : Worksheet) (selected_columns : list string) :
  (exists out, main bgn_ws eur_ws selected_columns = Ok out) /\
  (exists events, main_events bgn_ws eur_ws selected_columns = Ok events).
Proof.
  destruct selected_columns as [|name rest].
  - split; eexists; reflexivity.
  - split; eexists.
    + apply main_exact. discriminate.
    + apply main_events_exact. discriminate.
Qed.

(** X2: no mismatch is left out. For a selected column that both headers
    have and a row of the scan, a mismatch of the two cells puts a record
    in the report, with that row and column and the three amounts. *)
Theorem main_reports_every_mismatch (bgn_ws eur_ws : Worksheet)
  (selected_columns : list string) (mismatches : list Mismatch)
  (r : nat) (col_name : string) (b_idx e_idx : nat) (bgn_cell eur_cell : CellValue)
  (bgn_val eur_val : option decimal) (c g : decimal) :
  main bgn_ws eur_ws selected_columns = Ok (Some mismatches) ->
  In col_name selected_columns ->
  get_column_index bgn_ws col_name = Some b_idx ->
  get_column_index eur_ws col_name = Some e_idx ->
  2 <= r <= Nat.max (max_row bgn_ws) (max_row eur_ws) ->
  cell_value bgn_ws r b_idx = Ok bgn_cell ->
  cell_value eur_ws r e_idx = Ok eur_cell ->
  parse_decimal bgn_cell = Ok bgn_val ->
  parse_decimal eur_cell = Ok eur_val ->
  verify_row bgn_val eur_val = (true, Some c, Some g) ->
  exists m, In m mismatches /\ Row m = r /\ Column m = col_name /\
            Source_BGN m = py_format bgn_val /\
            Calculated_EUR m = to_str c /\ File_EUR m = to_str g.
Proof.
  intros Hmain Hsel Hb He Hr Hbc Hec Hbv Hev Hv.
  apply main_some_selected in Hmain. subst mismatches.
  destruct (verify_row_true_inv _ _ _ _ Hv)
    as (bgn & eur & c' & g' & -> & -> & Hc' & Hg' & Hexp & Hnorm & _).
  injection Hc' as <-. injection Hg' as <-.
  destruct (sub_normalized c g (expected_or_nan _ _ Hexp) (normalized_or_nan _ _ Hnorm))
    as [d Hd].
  exists {| Row := r; Column := col_name; Source_BGN := py_format (Some bgn);
            Calculated_EUR := to_str c; File_EUR := to_str g; Diff := to_str d |}.
  split; [|repeat split].
  apply scan_in. exists r, (col_name, (b_idx, e_idx)). split; [|split].
  - apply rows_to_check_in. assumption.
  - apply map_columns_complete; try assumption. apply consistent_nil.
  - apply cell_records_in. cbn [fst snd]. unfold check_cell.
    rewrite Hbc, Hec. cbn [bind]. rewrite Hbv, Hev. cbn [bind]. rewrite Hv.
    rewrite (mismatch_record_ok _ _ _ _ _ _ Hd). reflexivity.
Qed.

Lemma main_reports_every_mismatch_witness :
  exists m, In m [example_record] /\ Row m = 2 /\ Column m = "Price"%string /\
            Source_BGN m = py_format (Some (Finite false 100 0)) /\
            Calculated_EUR m = to_str (Finite false 5113 (-2)) /\
            File_EUR m = to_str (Finite false 5100 (-2)).
Proof.
  apply (main_reports_every_mismatch example_bgn example_eur ["Price"%string]
           [example_record] 2 "Price"%string 1 1 (CInt 100) (CStr "51.00")
           (Some (Finite false 100 0)) (Some (Finite false 5100 (-2)))).
  - vm_compute. reflexivity.
  - left. reflexivity.
  - reflexivity.
  - reflexivity.
  - vm_compute. split; apply le_n.
  - reflexivity.
  - reflexivity.
  - vm_compute. reflexivity.
  - vm_compute. reflexivity.
  - vm_compute. reflexivity.
Defined.

(** X3: the report is in the order of the rows: the row numbers of its
    records never decrease. *)
Theorem main_report_sorted_by_row (bgn_ws eur_ws : Worksheet)
  (selected_columns : list string) (mismatches : list Mismatch) :
  main bgn_ws eur_ws selected_columns = Ok (Some mismatches) ->
  StronglySorted le (map Row mismatches).
Proof.
  intros Hmain. apply main_some_selected in Hmain. subst mismatches.
  apply scan_rows_sorted. rewrite rows_to_check_seq. apply seq_sorted.
Qed.

Lemma main_report_sorted_by_row_witness :
  StronglySorted le (map Row [example_record]).
Proof.
  apply (main_report_sorted_by_row example_bgn example_eur ["Price"%string]).
  vm_compute. reflexivity.
Defined.

(** X4: a cell pair is reported at most once: no two records of the
    report name the same row and column, even when a column is selected
    more than once. *)
Theorem main_report_one_record_per_cell (bgn_ws eur_ws : Worksheet)
  (selected_columns : list string) (mismatches : list Mismatch) :
  main bgn_ws eur_ws selected_columns = Ok (Some mismatches) ->
  NoDup (map record_key mismatches).
Proof.
  intros Hmain. apply main_some_selected in Hmain. subst mismatches.
  apply scan_nodup.
  - rewrite rows_to_check_seq. apply seq_NoDup.
  - apply map_columns_keys_nodup. constructor.
Qed.

Lemma main_report_one_record_per_cell_witness :
  NoDup (map record_key [example_record]).
Proof.
  apply (main_report_one_record_per_cell example_bgn example_eur
           ["Price"; "Price"]%string).
  vm_compute. reflexivity.
Defined.

(** X5: the column map has one entry for each selected column that both
    headers have, holding its index in either header, and none else; and
    when no column is selected twice the entries are in the order of the
    selection. *)
Theorem column_map_spec (bgn_ws eur_ws : Worksheet) (selected_columns : list string) :
  NoDup (map fst (map_columns bgn_ws eur_ws selected_columns [])) /\
  (forall col_name b e,
      In (col_name, (b, e)) (map_columns bgn_ws eur_ws selected_columns []) <->
      In col_name selected_columns /\
      get_column_index bgn_ws col_name = Some b /\
      get_column_index eur_ws col_name = Some e) /\
  (NoDup selected_columns ->
   map fst (map_columns bgn_ws eur_ws selected_columns [])
   = filter (resolved bgn_ws eur_ws) selected_columns).
Proof.
  split; [apply map_columns_keys_nodup; constructor|]. split.
  - intros col_name b e. split.
    + intros H. apply map_columns_in in H. destruct H as [[]|H]. exact H.
    + intros (Hin & Hb & He). apply map_columns_complete; try assumption.
      apply consistent_nil.
  - intros Hnd. rewrite map_columns_keys_order; [reflexivity|assumption|].
    intros c _ [].
Qed.

Lemma column_map_spec_witness :
  map fst (map_columns example_bgn example_eur ["Qty"; "Price"]%string [])
  = filter (resolved example_bgn example_eur) ["Qty"; "Price"]%string.
Proof.
  apply (proj2 (proj2 (column_map_spec example_bgn example_eur
                         ["Qty"; "Price"]%string))).
  repeat constructor; cbn; intuition discriminate.
Defined.

(** X6: [get_column_index] answers with the position, counted from 1, of
    the first header cell that has a true value and whose trimmed text is
    the trimmed name; it answers None when there is no such cell. *)
Theorem get_column_index_first_match (sheet : Worksheet) (column_name : string) (i : nat) :
  get_column_index sheet column_name = Some i <->
  (1 <= i /\
   exists value,
     nth_error (header_row sheet) (i - 1) = Some value /\
     truthy value = true /\
     py_strip (py_str value) = py_strip column_name /\
     forall j other, j < i - 1 -> nth_error (header_row sheet) j = Some other ->
       truthy other && (py_strip (py_str other) =? py_strip column_name)%string = false).
Proof. unfold get_column_index. apply find_header_some. Qed.

Lemma get_column_index_first_match_witness :
  get_column_index [[CStr "Name"; CNone; CStr " Price"; CStr "Price"]] "Price " = Some 3.
Proof.
  apply (proj2 (get_column_index_first_match
                  [[CStr "Name"; CNone; CStr " Price"; CStr "Price"]] "Price " 3)).
  split; [repeat constructor|]. exists (CStr " Price").
  repeat split.
  intros [|[|j]] other Hj Hother; [| |lia]; injection Hother as <-; reflexivity.
Defined.

(** X7: every name offered for selection is found again in its sheet,
    blanks around a requested name make no difference, and a selected
    name that both sheets offer gets into the column map. *)
Theorem offered_columns_resolve :
  (forall sheet name, In name (headers sheet) ->
                      exists i, get_column_index sheet name = Some i /\ 1 <= i) /\
  (forall sheet name,
      get_column_index sheet (py_strip name) = get_column_index sheet name) /\
  (forall bgn_ws eur_ws selected_columns name,
      common_header bgn_ws eur_ws name = true ->
      In name selected_columns ->
      exists b e, In (name, (b, e)) (map_columns bgn_ws eur_ws selected_columns [])).
Proof.
  assert (Hres : forall sheet name, In name (headers sheet) ->
                   exists i, get_column_index sheet name = Some i /\ 1 <= i).
  { intros sheet name Hin.
    assert (Hstrip : py_strip name = name).
    { apply headers_in in Hin. destruct Hin as (v & _ & _ & <-).
      apply py_strip_idempotent. }
    rewrite <- Hstrip in Hin. apply header_has_in in Hin.
    apply get_column_index_some_iff in Hin. destruct Hin as [i Hi].
    exists i. split; [assumption|]. eapply get_column_index_ge. eassumption. }
  split; [assumption|]. split.
  - intros sheet name. unfold get_column_index. rewrite py_strip_idempotent. reflexivity.
  - intros bgn_ws eur_ws selected_columns name Hcommon Hsel.
    unfold common_header in Hcommon. apply andb_true_iff in Hcommon.
    destruct Hcommon as [Hb He].
    apply existsb_eqb_in in Hb. apply existsb_eqb_in in He.
    destruct (Hres _ _ Hb) as (b & Hgb & _). destruct (Hres _ _ He) as (e & Hge & _).
    exists b, e. apply map_columns_complete; try assumption. apply consistent_nil.
Qed.

Lemma offered_columns_resolve_witness :
  exists b e, In ("Price"%string, (b, e))
                (map_columns example_bgn example_eur ["Qty"; "Price"]%string []).
Proof.
  apply (proj2 (proj2 offered_columns_resolve) example_bgn example_eur
           ["Qty"; "Price"]%string "Price"%string).
  - vm_compute. reflexivity.
  - right. left. reflexivity.
Defined.

(** X8: every value the run hands to the progress bar is one the bar
    accepts: the float comes from a division by a number of rows that is
    not 0 and lies between 0 and 1, the int between 0 and 100. *)
Theorem progress_values_valid (bgn_ws eur_ws : Worksheet)
  (selected_columns : list string) (events : list UiEvent) (value : ProgressValue) :
  main_events bgn_ws eur_ws selected_columns = Ok events ->
  In (ShowProgress value) events ->
  valid_progress value = true.
Proof.
  destruct selected_columns as [|name rest].
  - intros H. injection H as <-. intros [H|[]]. discriminate.
  - rewrite main_events_exact by discriminate.
    intros H. injection H as <-.
    set (total_rows := Nat.max (max_row bgn_ws) (max_row eur_ws) - 1).
    intros Hin. destruct Hin as [H|Hin]; [injection H as <-; reflexivity|].
    apply in_app_or in Hin. destruct Hin as [Hin|Hin].
    + apply in_flat_map in Hin. destruct Hin as (k & Hk & Hin).
      apply in_seq in Hk.
      destruct Hin as [H|[H|[]]]; [|discriminate]. injection H as <-.
      pose proof (Nat.div_mod_eq (total_rows + 99) 100) as Hd.
      pose proof (Nat.mod_upper_bound (total_rows + 99) 100 ltac:(lia)) as Hm.
      clearbody total_rows.
      change (fst (Nat.divmod (total_rows + 99) 99 0 99))
        with ((total_rows + 99) / 100) in Hk.
      revert Hk Hd Hm.
      generalize ((total_rows + 99) / 100), ((total_rows + 99) mod 100).
      intros q md Hk Hd Hm.
      cbn [valid_progress]. apply andb_true_iff. split.
      * apply negb_true_iff, Nat.eqb_neq. lia.
      * apply Nat.leb_le. lia.
    + destruct Hin as [H|[H|[H|[]]]]; try discriminate.
      * injection H as <-. reflexivity.
      * unfold result_event in H.
        destruct (scan bgn_ws eur_ws _ _); discriminate.
Qed.

Lemma progress_values_valid_witness :
  valid_progress (Fraction 1 1) = true.
Proof.
  apply (progress_values_valid example_bgn example_eur ["Price"%string]
           [ShowProgress (Percent 0); ShowProgress (Fraction 1 1);
            ShowStatus "Processing Row 2...";
            ShowProgress (Percent 100); ShowStatus "Done.";
            ShowMismatches 1 [example_record]] (Fraction 1 1)).
  - vm_compute. reflexivity.
  - right. left. reflexivity.
Defined.

(** X9: what a run with a selection shows, in order: the empty bar; for
    the rows 2, 102, 202, ... the fraction of the rows reached and the
    row; the full bar and "Done."; then success, with the number of rows
    scanned and of columns selected, when the scan found nothing, else the
    number of mismatches and their table. *)
Theorem main_events_shape (bgn_ws eur_ws : Worksheet) (selected_columns : list string) :
  selected_columns <> [] ->
  let total_rows := Nat.max (max_row bgn_ws) (max_row eur_ws) - 1 in
  exists mismatches,
    main bgn_ws eur_ws selected_columns = Ok (Some mismatches) /\
    main_events bgn_ws eur_ws selected_columns
    = Ok ([ShowProgress (Percent 0)]
          ++ flat_map (fun k => [ShowProgress (Fraction (100 * k + 1) total_rows);
                                 ShowStatus (processing_row (100 * k + 2))])
               (seq 0 ((total_rows + 99) / 100))
          ++ [ShowProgress (Percent 100); ShowStatus "Done."]
          ++ [match mismatches with
              | [] => ShowSuccess total_rows (List.length selected_columns)
              | _ => ShowMismatches (List.length mismatches) mismatches
              end])%list.
Proof.
  intros Hsel total_rows. eexists. split; [apply main_exact; assumption|].
  apply main_events_exact. assumption.
Qed.

Lemma main_events_shape_witness :
  exists mismatches,
    main example_bgn example_eur ["Price"%string] = Ok (Some mismatches) /\
    main_events example_bgn example_eur ["Price"%string]
    = Ok ([ShowProgress (Percent 0)]
          ++ flat_map (fun k => [ShowProgress (Fraction (100 * k + 1) 1);
                                 ShowStatus (processing_row (100 * k + 2))])
               (seq 0 ((1 + 99) / 100))
          ++ [ShowProgress (Percent 100); ShowStatus "Done."]
          ++ [match mismatches with
              | [] => ShowSuccess 1 (List.length ["Price"%string])
              | _ => ShowMismatches (List.length mismatches) mismatches
              end])%list.
Proof.
  apply (main_events_shape example_bgn example_eur ["Price"%string]).
  discriminate.
Defined.

(** X10: when none of the selected columns is in both headers, nothing
    is compared and the run still ends in success, naming all the rows
    and all the selected columns. *)
Theorem nothing_compared_is_success (bgn_ws eur_ws : Worksheet)
  (selected_columns : list string) :
  selected_columns <> [] ->
  (forall name, In name selected_columns ->
                header_has bgn_ws name = false \/ header_has eur_ws name = false) ->
  map_columns bgn_ws eur_ws selected_columns [] = [] /\
  main bgn_ws eur_ws selected_columns = Ok (Some []) /\
  exists events,
    main_events bgn_ws eur_ws selected_columns
    = Ok (events ++ [ShowSuccess (Nat.max (max_row bgn_ws) (max_row eur_ws) - 1)
                       (List.length selected_columns)])%list.
Proof.
  intros Hsel Hmiss.
  pose proof (map_columns_unresolved bgn_ws eur_ws selected_columns Hmiss []) as Hmap.
  split; [assumption|]. split.
  - rewrite main_exact, Hmap, scan_no_columns by assumption. reflexivity.
  - rewrite main_events_exact, Hmap, scan_no_columns by assumption.
    cbn [result_event]. eexists. rewrite !app_assoc. reflexivity.
Qed.

Lemma nothing_compared_is_success_witness :
  map_columns example_eur example_bgn ["Qty"%string] [] = [] /\
  main example_eur example_bgn ["Qty"%string] = Ok (Some []) /\
  exists events,
    main_events example_eur example_bgn ["Qty"%string]
    = Ok (events ++ [ShowSuccess (Nat.max (max_row example_eur) (max_row example_bgn) - 1)
                       (List.length ["Qty"%string])])%list.
Proof.
  apply (nothing_compared_is_success example_eur example_bgn ["Qty"%string]).
  - discriminate.
  - intros name [<-|[]]. left. vm_compute. reflexivity.
Defined.

Lemma normalize_idempotent_witness :
  normalize (Finite false 100 (-2)) = Ok (Finite false 100 (-2)).
Proof.
  apply (normalize_idempotent (Finite false 1004 (-3)) (Finite false 100 (-2))).
  vm_compute. reflexivity.
Defined.

(** ** Cleaning the text of a cell *)

Lemma string_app_assoc (a b c : string) : ((a ++ b) ++ c = a ++ (b ++ c))%string.
Proof. induction a as [|x a IH]; cbn; [reflexivity|]. rewrite IH. reflexivity. Qed.

Lemma py_replace_app (old : ascii) (new a b : string) :
  py_replace old new (a ++ b)
  = (py_replace old new a ++ py_replace old new b)%string.
Proof.
  induction a as [|x a IH]; cbn; [reflexivity|].
  destruct (Ascii.eqb x old); rewrite IH; [rewrite string_app_assoc|]; reflexivity.
Qed.

(** X11: blanks in the text of a cell are dropped wherever they stand,
    and a comma is read as the decimal point: the text parses as it does
    without the blank, and as it does with a point for the comma. *)
Theorem parse_decimal_blank_and_comma (before after : string) :
  parse_decimal (CStr (before ++ " " ++ after)) = parse_decimal (CStr (before ++ after)) /\
  parse_decimal (CStr (before ++ "," ++ after))
  = parse_decimal (CStr (before ++ "." ++ after)).
Proof.
  unfold parse_decimal. cbn [py_str]. rewrite !py_replace_app. split; reflexivity.
Qed.

(** ** Negated amounts *)

Lemma fix_nan_negate (d : decimal) : fix_nan (copy_negate d) = copy_negate (fix_nan d).
Proof.
  destruct d as [s c e|s|s p|s p]; cbn [copy_negate fix_nan]; try reflexivity;
    destruct (prec <? payload_len p)%Z; reflexivity.
Qed.

Lemma dec_fix_negate (d : decimal) :
  dec_fix (copy_negate d) = (x <- dec_fix d ;; Ok (copy_negate x)).
Proof.
  destruct d as [s c e|s|s p|s p]; cbn [copy_negate].
  - unfold dec_fix.
    destruct (c =? 0)%N; [reflexivity|].
    cbv zeta.
    destruct (Etop <? ndigits c + e - prec)%Z; [reflexivity|].
    destruct (e <? _)%Z; [|reflexivity].
    destruct (if (_ <? 0)%Z then _ else _) as [c1 digits1].
    destruct (if (0 <? _)%Z then _ else _) as [coeff exp_min].
    destruct (Etop <? exp_min)%Z; reflexivity.
  - reflexivity.
  - exact (f_equal Ok (fix_nan_negate (NaN s p))).
  - exact (f_equal Ok (fix_nan_negate (sNaN s p))).
Qed.

Lemma rescale_negate (d : decimal) (exp : Z) (r : rounding_mode) :
  rescale (copy_negate d) exp r = copy_negate (rescale d exp r).
Proof.
  destruct d as [s c e|s|s p|s p]; cbn [copy_negate]; try reflexivity.
  unfold rescale.
  destruct (c =? 0)%N; [reflexivity|].
  destruct (exp <=? e)%Z; [reflexivity|].
  cbv zeta.
  destruct (if (_ <? 0)%Z then _ else _) as [c1 digits1].
  reflexivity.
Qed.

Lemma normalize_negate (x : decimal) :
  normalize (copy_negate x) = (d <- normalize x ;; Ok (copy_negate d)).
Proof.
  destruct x as [s c e|s|s p|s p]; cbn [copy_negate].
  - unfold normalize, quantize, TWO_PLACES. cbn [check_nans bind].
    change (negb ((Etiny <=? -2)%Z && (-2 <=? Emax)%Z)) with false. cbv iota.
    destruct (c =? 0)%N; [exact (dec_fix_negate (Finite s 0 (-2)))|].
    destruct (Emax <? adjusted c e)%Z; [reflexivity|].
    destruct (prec <? adjusted c e - -2 + 1)%Z; [reflexivity|].
    change (Finite (negb s) c e) with (copy_negate (Finite s c e)).
    rewrite rescale_negate.
    destruct (rescale_finite s c e (-2) ROUND_HALF_UP) as [c' ->]. cbn [copy_negate].
    destruct (Emax <? adjusted c' (-2))%Z; [reflexivity|].
    destruct (prec <? ndigits c')%Z; [reflexivity|].
    exact (dec_fix_negate (Finite s c' (-2))).
  - reflexivity.
  - exact (f_equal Ok (fix_nan_negate (NaN s p))).
  - reflexivity.
Qed.

Lemma truediv_negate (bgn : decimal) :
  truediv (copy_negate bgn) BGN_TO_EUR_DIVISOR
  = (q <- truediv bgn BGN_TO_EUR_DIVISOR ;; Ok (copy_negate q)).
Proof.
  destruct bgn as [s c e|s|s p|s p]; cbn [copy_negate].
  - unfold truediv, BGN_TO_EUR_DIVISOR. cbn [check_nans bind].
    change (195583 =? 0)%N with false. cbv iota zeta.
    replace (xorb (negb s) false) with (negb (xorb s false)) by (destruct s; reflexivity).
    generalize (xorb s false). intros sign.
    destruct (c =? 0)%N; [exact (dec_fix_negate (Finite sign 0 _))|].
    destruct (if (0 <=? _)%Z then _ else _) as [coeff remainder].
    destruct (negb (remainder =? 0)%N); [exact (dec_fix_negate (Finite sign _ _))|].
    destruct (strip_zeros _ _ _ _) as [coeff' exp'].
    exact (dec_fix_negate (Finite sign coeff' exp')).
  - unfold truediv, BGN_TO_EUR_DIVISOR. cbn [check_nans bind].
    destruct s; reflexivity.
  - exact (f_equal Ok (fix_nan_negate (NaN s p))).
  - reflexivity.
Qed.

Lemma expected_eur_negate (bgn : decimal) :
  expected_eur (copy_negate bgn) = (c <- expected_eur bgn ;; Ok (copy_negate c)).
Proof.
  unfold expected_eur. rewrite truediv_negate.
  destruct (truediv bgn BGN_TO_EUR_DIVISOR) as [q|]; [|reflexivity]. cbn [bind].
  apply normalize_negate.
Qed.

Lemma sgn_negb (s : bool) : sgn (negb s) = (- sgn s)%Z.
Proof. destruct s; reflexivity. Qed.

Lemma cmp_negate (a b : decimal) :
  cmp (copy_negate a) (copy_negate b) = (- cmp a b)%Z.
Proof.
  destruct a as [s1 c1 e1|s1|s1 p1|s1 p1], b as [s2 c2 e2|s2|s2 p2|s2 p2];
    cbn [copy_negate].
  - unfold cmp. rewrite !sgn_negb, Bool.negb_involutive.
    destruct (c1 =? 0)%N.
    { destruct (c2 =? 0)%N; [reflexivity|lia]. }
    destruct (c2 =? 0)%N; [reflexivity|].
    cbv zeta.
    destruct (adjusted c1 e1 =? adjusted c2 e2)%Z, (adjusted c2 e2 <? adjusted c1 e1)%Z,
      (c1 * pow10 (e1 - e2) =? c2 * pow10 (e2 - e1))%N,
      (c1 * pow10 (e1 - e2) <? c2 * pow10 (e2 - e1))%N, s1, s2; reflexivity.
  - destruct s2; reflexivity.
  - reflexivity.
  - reflexivity.
  - destruct s1; reflexivity.
  - destruct s1, s2; reflexivity.
  - destruct s1; reflexivity.
  - destruct s1; reflexivity.
  - reflexivity.
  - destruct s2; reflexivity.
  - reflexivity.
  - reflexivity.
  - reflexivity.
  - destruct s2; reflexivity.
  - reflexivity.
  - reflexivity.
Qed.

Lemma dec_ne_negate (a b : decimal) :
  dec_ne (copy_negate a) (copy_negate b) = dec_ne a b.
Proof.
  unfold dec_ne, dec_eq.
  assert (Hnans : check_nans (copy_negate a) (copy_negate b)
                  = (nans <- check_nans a b ;; Ok (option_map copy_negate nans))).
  { destruct a as [s1 c1 e1|s1|s1 p1|s1 p1], b as [s2 c2 e2|s2|s2 p2|s2 p2];
      cbn [copy_negate check_nans bind option_map]; try reflexivity;
      match goal with
      | |- Ok (Some (fix_nan (NaN (negb ?s) ?p))) = _ =>
          exact (f_equal (fun d => Ok (Some d)) (fix_nan_negate (NaN s p)))
      end. }
  rewrite Hnans, cmp_negate.
  destruct (check_nans a b) as [[ans|]|]; cbn [bind option_map]; try reflexivity.
  destruct (cmp a b); reflexivity.
Qed.
(** X13: amounts below zero are treated as their mirror image: with both
    values negated [verify_row] gives the same verdict and the negated
    amounts, the rounding being away from zero on either side. *)
Theorem verify_row_negated (bgn_val eur_val : option decimal) :
  verify_row (negate_value bgn_val) (negate_value eur_val)
  = let '(is_mismatch, calc_eur, given_eur) := verify_row bgn_val eur_val in
    (is_mismatch, negate_value calc_eur, negate_value given_eur).
Proof.
  destruct bgn_val as [bgn|]; [|reflexivity]. cbn [negate_value option_map].
  unfold verify_row. rewrite !verify_row_body_some, expected_eur_negate.
  destruct (expected_eur bgn) as [c|]; [|reflexivity]. cbn [bind].
  destruct eur_val as [eur|]; [|reflexivity]. cbn [negate_value option_map].
  rewrite normalize_negate.
  destruct (normalize eur) as [g|]; [|reflexivity]. cbn [bind].
  rewrite dec_ne_negate.
  destruct (dec_ne c g) as [[|]|]; reflexivity.
Qed.

(** X14: for two finite values the verdict compares the two rounded
    amounts as whole numbers of cents with their signs: a mismatch is
    reported exactly when these differ, so 0.00 and -0.00 agree. *)
Theorem mismatch_iff_cents_differ (bgn eur : decimal) (s1 s2 : bool) (c1 c2 : N) :
  expected_eur bgn = Ok (Finite s1 c1 (-2)) ->
  normalize eur = Ok (Finite s2 c2 (-2)) ->
  (verify_row (Some bgn) (Some eur)
   = (true, Some (Finite s1 c1 (-2)), Some (Finite s2 c2 (-2))) <->
   signed_coeff s1 c1 <> signed_coeff s2 c2) /\
  (verify_row (Some bgn) (Some eur) = (false, Some (Finite s1 c1 (-2)), None) <->
   signed_coeff s1 c1 = signed_coeff s2 c2).
Proof.
  intros Hc Hg. unfold verify_row. rewrite verify_row_body_some, Hc. cbn [bind].
  rewrite Hg. cbn [bind]. unfold dec_ne. rewrite dec_eq_finite, cmp_two_places.
  cbn [bind].
  destruct (Z_sgn_of (signed_coeff s1 c1 - signed_coeff s2 c2)) as (Hp & Hm & Hz).
  destruct (Z.lt_trichotomy (signed_coeff s1 c1) (signed_coeff s2 c2)) as [H|[H|H]].
  - rewrite Hm by lia. cbn. split; split; (intros; (lia || discriminate || reflexivity)).
  - rewrite Hz by lia. cbn. split; split; (intros; (lia || discriminate || reflexivity)).
  - rewrite Hp by lia. cbn. split; split; (intros; (lia || discriminate || reflexivity)).
Qed.

Lemma mismatch_iff_cents_differ_witness :
  verify_row (Some (Finite false 100 0)) (Some (Finite false 5100 (-2)))
  = (true, Some (Finite false 5113 (-2)), Some (Finite false 5100 (-2))).
Proof.
  apply (proj2 (proj1 (mismatch_iff_cents_differ (Finite false 100 0)
                         (Finite false 5100 (-2)) false false 5113 5100
                         ltac:(vm_compute; reflexivity) ltac:(vm_compute; reflexivity)))).
  vm_compute. discriminate.
Defined.

(** ** Exact amounts *)

(** X15: [normalize] rounds half up, exactly: a finite amount under
    10 ^ 25 becomes its number of cents, a half cent going away from
    zero, with the sign kept. *)
Theorem normalize_rounds_half_up (s : bool) (c : N) (e : Z) :
  (adjusted c e <= 24)%Z ->
  normalize (Finite s c e) = Ok (Finite s (cents c e) (-2)).
Proof. exact (normalize_cents s c e). Qed.

Lemma normalize_rounds_half_up_witness :
  normalize (Finite true 1005 (-3)) = Ok (Finite true 101 (-2)).
Proof.
  apply (normalize_rounds_half_up true 1005 (-3)).
  vm_compute. discriminate.
Defined.

(** X16: an EUR amount of 10 ^ 26 or more is never reported: [normalize]
    raises InvalidOperation on it, and [verify_row] answers
    (False, None, None) whatever the BGN amount is. *)
Theorem huge_eur_is_never_flagged (bgn_val : option decimal) (s : bool) (c : N) (e : Z) :
  c <> 0%N -> (26 <= adjusted c e)%Z ->
  normalize (Finite s c e) = Raise InvalidOperation /\
  verify_row bgn_val (Some (Finite s c e)) = (false, None, None).
Proof.
  intros Hc Hadj. pose proof (normalize_beyond s c e Hc Hadj) as Hn.
  split; [assumption|].
  destruct bgn_val as [bgn|]; [|reflexivity].
  unfold verify_row. rewrite verify_row_body_some.
  destruct (expected_eur bgn) as [calc|]; [|reflexivity]. cbn [bind].
  rewrite Hn. reflexivity.
Qed.

Lemma huge_eur_is_never_flagged_witness :
  normalize (Finite false 1 26) = Raise InvalidOperation /\
  verify_row (Some (Finite false 100 0)) (Some (Finite false 1 26)) = (false, None, None).
Proof.
  apply (huge_eur_is_never_flagged (Some (Finite false 100 0)) false 1 26).
  - discriminate.
  - vm_compute. discriminate.
Defined.

(** X17: for a BGN amount of at most 27 digits, under 10 ^ 19 and not
    zero, the amount [verify_row] calculates is the exact quotient by
    1.95583 rounded half up to cents: the 28 digits of the division
    lose nothing. Against an EUR amount under 10 ^ 25 the verdict is a
    mismatch exactly when that number of cents differs from the EUR
    amount's own, rounded half up. *)
Theorem verify_row_exact (s : bool) (c : N) (e : Z) :
  c <> 0%N -> (ndigits c <= 27)%Z -> (Emin < adjusted c e <= 18)%Z ->
  verify_row (Some (Finite s c e)) None
  = (false, Some (Finite s (exact_eur_cents c e) (-2)), None) /\
  forall (s' : bool) (c' : N) (e' : Z),
    (adjusted c' e' <= 24)%Z ->
    verify_row (Some (Finite s c e)) (Some (Finite s' c' e'))
    = if (signed_coeff s (exact_eur_cents c e) =? signed_coeff s' (cents c' e'))%Z
      then (false, Some (Finite s (exact_eur_cents c e) (-2)), None)
      else (true, Some (Finite s (exact_eur_cents c e) (-2)),
            Some (Finite s' (cents c' e') (-2))).
Proof.
  intros Hc Hnd Hadj.
  pose proof (expected_eur_cents s c e Hc Hnd Hadj) as Hexp. split.
  - unfold verify_row. rewrite verify_row_body_some, Hexp. reflexivity.
  - intros s' c' e' Hadj'. apply verify_row_cents; assumption.
Qed.

Lemma verify_row_exact_witness :
  verify_row (Some (Finite false 100 0)) (Some (Finite false 51125 (-3)))
  = (false, Some (Finite false 5113 (-2)), None).
Proof.
  apply (proj2 (verify_row_exact false 100 0 ltac:(discriminate)
                  ltac:(vm_compute; discriminate)
                  ltac:(split; vm_compute; [reflexivity|discriminate]))
           false 51125%N (-3)%Z).
  vm_compute. discriminate.
Defined.

(** X18: the Diff of a record is the exact difference: for two amounts
    of cents up to 10 ^ 27 that differ, the record holds the calculated
    amount minus the given one, to the cent, with its sign. *)
Theorem diff_is_the_exact_difference (r : nat) (col_name : string)
  (bgn_val : option decimal) (s1 s2 : bool) (c1 c2 : N) :
  (c1 <= pow10 27)%N -> (c2 <= pow10 27)%N ->
  signed_coeff s1 c1 <> signed_coeff s2 c2 ->
  mismatch_record r col_name bgn_val
    (Some (Finite s1 c1 (-2))) (Some (Finite s2 c2 (-2)))
  = Ok {| Row := r;
          Column := col_name;
          Source_BGN := py_format bgn_val;
          Calculated_EUR := to_str (Finite s1 c1 (-2));
          File_EUR := to_str (Finite s2 c2 (-2));
          Diff := to_str (Finite (signed_coeff s1 c1 - signed_coeff s2 c2 <? 0)%Z
                            (Z.abs_N (signed_coeff s1 c1 - signed_coeff s2 c2)) (-2)) |}.
Proof.
  intros Hb1 Hb2 Hne.
  destruct (sub_two_places_exact s1 s2 c1 c2 Hb1 Hb2) as (sd & Hsub & Hsd).
  unfold mismatch_record, py_sub. rewrite Hsub. cbn [bind py_format].
  rewrite (Hsd ltac:(lia)). reflexivity.
Qed.

Lemma diff_is_the_exact_difference_witness :
  mismatch_record 2 "Price" (Some (Finite false 100 0))
    (Some (Finite false 5113 (-2))) (Some (Finite false 5100 (-2)))
  = Ok example_record.
Proof.
  apply (diff_is_the_exact_difference 2 "Price" (Some (Finite false 100 0))
           false false 5113 5100).
  - vm_compute. discriminate.
  - vm_compute. discriminate.
  - vm_compute. discriminate.
Defined.

(** * Amounts as text *)

(** ** Numbers written in digits *)

(** The characters of a number written in digits. *)
Lemma digit_char (a : ascii) :
  is_digit a = true ->
  is_space a = false /\ Ascii.eqb a "_" = false /\ a <> "-"%char /\ a <> "+"%char.
Proof.
  destruct a as [[] [] [] [] [] [] [] []]; vm_compute; intros H;
    try discriminate H; repeat split; discriminate.
Qed.

Lemma uint_chars_digits (d : Decimal.uint) :
  Forall (fun a => is_digit a = true) (list_ascii_of_string (NilEmpty.string_of_uint d)).
Proof.
  induction d; cbn [NilEmpty.string_of_uint list_ascii_of_string]; constructor;
    (reflexivity || assumption).
Qed.

Lemma int_of_uint_acc (d : Decimal.uint) :
  forall acc : positive,
    fold_left (fun acc d => (acc * 10 + (N_of_ascii d - 48))%N)
      (list_ascii_of_string (NilEmpty.string_of_uint d)) (Npos acc)
    = Npos (Pos.of_uint_acc d acc).
Proof.
  induction d; intros acc;
    cbn [NilEmpty.string_of_uint list_ascii_of_string fold_left Pos.of_uint_acc];
    try reflexivity.
  all: rewrite <- IHd; f_equal;
    match goal with
    | |- context [(N_of_ascii ?a - 48)%N] =>
        let v := eval vm_compute in (N_of_ascii a - 48)%N in
        change (N_of_ascii a - 48)%N with v
    end; lia.
Qed.

Lemma int_of_uint (d : Decimal.uint) :
  int_of_digits (list_ascii_of_string (NilEmpty.string_of_uint d)) = N.of_uint d.
Proof.
  unfold int_of_digits, N.of_uint.
  induction d;
    cbn [NilEmpty.string_of_uint list_ascii_of_string fold_left Pos.of_uint];
    try reflexivity; try assumption;
    exact (int_of_uint_acc d _).
Qed.

Lemma digits_str_chars (n : N) :
  exists a t,
    list_ascii_of_string (digits_str n) = a :: t /\
    Forall (fun a => is_digit a = true) (a :: t) /\
    int_of_digits (a :: t) = n.
Proof.
  assert (Hstr : digits_str n = NilEmpty.string_of_uint (N.to_uint n)).
  { unfold digits_str, NilZero.string_of_uint.
    destruct (N.to_uint n) eqn:Hd; try reflexivity.
    destruct n as [|p]; [discriminate|].
    exfalso. exact (DecimalPos.Unsigned.to_uint_nonnil p Hd). }
  pose proof (uint_chars_digits (N.to_uint n)) as Hall.
  pose proof (int_of_uint (N.to_uint n)) as Hint.
  rewrite DecimalN.Unsigned.of_to in Hint.
  rewrite <- Hstr in Hall, Hint.
  destruct (list_ascii_of_string (digits_str n)) as [|a t] eqn:Hl.
  - exfalso. rewrite Hstr in Hl.
    destruct (N.to_uint n) eqn:Hd; try discriminate Hl.
    destruct n as [|p]; [discriminate|].
    exact (DecimalPos.Unsigned.to_uint_nonnil p Hd).
  - exists a, t. repeat split; assumption.
Qed.

Lemma lstrip_no_space (l : list ascii) :
  Forall (fun a => is_space a = false) l -> lstrip l = l.
Proof. intros H. destruct H as [|a t Ha _]; [reflexivity|]. cbn. rewrite Ha. reflexivity. Qed.

Lemma strip_no_space (l : list ascii) :
  Forall (fun a => is_space a = false) l -> strip l = l.
Proof.
  intros H. unfold strip. rewrite (lstrip_no_space l H).
  rewrite lstrip_no_space by (apply Forall_rev; assumption).
  apply rev_involutive.
Qed.

Lemma filter_all {A : Type} (f : A -> bool) (l : list A) :
  Forall (fun a => f a = true) l -> filter f l = l.
Proof.
  induction 1 as [|a t Ha _ IH]; [reflexivity|]. cbn. rewrite Ha, IH. reflexivity.
Qed.

Lemma span_digits_all (l : list ascii) :
  Forall (fun a => is_digit a = true) l -> span_digits l = (l, []).
Proof.
  induction 1 as [|a t Ha _ IH]; [reflexivity|]. cbn. rewrite Ha, IH. reflexivity.
Qed.

(** A number written in digits, with or without a minus sign, is read
    back as it is, with exponent 0. *)
Lemma of_string_digits (sign : bool) (n : N) :
  (ndigits n <= MAX_EMAX + 1)%Z ->
  of_string (sign_str sign ++ digits_str n) = Ok (Finite sign n 0).
Proof.
  intros Hfit.
  destruct (digits_str_chars n) as (a & t & Hl & Hall & Hint).
  assert (Hchars : Forall (fun a => is_space a = false /\ Ascii.eqb a "_" = false)
                     (a :: t)).
  { eapply Forall_impl; [|exact Hall]. intros x Hx.
    destruct (digit_char x Hx) as (H1 & H2 & _). split; assumption. }
  assert (Hhead : a <> "-"%char /\ a <> "+"%char).
  { inversion Hall as [|? ? Ha _]. destruct (digit_char a Ha) as (_ & _ & H3 & H4).
    split; assumption. }
  assert (Hbody : parse_finite (a :: t) = Some (n, 0%Z)).
  { unfold parse_finite. rewrite (span_digits_all _ Hall).
    cbn [parse_exponent List.length]. rewrite List.app_nil_r, Hint. reflexivity. }
  assert (Hfits : exact_fits n 0 = true).
  { unfold exact_fits, adjusted. apply andb_true_iff. split.
    - reflexivity.
    - apply Z.leb_le. lia. }
  set (l := (if sign then "-"%char :: a :: t else a :: t)).
  assert (Hlist : list_ascii_of_string (sign_str sign ++ digits_str n) = l).
  { unfold l. destruct sign; cbn [sign_str append list_ascii_of_string]; rewrite Hl;
      reflexivity. }
  assert (Hclean : filter (fun a => negb (Ascii.eqb a "_")) (strip l) = l).
  { assert (Hl' : Forall (fun a => is_space a = false /\ Ascii.eqb a "_" = false) l).
    { unfold l. destruct sign; [constructor; [split; reflexivity|]|]; assumption. }
    rewrite strip_no_space by (eapply Forall_impl; [|exact Hl']; intros x [H _]; exact H).
    apply filter_all. eapply Forall_impl; [|exact Hl'].
    intros x [_ H]. rewrite H. reflexivity. }
  unfold of_string. rewrite Hlist, Hclean. unfold l.
  destruct sign.
  - rewrite Hbody, Hfits. reflexivity.
  - destruct Hhead as [Hm Hp].
    assert (Hsplit : match a :: t with
                     | "-"%char :: u => (true, u)
                     | "+"%char :: u => (false, u)
                     | _ => (false, a :: t)
                     end = (false, a :: t)).
    { destruct a as [[] [] [] [] [] [] [] []]; try reflexivity; contradiction. }
    rewrite Hsplit, Hbody, Hfits. reflexivity.
Qed.

Lemma py_replace_absent (old : ascii) (new s : string) :
  Forall (fun a => Ascii.eqb a old = false) (list_ascii_of_string s) ->
  py_replace old new s = s.
Proof.
  induction s as [|a s IH]; cbn [list_ascii_of_string py_replace]; [reflexivity|].
  intros H. inversion H as [|? ? Ha Hs]. rewrite Ha, (IH Hs). reflexivity.
Qed.

Lemma digit_not_separator (a : ascii) :
  is_digit a = true -> Ascii.eqb a " " = false /\ Ascii.eqb a "," = false.
Proof.
  destruct a as [[] [] [] [] [] [] [] []]; vm_compute; intros H;
    try discriminate H; split; reflexivity.
Qed.

(** X19: an integer cell is read exactly: [parse_decimal] gives the
    integer itself, its sign apart from its digits, with exponent 0. The
    4300 digits are the most [str] writes of an integer. *)
Theorem parse_decimal_int (z : Z) :
  (ndigits (Z.abs_N z) <= 4300)%Z ->
  parse_decimal (CInt z) = Ok (Some (Finite (z <? 0)%Z (Z.abs_N z) 0)).
Proof.
  intros Hn. unfold parse_decimal. cbn [py_str].
  assert (Hstr : (if (z <? 0)%Z then ("-" ++ digits_str (Z.to_N (- z)))%string
                  else digits_str (Z.to_N z))
                 = (sign_str (z <? 0)%Z ++ digits_str (Z.abs_N z))%string).
  { destruct (Z.ltb_spec z 0) as [Hneg|Hpos]; cbn [sign_str append]; do 2 f_equal; lia. }
  rewrite Hstr.
  assert (Hclean : py_replace "," "." (py_replace " " ""
                     (sign_str (z <? 0)%Z ++ digits_str (Z.abs_N z)))
                   = (sign_str (z <? 0)%Z ++ digits_str (Z.abs_N z))%string).
  { destruct (digits_str_chars (Z.abs_N z)) as (a & t & Hl & Hall & _).
    assert (Hsep : forall sep, sep = " "%char \/ sep = ","%char ->
              Forall (fun a => Ascii.eqb a sep = false)
                (list_ascii_of_string (sign_str (z <? 0)%Z ++ digits_str (Z.abs_N z)))).
    { intros sep Hsep.
      assert (Hd : Forall (fun a => Ascii.eqb a sep = false) (a :: t)).
      { eapply Forall_impl; [|exact Hall]. intros x Hx.
        destruct (digit_not_separator x Hx) as [H1 H2].
        destruct Hsep as [->| ->]; assumption. }
      destruct (z <? 0)%Z; cbn [sign_str append list_ascii_of_string]; rewrite Hl;
        [constructor; [destruct Hsep as [->| ->]; reflexivity|]|]; assumption. }
    rewrite (py_replace_absent " " "") by (apply Hsep; left; reflexivity).
    apply py_replace_absent. apply Hsep. right. reflexivity. }
  rewrite Hclean, of_string_digits; [reflexivity|]. unfold MAX_EMAX. lia.
Qed.

Lemma parse_decimal_int_witness :
  parse_decimal (CInt (-1250)) = Ok (Some (Finite true 1250 0)).
Proof.
  apply (parse_decimal_int (-1250)). vm_compute. discriminate.
Defined.

(** ** Numbers written with a point *)

Lemma chars_app (a b : string) :
  list_ascii_of_string (a ++ b)
  = (list_ascii_of_string a ++ list_ascii_of_string b)%list.
Proof. induction a as [|x a IH]; cbn; [reflexivity|]. rewrite IH. reflexivity. Qed.

Lemma chars_length (s : string) :
  List.length (list_ascii_of_string s) = String.length s.
Proof. induction s as [|x s IH]; cbn; [reflexivity|]. rewrite IH. reflexivity. Qed.

Lemma chars_substring (s : string) :
  forall n m,
    list_ascii_of_string (substring n m s)
    = firstn m (skipn n (list_ascii_of_string s)).
Proof.
  induction s as [|x s IH]; intros n m.
  - destruct n, m; reflexivity.
  - destruct n as [|n].
    + destruct m as [|m]; [reflexivity|]. cbn. rewrite IH. reflexivity.
    + cbn. apply IH.
Qed.

Lemma chars_zeros (n : nat) : list_ascii_of_string (zeros n) = repeat "0"%char n.
Proof. induction n as [|n IH]; cbn; [reflexivity|]. rewrite IH. reflexivity. Qed.

Lemma chars_inj (a b : string) :
  list_ascii_of_string a = list_ascii_of_string b -> a = b.
Proof.
  intros H. rewrite <- (string_of_list_ascii_of_string a),
    <- (string_of_list_ascii_of_string b), H. reflexivity.
Qed.

Lemma int_of_digits_zeros (n : nat) (l : list ascii) :
  int_of_digits (repeat "0"%char n ++ l) = int_of_digits l.
Proof.
  unfold int_of_digits. induction n as [|n IH]; [reflexivity|]. cbn [repeat app fold_left].
  exact IH.
Qed.

Lemma span_digits_app (ip r : list ascii) (x : ascii) :
  Forall (fun a => is_digit a = true) ip -> is_digit x = false ->
  span_digits (ip ++ x :: r) = (ip, x :: r).
Proof.
  intros Hip Hx. induction Hip as [|a t Ha _ IH]; cbn.
  - rewrite Hx. reflexivity.
  - rewrite Ha, IH. reflexivity.
Qed.

(** A number written plainly, its digits around a point, is read as
    these digits with the count of those after the point as exponent. *)
Lemma of_string_plain (sign : bool) (ip fp : list ascii) :
  ip <> [] ->
  Forall (fun a => is_digit a = true) ip -> Forall (fun a => is_digit a = true) fp ->
  exact_fits (int_of_digits (ip ++ fp)) (- Z.of_nat (List.length fp)) = true ->
  of_string (string_of_list_ascii
               ((if sign then ["-"%char] else []) ++ ip ++ "."%char :: fp))
  = Ok (Finite sign (int_of_digits (ip ++ fp)) (- Z.of_nat (List.length fp))).
Proof.
  intros Hne Hip Hfp Hfits.
  set (body := (ip ++ "."%char :: fp)%list).
  assert (Hbody : Forall (fun a => is_space a = false /\ Ascii.eqb a "_" = false) body).
  { unfold body. apply Forall_app. split; [|constructor; [split; reflexivity|]].
    - eapply Forall_impl; [|exact Hip]. intros x Hx.
      destruct (digit_char x Hx) as (H1 & H2 & _). split; assumption.
    - eapply Forall_impl; [|exact Hfp]. intros x Hx.
      destruct (digit_char x Hx) as (H1 & H2 & _). split; assumption. }
  assert (Hparse : parse_finite body = Some (int_of_digits (ip ++ fp),
                                             (- Z.of_nat (List.length fp))%Z)).
  { unfold parse_finite, body. rewrite (span_digits_app ip fp "." Hip eq_refl).
    rewrite (span_digits_all fp Hfp).
    destruct ip as [|a t]; [contradiction|]. cbn [parse_exponent]. reflexivity. }
  set (l := ((if sign then ["-"%char] else []) ++ body)%list).
  assert (Hclean : filter (fun a => negb (Ascii.eqb a "_")) (strip l) = l).
  { assert (Hl' : Forall (fun a => is_space a = false /\ Ascii.eqb a "_" = false) l).
    { unfold l. destruct sign; [constructor; [split; reflexivity|]|]; assumption. }
    rewrite strip_no_space by (eapply Forall_impl; [|exact Hl']; intros x [H _]; exact H).
    apply filter_all. eapply Forall_impl; [|exact Hl'].
    intros x [_ H]. rewrite H. reflexivity. }
  unfold of_string. rewrite list_ascii_of_string_of_list_ascii. fold body. fold l.
  rewrite Hclean. unfold l.
  destruct sign; cbn [app].
  - rewrite Hparse, Hfits. reflexivity.
  - assert (Hsplit : match body with
                     | "-"%char :: u => (true, u)
                     | "+"%char :: u => (false, u)
                     | _ => (false, body)
                     end = (false, body)).
    { unfold body. destruct ip as [|a t]; [contradiction|].
      inversion Hip as [|? ? Ha _]. destruct (digit_char a Ha) as (_ & _ & H3 & H4).
      cbn [app]. destruct a as [[] [] [] [] [] [] [] []]; try reflexivity; contradiction. }
    rewrite Hsplit, Hparse, Hfits. reflexivity.
Qed.

Lemma Forall_firstn_digits {A : Type} (P : A -> Prop) (n : nat) (l : list A) :
  Forall P l -> Forall P (firstn n l).
Proof.
  intros H. apply Forall_forall. intros x Hx.
  rewrite Forall_forall in H. apply H.
  rewrite <- (firstn_skipn n l). apply in_or_app. left. assumption.
Qed.

Lemma Forall_skipn_digits {A : Type} (P : A -> Prop) (n : nat) (l : list A) :
  Forall P l -> Forall P (skipn n l).
Proof.
  intros H. apply Forall_forall. intros x Hx.
  rewrite Forall_forall in H. apply H.
  rewrite <- (firstn_skipn n l). apply in_or_app. right. assumption.
Qed.

(** How a number with two places is written: the sign, digits, a
    point and two digits, which together are its coefficient. *)
Lemma to_str_two_places (s : bool) (c : N) :
  exists ip fp,
    to_str (Finite s c (-2))
    = string_of_list_ascii ((if s then ["-"%char] else []) ++ ip ++ "."%char :: fp) /\
    ip <> [] /\
    Forall (fun a => is_digit a = true) ip /\ Forall (fun a => is_digit a = true) fp /\
    List.length fp = 2 /\ int_of_digits (ip ++ fp) = c.
Proof.
  destruct (digits_str_chars c) as (a & t & Hl & Hall & Hint).
  set (l := a :: t) in *.
  assert (Hlen : String.length (digits_str c) = List.length l).
  { rewrite <- chars_length, Hl. reflexivity. }
  assert (Hpos : 1 <= List.length l) by (unfold l; cbn; lia).
  assert (Hsign : forall rest, list_ascii_of_string (sign_str s ++ rest)
                               = ((if s then ["-"%char] else []) ++ list_ascii_of_string rest)%list).
  { intros rest. destruct s; reflexivity. }
  unfold to_str. cbv zeta. rewrite Hlen.
  set (n := List.length l) in *.
  change (-2 <=? 0)%Z with true. cbn [andb].
  destruct (Z.ltb_spec (-6) (-2 + Z.of_nat n)) as [_|]; [|lia].
  rewrite Z.eqb_refl.
  destruct (Z.leb_spec (-2 + Z.of_nat n) 0) as [Hsmall|Hbig].
  - exists ["0"%char], (repeat "0"%char (2 - n) ++ l)%list.
    split; [|split; [discriminate|split; [repeat constructor|split; [|split]]]].
    + apply chars_inj. rewrite list_ascii_of_string_of_list_ascii.
      rewrite Hsign. f_equal.
      rewrite !chars_app, chars_zeros, Hl. cbn [list_ascii_of_string app].
      rewrite app_nil_r.
      replace (Z.to_nat (- (-2 + Z.of_nat n))) with (2 - n) by lia. reflexivity.
    + apply Forall_app. split; [|assumption].
      apply Forall_forall. intros x Hx. apply repeat_spec in Hx. subst x. reflexivity.
    + rewrite length_app, repeat_length. fold n. lia.
    + cbn [app]. change ("0"%char :: repeat "0"%char (2 - n) ++ l)%list
        with (repeat "0"%char (S (2 - n)) ++ l)%list.
      rewrite int_of_digits_zeros. assumption.
  - destruct (Z.leb_spec (Z.of_nat n) (-2 + Z.of_nat n)) as [|_]; [lia|].
    exists (firstn (n - 2) l), (skipn (n - 2) l).
    split; [|split; [|split; [|split; [|split]]]].
    + apply chars_inj. rewrite list_ascii_of_string_of_list_ascii.
      rewrite Hsign. f_equal.
      rewrite !chars_app, !chars_substring, Hl. cbn [list_ascii_of_string app skipn].
      rewrite app_nil_r.
      replace (Z.to_nat (-2 + Z.of_nat n)) with (n - 2) by lia.
      replace (Z.to_nat (Z.of_nat n - (-2 + Z.of_nat n))) with 2 by lia.
      f_equal. f_equal. apply firstn_all2. rewrite length_skipn. fold n. lia.
    + intros H. apply (f_equal (@List.length ascii)) in H.
      rewrite length_firstn in H. fold n in H.
      change (List.length (@nil ascii)) with 0 in H. lia.
    + apply Forall_firstn_digits. assumption.
    + apply Forall_skipn_digits. assumption.
    + rewrite length_skipn. fold n. lia.
    + rewrite firstn_skipn. assumption.
Qed.

(** X20: the amounts of a record read back. The text of a number with
    two places, as the record holds it, is the sign, digits, a point
    and two digits, with no exponent, and [Decimal] of that text is
    the number again. *)
Theorem report_amount_reads_back (s : bool) (c : N) :
  (ndigits c <= prec)%Z ->
  of_string (to_str (Finite s c (-2))) = Ok (Finite s c (-2)) /\
  exists int_digits frac_digits,
    to_str (Finite s c (-2))
    = (sign_str s ++ string_of_list_ascii int_digits ++ "."
       ++ string_of_list_ascii frac_digits)%string /\
    int_digits <> [] /\ List.length frac_digits = 2 /\
    Forall (fun a => is_digit a = true) (int_digits ++ frac_digits).
Proof.
  intros Hn.
  destruct (to_str_two_places s c) as (ip & fp & Hstr & Hne & Hip & Hfp & Hlen & Hint).
  split.
  - rewrite Hstr, of_string_plain; try assumption.
    + rewrite Hint, Hlen. reflexivity.
    + rewrite Hint, Hlen. unfold exact_fits, adjusted. apply andb_true_iff.
      split; [reflexivity|]. apply Z.leb_le. unfold MAX_EMAX. unfold prec in Hn.
      change (Z.of_nat 2) with 2%Z. lia.
  - exists ip, fp. split; [|split; [assumption|split; [assumption|]]].
    + rewrite Hstr. apply chars_inj. rewrite list_ascii_of_string_of_list_ascii.
      destruct s; cbn [sign_str append list_ascii_of_string app];
        rewrite ?chars_app; cbn [list_ascii_of_string app];
        rewrite ?chars_app; cbn [list_ascii_of_string app];
        rewrite !list_ascii_of_string_of_list_ascii; reflexivity.
    + apply Forall_app. split; assumption.
Qed.

Lemma report_amount_reads_back_witness :
  of_string (to_str (Finite false 5 (-2))) = Ok (Finite false 5 (-2)).
Proof.
  apply (proj1 (report_amount_reads_back false 5 ltac:(vm_compute; discriminate))).
Defined.

(** ** Amounts typed as text *)

Lemma digit_value (a : ascii) : is_digit a = true -> (N_of_ascii a - 48 <= 9)%N.
Proof.
  destruct a as [[] [] [] [] [] [] [] []]; vm_compute; intros H;
    try discriminate H; discriminate.
Qed.

Lemma fold_digits_lt (l : list ascii) :
  Forall (fun a => is_digit a = true) l ->
  forall (acc : N) (k : Z),
    (0 <= k)%Z -> (acc < pow10 k)%N ->
    (fold_left (fun acc d => (acc * 10 + (N_of_ascii d - 48))%N) l acc
     < pow10 (k + Z.of_nat (List.length l)))%N.
Proof.
  induction 1 as [|a t Ha _ IH]; intros acc k Hk Hacc.
  - cbn [fold_left List.length]. rewrite Z.add_0_r. assumption.
  - cbn [fold_left List.length].
    replace (k + Z.of_nat (S (List.length t)))%Z
      with ((k + 1) + Z.of_nat (List.length t))%Z by lia.
    apply IH; [lia|]. rewrite pow10_succ by assumption.
    pose proof (digit_value a Ha). lia.
Qed.

Lemma int_of_digits_digits (l : list ascii) :
  l <> [] -> Forall (fun a => is_digit a = true) l ->
  (ndigits (int_of_digits l) <= Z.of_nat (List.length l))%Z.
Proof.
  intros Hne Hl. apply ndigits_lt_pow10.
  - destruct l; [contradiction|]. cbn [List.length]. lia.
  - apply (fold_digits_lt l Hl 0%N 0%Z); [lia|reflexivity].
Qed.

Lemma string_of_chars_app (a b : list ascii) :
  string_of_list_ascii (a ++ b)
  = (string_of_list_ascii a ++ string_of_list_ascii b)%string.
Proof. induction a as [|x a IH]; cbn; [reflexivity|]. rewrite IH. reflexivity. Qed.

Lemma py_replace_chars_absent (old : ascii) (new : string) (l : list ascii) :
  Forall (fun a => Ascii.eqb a old = false) l ->
  py_replace old new (string_of_list_ascii l) = string_of_list_ascii l.
Proof.
  intros H. apply py_replace_absent. rewrite list_ascii_of_string_of_list_ascii.
  assumption.
Qed.

(** X21: a text cell that writes an amount plainly, digits, a comma
    or a point, and digits, with or without a minus sign, is read as
    that amount: the digits as the coefficient, the count of those
    after the separator as the exponent below zero. *)
Theorem parse_decimal_text_amount (sign : bool) (int_digits frac_digits : list ascii)
  (sep : ascii) :
  sep = ","%char \/ sep = "."%char ->
  int_digits <> [] ->
  Forall (fun a => is_digit a = true) (int_digits ++ frac_digits) ->
  (Z.of_nat (List.length (int_digits ++ frac_digits)) <= MAX_EMAX)%Z ->
  parse_decimal (CStr (string_of_list_ascii
                         ((if sign then ["-"%char] else [])
                          ++ int_digits ++ sep :: frac_digits)))
  = Ok (Some (Finite sign (int_of_digits (int_digits ++ frac_digits))
                (- Z.of_nat (List.length frac_digits)))).
Proof.
  intros Hsep Hne Hall Hlen.
  apply Forall_app in Hall as Hparts. destruct Hparts as [Hip Hfp].
  assert (Hsepd : forall l, Forall (fun a => is_digit a = true) l ->
            Forall (fun a => Ascii.eqb a " " = false /\ Ascii.eqb a "," = false) l).
  { intros l Hl. eapply Forall_impl; [|exact Hl]. intros x Hx.
    exact (digit_not_separator x Hx). }
  set (head := ((if sign then ["-"%char] else []) ++ int_digits)%list).
  assert (Hhead : Forall (fun a => Ascii.eqb a " " = false /\ Ascii.eqb a "," = false) head).
  { unfold head. apply Forall_app. split; [|apply Hsepd; assumption].
    destruct sign; repeat constructor. }
  assert (Htext : ((if sign then ["-"%char] else []) ++ int_digits ++ sep :: frac_digits
                   = head ++ sep :: frac_digits)%list).
  { unfold head. rewrite <- app_assoc. reflexivity. }
  assert (Hclean : py_replace "," "." (py_replace " " ""
                     (string_of_list_ascii (head ++ sep :: frac_digits)))
                   = string_of_list_ascii (head ++ "."%char :: frac_digits)).
  { rewrite (py_replace_chars_absent " " "").
    2: { apply Forall_app. split.
         - eapply Forall_impl; [|exact Hhead]. intros x [H _]. exact H.
         - constructor; [destruct Hsep as [->| ->]; reflexivity|].
           eapply Forall_impl; [|exact (Hsepd _ Hfp)]. intros x [H _]. exact H. }
    rewrite !string_of_chars_app, py_replace_app.
    rewrite (py_replace_chars_absent "," ".")
      by (eapply Forall_impl; [|exact Hhead]; intros x [_ H]; exact H).
    f_equal. cbn [string_of_list_ascii py_replace].
    rewrite (py_replace_chars_absent "," ".")
      by (eapply Forall_impl; [|exact (Hsepd _ Hfp)]; intros x [_ H]; exact H).
    destruct Hsep as [->| ->]; reflexivity. }
  unfold parse_decimal. cbn [py_str]. rewrite Htext, Hclean.
  unfold head. rewrite <- app_assoc.
  rewrite of_string_plain; try assumption; [reflexivity|].
  unfold exact_fits, adjusted. apply andb_true_iff.
  assert (Hnonempty : int_digits ++ frac_digits <> []).
  { destruct int_digits; [contradiction|discriminate]. }
  pose proof (int_of_digits_digits _ Hnonempty Hall) as Hnd.
  rewrite length_app in Hlen, Hnd.
  unfold MAX_EMAX, MIN_ETINY in *.
  split; [apply Z.leb_le|apply Z.leb_le]; lia.
Qed.

Lemma parse_decimal_text_amount_witness :
  parse_decimal (CStr "-12,50") = Ok (Some (Finite true 1250 (-2))).
Proof.
  apply (parse_decimal_text_amount true ["1"; "2"]%char ["5"; "0"]%char ","%char).
  - left. reflexivity.
  - discriminate.
  - repeat constructor.
  - vm_compute. discriminate.
Defined.
